(** * Conversational-turn orchestrator: skill ledger, bounded memory, plan dispatch

    A shallow embedding of
      - [src/core/skill_system.py]   (class [SkillSystem]),
      - [src/core/analyzer.py]       (classes [TextAnalyzer], [ResponseGenerator]),
      - [src/core/cognitive_cycle.py] (class [CognitiveCycle]),
      - [src/modules/online_brain.py] (class [OnlineBrain], the parts that do
        not touch the network),
    followed by the properties of the specification that concern them.

    Conventions of the embedding.
      - A Python [str] is a sequence of Unicode code points: [str := list N].
        Literals are written [u "..."], which decodes the UTF-8 bytes of the
        literal.
      - A Python [int] is a [Z].
      - A Python [float] is modelled twice.  In [skill_system] and [analyzer]
        it is a real number ([R]) and the arithmetic is the exact arithmetic
        of the reals: rounding, infinities and NaN are left out, and a property
        stated there describes the algorithm.  In [binary64] the skill ledger
        is repeated over IEEE 754 binary64 values (the primitive floats of the
        kernel), every operation rounded as Python rounds it; the runs that
        show where rounding departs from the exact model are evaluated there.
      - A Python [dict] used as a map is a [gmap].
      - An exception that leaves [run_cycle] is an explicit outcome [Raise].
      - The collaborators whose code is outside the modelled files (emotion
        engine, safety filter, network search, language-model client, float
        formatting) are the fields of the class [Collaborators]. *)

From Stdlib Require Import ZArith NArith List String Ascii Reals Lra Lia DecimalString.
From Stdlib Require Floats QArith.
From stdpp Require Import gmap list fin_maps.

(** ** Python strings *)

Module Py.

Definition char := N.
Definition str := list char.

(** UTF-8 decoding of the bytes of a literal. *)
Fixpoint utf8_decode (bs : list N) : str :=
  match bs with
  | [] => []
  | b0 :: t0 =>
    if (b0 <? 128)%N then b0 :: utf8_decode t0
    else match t0 with
    | [] => [b0]
    | b1 :: t1 =>
      if (b0 <? 224)%N
      then ((b0 mod 32) * 64 + b1 mod 64)%N :: utf8_decode t1
      else match t1 with
      | [] => [b0; b1]
      | b2 :: t2 =>
        if (b0 <? 240)%N
        then ((b0 mod 16) * 4096 + (b1 mod 64) * 64 + b2 mod 64)%N :: utf8_decode t2
        else match t2 with
        | [] => [b0; b1; b2]
        | b3 :: t3 =>
          ((b0 mod 8) * 262144 + (b1 mod 64) * 4096 + (b2 mod 64) * 64 + b3 mod 64)%N
            :: utf8_decode t3
        end
      end
    end
  end.

Definition u (s : string) : str :=
  utf8_decode (map N_of_ascii (list_ascii_of_string s)).

Definition str_eqb (a b : str) : bool := bool_decide (a = b).

(** [x in xs] for a list of strings. *)
Definition mem (x : str) (xs : list str) : bool := bool_decide (x ∈ xs).

(** [s.startswith(p)] *)
Fixpoint startswith (s p : str) : bool :=
  match p, s with
  | [], _ => true
  | _ :: _, [] => false
  | c :: p', d :: s' => (c =? d)%N && startswith s' p'
  end.

(** [w in t] for strings: [w] occurs in [t] as a contiguous run. *)
Fixpoint contains (t w : str) : bool :=
  startswith t w ||
  match t with
  | [] => false
  | _ :: t' => contains t' w
  end.

(** [any(w in t for w in ws)] *)
Definition any_in (ws : list str) (t : str) : bool :=
  existsb (contains t) ws.

(** [str.isspace] on one code point; also the class [\s] of [re] on [str]
    patterns. *)
Definition isspace (c : char) : bool :=
  ((9 <=? c) && (c <=? 13) || (28 <=? c) && (c <=? 32) || (c =? 133) || (c =? 160)
   || (c =? 5760) || (8192 <=? c) && (c <=? 8202) || (c =? 8232) || (c =? 8233)
   || (c =? 8239) || (c =? 8287) || (c =? 12288))%N.

(** The decimal digits [0]..[9].  (Python's [\d] and [int] accept the decimal
    digits of the other scripts as well; those are not listed here.) *)
Definition isdecimal (c : char) : bool := ((48 <=? c) && (c <=? 57))%N.

(** [str.lower] on one code point, for the Basic Latin, Latin-1 and Cyrillic
    blocks (the blocks of the program's keyword tables); code points of other
    blocks are returned as they are. *)
Definition lower_char (c : char) : char :=
  if ((65 <=? c) && (c <=? 90))%N then (c + 32)%N
  else if ((192 <=? c) && (c <=? 222) && negb (c =? 215))%N then (c + 32)%N
  else if ((1024 <=? c) && (c <=? 1039))%N then (c + 80)%N
  else if ((1040 <=? c) && (c <=? 1071))%N then (c + 32)%N
  else c.

Definition lower (s : str) : str := map lower_char s.

Fixpoint lstrip (s : str) : str :=
  match s with
  | c :: s' => if isspace c then lstrip s' else s
  | [] => []
  end.

Definition rstrip (s : str) : str := rev (lstrip (rev s)).

(** [s.strip()] *)
Definition strip (s : str) : str := rstrip (lstrip s).

(** [int(s)] on a run of decimal digits.  (CPython 3.11 refuses a run of more
    than 4300 digits with [ValueError]; such runs are outside the model.) *)
Definition int_of_digits (s : str) : Z :=
  fold_left (fun acc c => (acc * 10 + (Z.of_N c - 48))%Z) s 0%Z.

(** [str(n)] for an [int].  (The limit of 4300 digits applies here as well.) *)
Definition str_of_int (n : Z) : str :=
  map N_of_ascii (list_ascii_of_string (NilZero.string_of_int (Z.to_int n))).

(** [sep.join(xs)] *)
Fixpoint join (sep : str) (xs : list str) : str :=
  match xs with
  | [] => []
  | [x] => x
  | x :: xs' => x ++ sep ++ join sep xs'
  end.

(** [l[-n:]] for [n > 0]: the last [n] elements, the whole list when it is
    shorter. *)
Definition last_n {A} (n : nat) (l : list A) : list A :=
  drop (length l - n) l.

(** [l[:n]] *)
Definition first_n {A} (n : nat) (l : list A) : list A := take n l.

End Py.

Export Py.

(** Literals are compared as written; they are decoded last. *)
#[global] Strategy 1000 [u].

(** ** Regular expressions ([re]) *)

Module Re.

(** The fragment of the pattern language the program's patterns are written
    in.  [Grp i r] is the capturing group number [i]. *)
Inductive regex : Type :=
| Eps
| Chr (c : char)
| Cls (p : char -> bool)
| Seq (r1 r2 : regex)
| Alt (r1 r2 : regex)
| Star (r : regex)
| Grp (i : nat) (r : regex).

Definition captures := list (nat * str).

Definition group (caps : captures) (i : nat) : str :=
  match find (fun p => Nat.eqb (fst p) i) caps with
  | Some p => snd p
  | None => []
  end.

(** Backtracking matcher in continuation-passing style: alternatives are tried
    left to right and repetition is greedy, as in [re].  [k] receives the rest
    of the subject and the groups captured so far. *)
Fixpoint rmatch {A} (r : regex) (s : str) (caps : captures)
    (k : str -> captures -> option A) : option A :=
  match r with
  | Eps => k s caps
  | Chr c =>
    match s with
    | x :: s' => if (x =? c)%N then k s' caps else None
    | [] => None
    end
  | Cls p =>
    match s with
    | x :: s' => if p x then k s' caps else None
    | [] => None
    end
  | Seq r1 r2 => rmatch r1 s caps (fun s' caps' => rmatch r2 s' caps' k)
  | Alt r1 r2 =>
    match rmatch r1 s caps k with
    | Some a => Some a
    | None => rmatch r2 s caps k
    end
  | Star r1 =>
    (fix loop (n : nat) (s : str) (caps : captures) : option A :=
       match n with
       | O => k s caps
       | S n' =>
         match rmatch r1 s caps
                 (fun s' caps' =>
                    if (length s' <? length s)%nat then loop n' s' caps' else None) with
         | Some a => Some a
         | None => k s caps
         end
       end) (length s) s caps
  | Grp i r1 =>
    rmatch r1 s caps
      (fun s' caps' => k s' ((i, take (length s - length s') s) :: caps'))
  end.

(** [re.fullmatch(r, s)] *)
Definition fullmatch (r : regex) (s : str) : option captures :=
  rmatch r s [] (fun s' caps => match s' with [] => Some caps | _ => None end).

(** [re.search(r, s)]: the leftmost position at which [r] matches. *)
Fixpoint search (r : regex) (s : str) : option captures :=
  match rmatch r s [] (fun _ caps => Some caps) with
  | Some caps => Some caps
  | None =>
    match s with
    | [] => None
    | _ :: s' => search r s'
    end
  end.

(** [re.findall(r, s)] for a pattern without groups: the matches found from
    left to right, none overlapping another. *)
Fixpoint findall_fuel (fuel : nat) (r : regex) (s : str) : list str :=
  match fuel with
  | O => []
  | S fuel' =>
    match rmatch r s [] (fun s' _ => Some s') with
    | Some s' =>
      let m := take (length s - length s') s in
      match m, s with
      | [], [] => [[]]
      | [], _ :: t => [] :: findall_fuel fuel' r t
      | _ :: _, _ => m :: findall_fuel fuel' r s'
      end
    | None =>
      match s with
      | [] => []
      | _ :: t => findall_fuel fuel' r t
      end
    end
  end.

Definition findall (r : regex) (s : str) : list str :=
  findall_fuel (S (length s)) r s.

(** Pattern syntax. *)
Fixpoint Lit (s : str) : regex :=
  match s with
  | [] => Eps
  | [c] => Chr c
  | c :: s' => Seq (Chr c) (Lit s')
  end.

Fixpoint Alts (rs : list regex) : regex :=
  match rs with
  | [] => Eps
  | [r] => r
  | r :: rs' => Alt r (Alts rs')
  end.

Fixpoint Seqs (rs : list regex) : regex :=
  match rs with
  | [] => Eps
  | [r] => r
  | r :: rs' => Seq r (Seqs rs')
  end.

Definition Opt (r : regex) : regex := Alt r Eps.
Definition Plus (r : regex) : regex := Seq r (Star r).
Definition Words (ws : list string) : regex := Alts (map (fun w => Lit (u w)) ws).

(** [\s], [\d], [.] and [[+\-*/]] *)
Definition ws : regex := Cls isspace.
Definition digit : regex := Cls isdecimal.
Definition dot : regex := Cls (fun c => negb (c =? 10)%N).
Definition op_char : regex :=
  Cls (fun c => (c =? 43) || (c =? 45) || (c =? 42) || (c =? 47))%N.

End Re.

Export Re.

(** ** Exceptions and floats *)

Inductive exn : Type :=
| AttributeError (attr : string)
| KeyError (key : str)
| ValueError
| ZeroDivisionError
| OverflowError.

Inductive outcome (A : Type) : Type :=
| Ret (a : A)
| Raise (e : exn).

Arguments Ret {A} a.
Arguments Raise {A} e.

#[global] Instance Rle_decision (x y : R) : Decision (x <= y)%R := Rle_dec x y.
#[global] Instance Rlt_decision (x y : R) : Decision (x < y)%R := Rlt_dec x y.
#[global] Instance Req_decision (x y : R) : Decision (x = y) := Req_dec_T x y.

(** [math.floor] and [int(x)] (rounding toward zero) on a float. *)
Definition floor (x : R) : Z := Int_part x.

Definition int_of_float (x : R) : Z :=
  if bool_decide (0 <= x)%R then Int_part x else (- Int_part (- x))%Z.

(** [x.is_integer()] *)
Definition is_integer (x : R) : bool := bool_decide (x = IZR (Int_part x)).

(** [math.log10]; it raises [ValueError] outside its domain. *)
Definition log10 (x : R) : outcome R :=
  if bool_decide (0 < x)%R then Ret (ln x / ln 10)%R else Raise ValueError.

(** ** [skill_system.py] *)

Module skill_system.

Inductive SkillLevel : Type :=
| NOVICE | BEGINNER | INTERMEDIATE | ADVANCED | EXPERT.

(** [list(SkillLevel)] *)
Definition SkillLevel_members : list SkillLevel :=
  [NOVICE; BEGINNER; INTERMEDIATE; ADVANCED; EXPERT].

#[global] Instance SkillLevel_eq_dec : EqDecision SkillLevel.
Proof. solve_decision. Defined.

Record Skill : Type := mkSkill {
  name : str;
  category : str;
  experience : R;
  level : SkillLevel;
  uses : Z;
  tags : list str;
  last_used_cycle : Z
}.

(** [Skill(name=name, category=category, tags=tags)] with the defaults of the
    dataclass. *)
Definition new_Skill (name category : str) (tags : list str) : Skill :=
  mkSkill name category 0%R NOVICE 0%Z tags 0%Z.

Definition set_experience (e : R) (s : Skill) : Skill :=
  mkSkill (name s) (category s) e (level s) (uses s) (tags s) (last_used_cycle s).

Definition set_level (l : SkillLevel) (s : Skill) : Skill :=
  mkSkill (name s) (category s) (experience s) l (uses s) (tags s) (last_used_cycle s).

Record SkillSystem : Type := mkSkillSystem {
  skills : gmap str Skill;
  total_experience : R;
  current_cycle : Z
}.

Definition XP_THRESHOLDS (l : SkillLevel) : R :=
  match l with
  | NOVICE => 0%R
  | BEGINNER => 100%R
  | INTERMEDIATE => 500%R
  | ADVANCED => 2000%R
  | EXPERT => 10000%R
  end.

Definition defaults : list (str * str * list str) :=
  [ (u "приветствие", u "общение", [u "social"]);
    (u "поиск_в_интернете", u "технические", [u "web"; u "research"]);
    (u "эмпатия", u "общение", [u "emotional"]);
    (u "анализ", u "технические", [u "logic"]);
    (u "креативность", u "творческие", [u "creative"]) ].

Definition _init_default_skills (sk : gmap str Skill) : gmap str Skill :=
  fold_left (fun m '(name, cat, tags) => <[name := new_Skill name cat tags]> m)
            defaults sk.

(** [SkillSystem()] *)
Definition init : SkillSystem :=
  mkSkillSystem (_init_default_skills ∅) 0%R 0%Z.

(** The loop walks the levels from [EXPERT] down and stops at the first
    threshold the experience reaches; when none is reached the level stays. *)
Definition _update_level (skill : Skill) : Skill :=
  match find (fun l => bool_decide (XP_THRESHOLDS l <= experience skill)%R)
             (rev SkillLevel_members) with
  | Some l => set_level l skill
  | None => skill
  end.

(** The XP one call of [use_skill] grants to a skill used [n] times before. *)
Definition xp_gain (success : bool) (n : Z) : R :=
  let base_xp : R := if success then 10%R else 3%R in
  let bonus := (1.0 + IZR n * 0.01)%R in
  (base_xp * Rmin bonus 2.0%R)%R.

Definition use_skill (nm : str) (success : bool) (cycle : option Z)
    (sys : SkillSystem) : R * SkillSystem :=
  let sk := match skills sys !! nm with
            | Some _ => skills sys
            | None => <[nm := new_Skill nm (u "общение") []]> (skills sys)
            end in
  let skill := default (new_Skill nm (u "общение") []) (sk !! nm) in
  let xp := xp_gain success (uses skill) in
  let skill' :=
    _update_level
      (mkSkill (name skill) (category skill) (experience skill + xp)%R (level skill)
               (uses skill + 1)%Z (tags skill)
               (match cycle with Some c => c | None => current_cycle sys end)) in
  (xp, mkSkillSystem (<[nm := skill']> sk) (total_experience sys + xp)%R
                     (current_cycle sys)).

(** The body of the loop of [tick] for one skill: [cur] is the cycle counter
    after it has been advanced and [n] the number of skills. *)
Definition tick_skill (cycles cur : Z) (passive_xp : R) (n : nat) (skill : Skill) : Skill :=
  let e1 := (experience skill + passive_xp / IZR (Z.max (Z.of_nat n) 1))%R in
  let cycles_since_use := (cur - last_used_cycle skill)%Z in
  let e2 :=
    if bool_decide (50 < cycles_since_use)%Z && bool_decide (0 < e1)%R
    then let decay := (e1 * 0.001 * IZR cycles)%R in Rmax 0.0%R (e1 - decay)%R
    else e1 in
  _update_level (set_experience e2 skill).

Definition tick (cycles : Z) (sys : SkillSystem) : SkillSystem :=
  let cur := (current_cycle sys + cycles)%Z in
  let passive_xp := (0.5 * IZR cycles)%R in
  mkSkillSystem (tick_skill cycles cur passive_xp (size (skills sys)) <$> skills sys)
                (total_experience sys + passive_xp)%R
                cur.

Definition get_skill (nm : str) (sys : SkillSystem) : option Skill :=
  skills sys !! nm.

(** [order.index(skill.level)] *)
Definition level_index (l : SkillLevel) : Z :=
  match l with
  | NOVICE => 0%Z
  | BEGINNER => 1%Z
  | INTERMEDIATE => 2%Z
  | ADVANCED => 3%Z
  | EXPERT => 4%Z
  end.

Definition get_level (nm : str) (sys : SkillSystem) : Z :=
  match skills sys !! nm with
  | None => 0%Z
  | Some skill => level_index (level skill)
  end.

Definition get_total_level (sys : SkillSystem) : outcome Z :=
  match log10 (total_experience sys + 1) with
  | Ret l => Ret (int_of_float (l * 2) + 1)%Z
  | Raise e => Raise e
  end.

(** One call of the public interface that changes the ledger. *)
Inductive call : Type :=
| Use (nm : str) (success : bool) (cycle : option Z)
| Tick (cycles : Z).

Definition run_call (c : call) (sys : SkillSystem) : SkillSystem :=
  match c with
  | Use nm success cycle => snd (use_skill nm success cycle sys)
  | Tick cycles => tick cycles sys
  end.

Definition run_calls (cs : list call) (sys : SkillSystem) : SkillSystem :=
  fold_left (fun s c => run_call c s) cs sys.

(** The sum of [experience] over the skills of the ledger. *)
Definition sum_experience (sk : gmap str Skill) : R :=
  map_fold (fun _ s acc => (experience s + acc)%R) 0%R sk.

End skill_system.

(** ** [skill_system.py] in binary64

    The same class once more, with [experience] and [total_experience] as the
    IEEE 754 binary64 values a Python [float] holds: every operation rounds to
    the nearest value, ties to even.  The operations are those of the kernel's
    primitive floats, so that a run of the ledger can be evaluated. *)

Module binary64.

Import Floats QArith.
Import skill_system(SkillLevel, NOVICE, BEGINNER, INTERMEDIATE, ADVANCED, EXPERT,
                    SkillLevel_members, defaults, call, Use, Tick).

#[local] Set Warnings "-inexact-float".
#[local] Open Scope float_scope.

(** [float(z)] of an [int], which Python applies to the [int] operand of a
    mixed operation: the nearest binary64 value, ties to even, and
    [OverflowError] when [z] is out of the range of the finite values. *)
Definition float_of_int (z : Z) : outcome float :=
  let x := SF2Prim (binary_normalize prec emax z 0 false) in
  if is_infinity x then Raise OverflowError else Ret x.

(** The exact value of a finite binary64 number. *)
Definition exact (x : float) : Q :=
  match Prim2SF x with
  | S754_finite s m e => (inject_Z (if s then Z.neg m else Z.pos m) * 2 ^ e)%Q
  | _ => 0%Q
  end.

(** [min(a, b)] and [max(a, b)] of the builtins: the first argument unless the
    second one is strictly smaller (larger). *)
Definition min (a b : float) : float := if b <? a then b else a.
Definition max (a b : float) : float := if a <? b then b else a.

Record Skill : Type := mkSkill {
  name : str;
  category : str;
  experience : float;
  level : SkillLevel;
  uses : Z;
  tags : list str;
  last_used_cycle : Z
}.

Definition new_Skill (name category : str) (tags : list str) : Skill :=
  mkSkill name category 0 NOVICE 0%Z tags 0%Z.

Definition set_experience (e : float) (s : Skill) : Skill :=
  mkSkill (name s) (category s) e (level s) (uses s) (tags s) (last_used_cycle s).

Definition set_level (l : SkillLevel) (s : Skill) : Skill :=
  mkSkill (name s) (category s) (experience s) l (uses s) (tags s) (last_used_cycle s).

Record SkillSystem : Type := mkSkillSystem {
  skills : gmap str Skill;
  total_experience : float;
  current_cycle : Z
}.

(** The thresholds are [int]s; each is a binary64 value, and the comparison of
    a [float] with it is exact. *)
Definition XP_THRESHOLDS (l : SkillLevel) : float :=
  match l with
  | NOVICE => 0
  | BEGINNER => 100
  | INTERMEDIATE => 500
  | ADVANCED => 2000
  | EXPERT => 10000
  end.

Definition _init_default_skills (sk : gmap str Skill) : gmap str Skill :=
  fold_left (fun m '(name, cat, tags) => <[name := new_Skill name cat tags]> m)
            defaults sk.

(** [SkillSystem()] *)
Definition init : SkillSystem :=
  mkSkillSystem (_init_default_skills ∅) 0 0%Z.

Definition _update_level (skill : Skill) : Skill :=
  match find (fun l => XP_THRESHOLDS l <=? experience skill) (rev SkillLevel_members) with
  | Some l => set_level l skill
  | None => skill
  end.

(** [use_skill] returns the XP, or raises where [skill.uses * 0.01] cannot
    convert [uses]; the ledger comes with either outcome. *)
Definition use_skill (nm : str) (success : bool) (cycle : option Z)
    (sys : SkillSystem) : outcome float * SkillSystem :=
  let sk := match skills sys !! nm with
            | Some _ => skills sys
            | None => <[nm := new_Skill nm (u "общение") []]> (skills sys)
            end in
  let skill := default (new_Skill nm (u "общение") []) (sk !! nm) in
  let base_xp : float := if success then 10 else 3 in
  match float_of_int (uses skill) with
  | Raise e => (Raise e, mkSkillSystem sk (total_experience sys) (current_cycle sys))
  | Ret n =>
    let bonus := 1.0 + n * 0.01 in
    let xp := base_xp * min bonus 2.0 in
    let skill' :=
      _update_level
        (mkSkill (name skill) (category skill) (experience skill + xp) (level skill)
                 (uses skill + 1)%Z (tags skill)
                 (match cycle with Some c => c | None => current_cycle sys end)) in
    (Ret xp, mkSkillSystem (<[nm := skill']> sk) (total_experience sys + xp)
                           (current_cycle sys))
  end.

(** The body of the loop of [tick] for one skill: [cycles] is [float(cycles)],
    [cur] the cycle counter after it has been advanced, [n] is
    [float(max(len(self.skills), 1))]. *)
Definition tick_skill (cycles : float) (cur : Z) (passive_xp n : float) (skill : Skill)
    : Skill :=
  let e1 := experience skill + passive_xp / n in
  let cycles_since_use := (cur - last_used_cycle skill)%Z in
  let e2 :=
    if bool_decide (50 < cycles_since_use)%Z && (0 <? e1)
    then let decay := e1 * 0.001 * cycles in max 0.0 (e1 - decay)
    else e1 in
  _update_level (set_experience e2 skill).

(** [tick] raises where [0.5 * cycles] cannot convert [cycles]; the cycle
    counter has been advanced by then. *)
Definition tick (cycles : Z) (sys : SkillSystem) : outcome unit * SkillSystem :=
  let cur := (current_cycle sys + cycles)%Z in
  match float_of_int cycles with
  | Raise e => (Raise e, mkSkillSystem (skills sys) (total_experience sys) cur)
  | Ret c =>
    let passive_xp := 0.5 * c in
    let total := total_experience sys + passive_xp in
    match float_of_int (Z.max (Z.of_nat (size (skills sys))) 1) with
    | Raise e => (Raise e, mkSkillSystem (skills sys) total cur)
    | Ret n =>
      (Ret tt, mkSkillSystem (tick_skill c cur passive_xp n <$> skills sys) total cur)
    end
  end.

Definition run_call (c : call) (sys : SkillSystem) : outcome unit * SkillSystem :=
  match c with
  | Use nm success cycle =>
    match use_skill nm success cycle sys with
    | (Ret _, sys') => (Ret tt, sys')
    | (Raise e, sys') => (Raise e, sys')
    end
  | Tick cycles => tick cycles sys
  end.

(** The calls in turn, up to the first one that raises. *)
Fixpoint run_calls (cs : list call) (sys : SkillSystem) : outcome unit * SkillSystem :=
  match cs with
  | [] => (Ret tt, sys)
  | c :: cs' =>
    match run_call c sys with
    | (Ret _, sys') => run_calls cs' sys'
    | (Raise e, sys') => (Raise e, sys')
    end
  end.

(** The experience of the skill [nm], 0 when the ledger does not hold it. *)
Definition experience_of (nm : str) (sys : SkillSystem) : float :=
  match skills sys !! nm with
  | Some s => experience s
  | None => 0
  end.

(** The sum of [experience] over the skills of the ledger, as the exact sum of
    the binary64 values. *)
Definition sum_experience (sk : gmap str Skill) : Q :=
  map_fold (fun _ s acc => (exact (experience s) + acc)%Q) 0%Q sk.

End binary64.

(** ** Collaborators

    The code of these is not part of the modelled files: the emotion engine
    ([emotion_engine.py]), the safety filter ([safety_system.py]), the HTTP
    session behind [OnlineBrain.answer] (which catches every exception and
    always returns a string), the language-model client and the formatting of
    floats.  Each object is a state of its own that its methods may change. *)

Class Collaborators : Type := {
  EmotionEngine : Type;
  EmotionType : Type;
  JOY : EmotionType;
  SADNESS : EmotionType;
  ANGER : EmotionType;
  INTEREST : EmotionType;
  (** [EmotionType.value] *)
  emotion_value : EmotionType -> str;
  (** [EmotionEngine()] *)
  EmotionEngine_init : EmotionEngine;
  apply_stimulus : EmotionType -> R -> EmotionEngine -> EmotionEngine;
  decay : EmotionEngine -> EmotionEngine;
  get_dominant_emotion : EmotionEngine -> EmotionType * R;
  get_mood_description : EmotionEngine -> str;

  SafetySystem : Type;
  SafetySystem_init : SafetySystem;
  check_input : str -> SafetySystem -> (bool * str) * SafetySystem;

  OnlineBrain : Type;
  OnlineBrain_init : OnlineBrain;
  answer : str -> OnlineBrain -> str * OnlineBrain;

  (** The client object and [client.chat.completions.create(...)] followed by
      [.choices[0].message.content]: the content, or the text of the exception
      that was raised. *)
  Client : Type;
  chat_completions_create : list (str * str) -> Client -> (str + str) * Client;

  (** [str(x)] and [format(x, ".0%")] for a float. *)
  float_repr : R -> str;
  format_percent : R -> str
}.

(** ** [analyzer.py] *)

Module analyzer.

Section WithCollaborators.
Context `{Collaborators}.

Open Scope string_scope.
Open Scope list_scope.

(** [TextAnalyzer.patterns], in the order of the dict literal. *)
Definition tail_subject (heads : list string) : regex :=
  Seqs [Words heads; Plus ws; Grp 1 (Plus dot)].

Definition patterns : list (str * regex) :=
  [ (u "math",
     Seqs [Opt (Words ["сколько"; "чему равно"; "посчитай"]); Star ws;
           Grp 1 (Plus digit); Star ws; Grp 2 op_char; Star ws; Grp 3 (Plus digit)]);
    (u "definition", tail_subject ["что такое"; "что значит"; "объясни"; "расскажи про"]);
    (u "how_to", tail_subject ["как"; "каким образом"]);
    (u "why", tail_subject ["почему"; "зачем"; "отчего"]);
    (u "when", tail_subject ["когда"]);
    (u "where", tail_subject ["где"; "куда"; "откуда"]);
    (u "who", tail_subject ["кто такой"; "кто такая"; "кто такие"; "кто"]);
    (u "compare", tail_subject ["сравни"; "чем отличается"; "разница между"]);
    (u "list", tail_subject ["перечисли"; "назови"; "какие бывают"]) ].

Record Analysis : Type := mkAnalysis {
  original : str;
  type_ : str;
  subject : option str;
  keywords : list str;
  is_question : bool;
  operands : option (Z * str * Z)
}.

Definition stop_words : list str :=
  map u
    [ "и"; "в"; "на"; "с"; "по"; "для"; "что"; "как"; "это"; "то";
      "а"; "но"; "или"; "если"; "то"; "же"; "бы"; "ли"; "не"; "ни";
      "я"; "ты"; "он"; "она"; "мы"; "вы"; "они"; "мне"; "тебе";
      "его"; "её"; "их"; "нас"; "вас"; "у"; "к"; "от"; "до"; "из" ].

(** [[а-яёa-z]] *)
Definition word_char : regex :=
  Cls (fun c => ((1072 <=? c) && (c <=? 1103) || (c =? 1105)
                 || (97 <=? c) && (c <=? 122))%N).

Definition _extract_keywords (text : str) : list str :=
  let words := findall (Plus word_char) (lower text) in
  filter (fun w => negb (mem w stop_words) && (2 <? length w)%nat = true) words.

(** The loop of [analyze] over [patterns]: the first pattern found in the
    text, with its match. *)
Fixpoint first_pattern (ps : list (str * regex)) (text_lower : str)
    : option (str * captures) :=
  match ps with
  | [] => None
  | (query_type, pattern) :: ps' =>
    match search pattern text_lower with
    | Some m => Some (query_type, m)
    | None => first_pattern ps' text_lower
    end
  end.

Definition analyze (text : str) : Analysis :=
  let text_lower := strip (lower text) in
  let kws := _extract_keywords text_lower in
  let isq :=
    contains text (u "?")
    || existsb (fun w => startswith text_lower (u w))
         ["что"; "как"; "где"; "когда"; "почему"; "зачем"; "кто"; "сколько"] in
  match first_pattern patterns text_lower with
  | Some (query_type, m) =>
    if str_eqb query_type (u "math")
    then mkAnalysis text query_type None kws isq
           (Some (int_of_digits (group m 1), group m 2, int_of_digits (group m 3)))
    else mkAnalysis text query_type (Some (strip (group m 1))) kws isq None
  | None => mkAnalysis text (u "unknown") None kws isq None
  end.

(** The value of an arithmetic expression: an [int] or a [float]. *)
Inductive pynum : Type :=
| PyInt (z : Z)
| PyFloat (r : R).

(** The table [ops]; [ops[op]] raises [KeyError] for any other key.  The
    quotient of [truediv] is the exact one: the binary64 quotient of the code
    is that number rounded, and it is an integer exactly when the exact one
    is as long as both operands are below [2^53]. *)
Definition ops (op : str) : outcome (Z -> Z -> outcome pynum) :=
  if str_eqb op (u "+") then Ret (fun a b => Ret (PyInt (a + b)))
  else if str_eqb op (u "-") then Ret (fun a b => Ret (PyInt (a - b)))
  else if str_eqb op (u "*") then Ret (fun a b => Ret (PyInt (a * b)))
  else if str_eqb op (u "/") then
    Ret (fun a b => if (b =? 0)%Z then Raise ZeroDivisionError
                    else Ret (PyFloat (IZR a / IZR b)))
  else Raise (KeyError op).

(** [ops[op](a, b)] *)
Definition apply_op (a : Z) (op : str) (b : Z) : outcome pynum :=
  match ops op with
  | Ret f => f a b
  | Raise e => Raise e
  end.

(** [int(result) if isinstance(result, float) and result.is_integer() else result] *)
Definition normalize (result : pynum) : pynum :=
  match result with
  | PyFloat r => if is_integer r then PyInt (int_of_float r) else result
  | PyInt _ => result
  end.

Definition format_num (x : pynum) : str :=
  match x with
  | PyInt z => str_of_int z
  | PyFloat r => float_repr r
  end.

(** [f"{a} {op} {b} = {result}"] *)
Definition format_equation (a : Z) (op : str) (b : Z) (result : pynum) : str :=
  str_of_int a ++ u " " ++ op ++ u " " ++ str_of_int b ++ u " = " ++ format_num result.

Definition _solve_math (operands : Z * str * Z) : str :=
  let '(a, op, b) := operands in
  match apply_op a op b with
  | Ret result => format_equation a op b (normalize result)
  | Raise ZeroDivisionError => u "На ноль делить нельзя!"
  | Raise _ => u "Не смог посчитать это выражение."
  end.

(** A working-memory entry, the dict [{"role": ..., "content": ...}]. *)
Record Message : Type := mkMessage {
  role : str;
  content : str
}.

(** [m.get(key, default)] *)
Definition Message_get (m : Message) (key default : str) : str :=
  if str_eqb key (u "role") then role m
  else if str_eqb key (u "content") then content m
  else default.

(** The generator holds a reference to the online brain or [None]; [ob] is the
    state of that object when there is one. *)
Definition _answer_with_search (analysis : Analysis) (ob : option OnlineBrain)
    : str * option OnlineBrain :=
  let subj := default (u "None") (subject analysis) in
  match ob with
  | None =>
    (u "Чтобы ответить на вопрос про '" ++ subj ++ u "', мне нужен доступ к интернету.",
     None)
  | Some b =>
    let query :=
      if str_eqb (type_ analysis) (u "definition") then u "что такое " ++ subj
      else if str_eqb (type_ analysis) (u "how_to") then u "как " ++ subj
      else if str_eqb (type_ analysis) (u "who") then u "кто такой " ++ subj
      else subj in
    let '(r, b') := answer query b in (r, Some b')
  end.

Definition _answer_generic_question (analysis : Analysis)
    (context : option (list Message)) : str :=
  match context with
  | Some ((_ :: _) as ctx) =>
    let last_topic :=
      match last ctx with
      | Some m => Message_get m (u "input") (u "")
      | None => u ""
      end in
    u "Ты спрашиваешь про то, что мы обсуждали (" ++ last_topic
      ++ u ")? Уточни, пожалуйста."
  | _ => u "Интересный вопрос! Можешь уточнить, что именно тебя интересует?"
  end.

Definition tech_words : list str :=
  map u ["python"; "код"; "программ"; "функци"; "класс"; "метод"].

Definition _answer_by_keywords (analysis : Analysis) (ob : option OnlineBrain)
    : option str * option OnlineBrain :=
  let kws := keywords analysis in
  if existsb (fun kw => mem kw tech_words || existsb (fun tw => contains kw tw) tech_words) kws
  then match ob with
       | Some b =>
         let '(r, b') := answer (join (u " ") (first_n 3 kws)) b in (Some r, Some b')
       | None =>
         (Some (u "Это похоже на вопрос про программирование. Могу поискать информацию, если уточнишь."),
          None)
       end
  else (None, ob).

(** [ResponseGenerator.generate]; the result [None] hands the turn over to
    the caller's fallback. *)
Definition generate (text : str) (context : option (list Message))
    (ob : option OnlineBrain) : option str * option OnlineBrain :=
  let analysis := analyze text in
  if str_eqb (type_ analysis) (u "math") then
    match operands analysis with
    | Some operands => (Some (_solve_math operands), ob)
    | None => (None, ob)
    end
  else if mem (type_ analysis)
            (map u ["definition"; "how_to"; "why"; "who"; "compare"; "list"]) then
    let '(r, ob') := _answer_with_search analysis ob in (Some r, ob')
  else if is_question analysis
          && match subject analysis with Some (_ :: _) => false | _ => true end then
    (Some (_answer_generic_question analysis context), ob)
  else match keywords analysis with
       | _ :: _ => _answer_by_keywords analysis ob
       | [] => (None, ob)
       end.

End WithCollaborators.

End analyzer.

(** ** [cognitive_cycle.py] *)

Module cognitive_cycle.

Import analyzer.

Section WithCollaborators.
Context `{Collaborators}.

Open Scope string_scope.
Open Scope list_scope.

(** An entry of the episodic memory. *)
#[warnings="-register-all"]
Inductive Episode : Type := mkEpisode {
  input : str;
  output : str;
  context : list Message;
  retrieved : list Episode;
  intent : str;
  goals : list str
}.

Record UserProfile : Type := mkUserProfile {
  name : option str;
  likes : gset str;
  dislikes : gset str;
  style : str;
  topics : gmap str Z
}.

(** The attributes of an instance.  [response_generator] holds a reference to
    the object [online_brain]; the two share the state [online_brain]. *)
Record CognitiveCycle : Type := mkCognitiveCycle {
  api_key : option str;
  emotion : EmotionEngine;
  skills : skill_system.SkillSystem;
  safety : SafetySystem;
  online_brain : OnlineBrain;
  memory : list Episode;
  working_memory : list Message;
  cycle_count : Z;
  client : option Client;
  user_profile : UserProfile
}.

Definition set_emotion (x : EmotionEngine) (self : CognitiveCycle) : CognitiveCycle :=
  mkCognitiveCycle (api_key self) x (skills self) (safety self) (online_brain self)
    (memory self) (working_memory self) (cycle_count self) (client self) (user_profile self).

Definition set_skills (x : skill_system.SkillSystem) (self : CognitiveCycle) : CognitiveCycle :=
  mkCognitiveCycle (api_key self) (emotion self) x (safety self) (online_brain self)
    (memory self) (working_memory self) (cycle_count self) (client self) (user_profile self).

Definition set_safety (x : SafetySystem) (self : CognitiveCycle) : CognitiveCycle :=
  mkCognitiveCycle (api_key self) (emotion self) (skills self) x (online_brain self)
    (memory self) (working_memory self) (cycle_count self) (client self) (user_profile self).

Definition set_online_brain (x : OnlineBrain) (self : CognitiveCycle) : CognitiveCycle :=
  mkCognitiveCycle (api_key self) (emotion self) (skills self) (safety self) x
    (memory self) (working_memory self) (cycle_count self) (client self) (user_profile self).

Definition set_memory (x : list Episode) (self : CognitiveCycle) : CognitiveCycle :=
  mkCognitiveCycle (api_key self) (emotion self) (skills self) (safety self)
    (online_brain self) x (working_memory self) (cycle_count self) (client self)
    (user_profile self).

Definition set_working_memory (x : list Message) (self : CognitiveCycle) : CognitiveCycle :=
  mkCognitiveCycle (api_key self) (emotion self) (skills self) (safety self)
    (online_brain self) (memory self) x (cycle_count self) (client self) (user_profile self).

Definition set_cycle_count (x : Z) (self : CognitiveCycle) : CognitiveCycle :=
  mkCognitiveCycle (api_key self) (emotion self) (skills self) (safety self)
    (online_brain self) (memory self) (working_memory self) x (client self)
    (user_profile self).

Definition set_client (x : option Client) (self : CognitiveCycle) : CognitiveCycle :=
  mkCognitiveCycle (api_key self) (emotion self) (skills self) (safety self)
    (online_brain self) (memory self) (working_memory self) (cycle_count self) x
    (user_profile self).

Definition set_user_profile (x : UserProfile) (self : CognitiveCycle) : CognitiveCycle :=
  mkCognitiveCycle (api_key self) (emotion self) (skills self) (safety self)
    (online_brain self) (memory self) (working_memory self) (cycle_count self)
    (client self) x.

(** [CognitiveCycle(api_key)].  [openai_client] is what [OpenAI(api_key=...)]
    gives when the import and the construction succeed. *)
Definition __init__ (api_key : option str) (openai_client : option Client)
    : CognitiveCycle :=
  mkCognitiveCycle api_key EmotionEngine_init skill_system.init SafetySystem_init
    OnlineBrain_init [] [] 0%Z
    (match api_key with
     | Some (_ :: _) => openai_client
     | _ => None
     end)
    (mkUserProfile None ∅ ∅ (u "friendly") ∅).

(** *** The methods are state transformers that may raise *)

Definition M (A : Type) : Type := CognitiveCycle -> outcome A * CognitiveCycle.

Definition ret {A} (a : A) : M A := fun self => (Ret a, self).

Definition raise {A} (e : exn) : M A := fun self => (Raise e, self).

Definition bind {A B} (m : M A) (f : A -> M B) : M B :=
  fun self =>
    match m self with
    | (Ret a, self') => f a self'
    | (Raise e, self') => (Raise e, self')
    end.

Definition gets {A} (f : CognitiveCycle -> A) : M A := fun self => (Ret (f self), self).

Definition modify (f : CognitiveCycle -> CognitiveCycle) : M unit :=
  fun self => (Ret tt, f self).

Definition act {A} (f : CognitiveCycle -> A * CognitiveCycle) : M A :=
  fun self => let '(a, self') := f self in (Ret a, self').

#[global] Instance M_ret : MRet M := @ret.
#[global] Instance M_bind : MBind M := fun A B f m => bind m f.

(** The names an instance resolves: the instance attributes set by
    [__init__] and the functions defined in the body of the class.  The text
    [def get_state] of the file stands inside the body of [_cleanup], so it
    defines no attribute of the class. *)
Definition attributes : list string :=
  [ "api_key"; "emotion"; "skills"; "safety"; "online_brain"; "response_generator";
    "memory"; "working_memory"; "cycle_count"; "client"; "user_profile";
    "__init__"; "run_cycle"; "_perceive"; "_update_working_memory";
    "_apply_attention"; "_retrieve_memory"; "_update_emotion"; "_infer_intent";
    "_form_goals"; "_make_plan"; "_run_plan"; "_online_search_response";
    "_generate_llm_response"; "_fallback_response"; "_update_skills"; "_learn";
    "_cleanup" ].

(** [self.<attr>]: [AttributeError] when the name does not resolve. *)
Definition getattr (attr : string) : M unit :=
  if bool_decide (attr ∈ attributes) then ret tt else raise (AttributeError attr).

Definition _perceive (user_input : str) : M (bool * str) :=
  act (fun self =>
    let '(r, s') := check_input user_input (safety self) in
    (r, set_safety s' self)).

Definition _update_working_memory (user_input : str) : M unit :=
  modify (fun self =>
    let wm := working_memory self ++ [mkMessage (u "user") user_input] in
    set_working_memory (if (20 <? length wm)%nat then last_n 20 wm else wm) self).

Definition _apply_attention : M (list Message) :=
  gets (fun self => last_n 10 (working_memory self)).

Definition _retrieve_memory (user_input : str) : M (list Episode) :=
  gets (fun self => last_n 5 (memory self)).

Definition stimulate (e : EmotionType) (w : R) : M unit :=
  modify (fun self => set_emotion (apply_stimulus e w (emotion self)) self).

Definition _update_emotion (text : str) : M unit :=
  let t := lower text in
  if any_in (map u ["привет"; "здравствуй"; "добрый"]) t then stimulate JOY 0.3%R
  else if any_in (map u ["грустно"; "плохо"; "печаль"]) t then stimulate SADNESS 0.4%R
  else if any_in (map u ["злюсь"; "бесит"; "раздражает"]) t then stimulate ANGER 0.3%R
  else if contains text (u "?") then stimulate INTEREST 0.2%R
  else ret tt.

Definition _infer_intent (text : str) : str :=
  let t := lower text in
  if startswith t (u "/status") then u "status"
  else if startswith t (u "/reset") then u "reset"
  else if any_in (map u ["что ты умеешь"; "что ты можешь"; "кто ты"]) t
       then u "ask_capabilities"
  else if any_in (map u ["совет"; "подскажи"; "как мне"; "что делать"]) t
       then u "ask_advice"
  else if any_in (map u ["грустно"; "плохо"; "одиноко"; "тяжело"]) t
       then u "seek_support"
  else if contains t (u "поиск_в_интернете") then u "search_skill"
  else if any_in (map u ["игра"; "играть"; "скучно"]) t then u "want_fun"
  else if contains t (u "?") then u "generic_question"
  else u "smalltalk".

Definition goals_map : list (str * list str) :=
  [ (u "status", [u "report_internal_state"]);
    (u "reset", [u "reset_memory"]);
    (u "ask_capabilities", [u "describe_capabilities"]);
    (u "ask_advice", [u "analyze_situation"; u "give_simple_advice"]);
    (u "seek_support", [u "comfort_user"; u "show_empathy"]);
    (u "search_skill", [u "ack_search_skill"; u "maybe_online_search"]);
    (u "want_fun", [u "offer_simple_game"]);
    (u "generic_question", [u "try_answer_question"]) ].

(** [d.get(key, default)] for a dict written as the list of its items. *)
Definition dict_get {V} (d : list (str * V)) (key : str) (dflt : V) : V :=
  match find (fun kv => str_eqb (fst kv) key) d with
  | Some kv => snd kv
  | None => dflt
  end.

Definition _form_goals (intent : str) : list str :=
  dict_get goals_map intent [u "keep_conversation"].

(** [plan.extend(acts) if goal in goals] *)
Definition when_goal (goal : string) (goals : list str) (acts : list str)
    (plan : list str) : list str :=
  if mem (u goal) goals then plan ++ acts else plan.

Definition _make_plan (intent : str) (goals : list str) (context : list Message)
    (retrieved : list Episode) (self : CognitiveCycle) : list str :=
  let plan : list str := [] in
  if mem (u "reset_memory") goals then [u "do_reset_memory"]
  else if mem (u "report_internal_state") goals then [u "describe_state"]
  else
    let plan := when_goal "comfort_user" goals
                  [u "check_recent_emotion"; u "generate_support_message"] plan in
    let plan := when_goal "show_empathy" goals [u "use_empathy_skill"] plan in
    let plan := when_goal "describe_capabilities" goals [u "describe_capabilities"] plan in
    let plan := when_goal "ack_search_skill" goals [u "ack_search_skill"] plan in
    let plan := when_goal "maybe_online_search" goals [u "maybe_online_search"] plan in
    let plan := when_goal "offer_simple_game" goals [u "offer_simple_game"] plan in
    let plan := when_goal "try_answer_question" goals
                  [match client self with
                   | Some _ => u "query_llm"
                   | None => u "use_fallback_logic"
                   end] plan in
    let plan := when_goal "keep_conversation" goals [u "keep_conversation"] plan in
    match plan with
    | [] => [u "use_fallback_logic"]
    | _ => plan
    end.

Definition _online_search_response (text : str) : M str :=
  let query := strip text in
  match query with
  | [] => mret (u "Нужно что-то для поиска. Попробуй сформулировать запрос.")
  | _ => act (fun self =>
           let '(r, ob) := answer query (online_brain self) in
           (r, set_online_brain ob self))
  end.

(** [try: ops[op](a, b) ... return f"..." / except Exception: pass] on the
    groups of a match. *)
Definition try_arithmetic (m : captures) : option str :=
  let a := int_of_digits (group m 1) in
  let op := group m 2 in
  let b := int_of_digits (group m 3) in
  match apply_op a op b with
  | Ret res => Some (format_equation a op b (normalize res))
  | Raise _ => None
  end.

Definition arithmetic_only : regex :=
  Seqs [Star ws; Grp 1 (Plus digit); Star ws; Grp 2 op_char; Star ws;
        Grp 3 (Plus digit); Star ws].

Definition arithmetic_question : regex :=
  Seqs [Lit (u "сколько"); Plus ws; Opt (Seq (Lit (u "будет")) (Plus ws));
        Grp 1 (Plus digit); Star ws; Grp 2 op_char; Star ws; Grp 3 (Plus digit)].

Definition _fallback_response (text : str) : M str :=
  let t := strip (lower text) in
  if any_in (map u ["привет"; "здравствуй"; "добрый"]) t
  then mret (u "Привет! Рад тебя видеть 🙂")
  else if contains t (u "как дела")
  then emo ← gets (fun self => fst (get_dominant_emotion (emotion self)));
       mret (u "У меня всё неплохо, чувствую " ++ emotion_value emo ++ u ". А у тебя как?")
  else
    match fullmatch arithmetic_only t ≫= try_arithmetic with
    | Some r => mret r
    | None =>
      match search arithmetic_question t ≫= try_arithmetic with
      | Some r => mret r
      | None =>
        if any_in (map u ["что ты умеешь"; "что ты можешь"]) t
        then mret (u "Я могу говорить, запоминать контекст, реагировать эмоциями и прокачивать навыки.")
        else if contains t (u "кто ты")
        then mret (u "Я экспериментальный ИИ-компаньон, который учится на общении с тобой.")
        else if contains text (u "?")
        then mret (u "Интересный вопрос. Как ты сам бы на него ответил?")
        else mret (u "Понял тебя. Можешь рассказать подробнее?")
      end
    end.

Definition _generate_llm_response (user_input : str) (context : list Message)
    (retrieved : list Episode) : M str :=
  c ← gets client;
  match c with
  | None => _fallback_response user_input
  | Some cl =>
    '(emo, conf) ← gets (fun self => get_dominant_emotion (emotion self));
    let messages :=
      [(u "system",
        u "Ты AI-компаньон. Эмоция: " ++ emotion_value emo ++ u " ("
          ++ format_percent conf ++ u "). Отвечай кратко.")]
      ++ map (fun m => (role m, content m)) context
      ++ [(u "user", user_input)] in
    act (fun self =>
      let '(r, cl') := chat_completions_create messages cl in
      (match r with
       | inl text => text
       | inr e => u "Ошибка API: " ++ e
       end,
       set_client (Some cl') self))
  end.

(** The body written under [def get_state]: the entries of the dict that the
    status line reads. *)
Definition get_state : M (Z * str * R * str) :=
  gets (fun self =>
    let '(emo, confidence) := get_dominant_emotion (emotion self) in
    (cycle_count self, emotion_value emo, confidence,
     get_mood_description (emotion self))).

Definition quote : str := [34%N].

Definition _run_plan (plan : list str) (user_input : str) (context : list Message)
    (retrieved : list Episode) : M str :=
  if mem (u "do_reset_memory") plan then
    modify (set_working_memory []);;
    modify (set_memory []);;
    mret (u "Память очищена. Начинаем заново!")
  else if mem (u "describe_state") plan then
    getattr "get_state";;
    '(cycle, emo, confidence, mood) ← get_state;
    mret (u "Цикл: " ++ str_of_int cycle ++ u ", эмоция: " ++ emo ++ u " ("
          ++ format_percent confidence ++ u "), настроение: " ++ mood ++ u ".")
  else if mem (u "generate_support_message") plan then
    emo ← gets (fun self => fst (get_dominant_emotion (emotion self)));
    mret (u "Слышу, что тебе непросто. Сейчас я ощущаю " ++ emotion_value emo
          ++ u ". Хочешь рассказать подробнее?")
  else if mem (u "describe_capabilities") plan then
    mret (u "Я ещё не полноценный ИИ, но уже умею: помнить контекст, реагировать эмоциями, прокачивать навыки и подстраиваться под тебя.")
  else if mem (u "use_empathy_skill") plan then
    lvl ← gets (fun self => skill_system.get_level (u "эмпатия") (skills self));
    mret (if (3 <=? lvl)%Z
          then u "Я с тобой. Попробую быть максимально внимательным."
          else u "Понимаю, что тебе непросто. Постараюсь поддержать.")
  else if mem (u "ack_search_skill") plan then
    lvl ← gets (fun self => skill_system.get_level (u "поиск_в_интернете") (skills self));
    mret (if (lvl =? 0)%Z
          then u "Я пока только учусь поиску. Могу помочь сформулировать запрос."
          else u "Навык поиска прокачан. Могу подсказать, как лучше искать.")
  else if mem (u "maybe_online_search") plan then
    _online_search_response user_input
  else if mem (u "offer_simple_game") plan then
    mret (u "Давай сыграем! Я загадаю число от 1 до 10, а ты угадай.")
  else
    self ← gets (fun self => self);
    if mem (u "query_llm") plan && bool_decide (is_Some (client self)) then
      _generate_llm_response user_input context retrieved
    else
      let recall :=
        if mem (u "keep_conversation") plan then
          match last (memory self) with
          | Some l => if (3 <? length (input l))%nat then Some (input l) else None
          | None => None
          end
        else None in
      match recall with
      | Some last_input =>
        mret (u "Мы недавно обсуждали: " ++ quote ++ last_input ++ quote
              ++ u ". Продолжим или сменим тему?")
      | None =>
        generated ← act (fun self =>
                       let '(g, ob) := generate user_input (Some context)
                                                (Some (online_brain self)) in
                       (g, match ob with
                           | Some b => set_online_brain b self
                           | None => self
                           end));
        match generated with
        | Some ((_ :: _) as g) => mret g
        | _ => _fallback_response user_input
        end
      end.

Definition use (nm : string) : M unit :=
  modify (fun self =>
    set_skills (snd (skill_system.use_skill (u nm) true None (skills self))) self).

Definition _update_skills (text : str) : M unit :=
  let t := lower text in
  (if any_in (map u ["привет"; "пока"; "спасибо"]) t
   then use "приветствие" else mret tt);;
  (if any_in (map u ["найди"; "поищи"; "загугли"; "поиск_в_интернете"]) t
   then use "поиск_в_интернете" else mret tt);;
  (if any_in (map u ["грустно"; "плохо"; "расстроен"; "одиноко"]) t
   then use "эмпатия" else mret tt).

(** [topics[word] = topics.get(word, 0) + 1] for the words found in [t]. *)
Definition count_topics (t : str) (topics : gmap str Z) : gmap str Z :=
  fold_left
    (fun tp word =>
       if contains t word then <[word := (default 0 (tp !! word) + 1)%Z]> tp else tp)
    (map u ["игры"; "работа"; "учёба"; "семья"; "проект"]) topics.

Definition _learn (user_input response : str) (context : list Message)
    (retrieved : list Episode) (intent : str) (goals : list str) : M unit :=
  let episode := mkEpisode user_input response context retrieved intent goals in
  modify (fun self =>
    let mem' := memory self ++ [episode] in
    set_memory (if (100 <? length mem')%nat then last_n 100 mem' else mem') self);;
  _update_skills user_input;;
  let t := lower user_input in
  modify (fun self =>
    let p := user_profile self in
    set_user_profile
      (mkUserProfile (name p) (likes p) (dislikes p) (style p) (count_topics t (topics p)))
      self).

Definition _cleanup : M unit :=
  modify (fun self => set_emotion (decay (emotion self)) self);;
  modify (fun self => set_skills (skill_system.tick 1 (skills self)) self).

Definition run_cycle (user_input : str) : M str :=
  modify (fun self => set_cycle_count (cycle_count self + 1)%Z self);;
  '(safe, msg) ← _perceive user_input;
  if negb safe then mret (u "⚠️ " ++ msg)
  else
    _update_working_memory user_input;;
    context ← _apply_attention;
    retrieved ← _retrieve_memory user_input;
    _update_emotion user_input;;
    let intent := _infer_intent user_input in
    let goals := _form_goals intent in
    plan ← gets (_make_plan intent goals context retrieved);
    response ← _run_plan plan user_input context retrieved;
    _learn user_input response context retrieved intent goals;;
    _cleanup;;
    mret response.

(** The orchestrator after a sequence of turns.  A caller that catches the
    exception of a turn goes on with the state the turn left behind. *)
Definition run_cycles (inputs : list str) (self : CognitiveCycle) : CognitiveCycle :=
  fold_left (fun s i => snd (run_cycle i s)) inputs self.

End WithCollaborators.

End cognitive_cycle.

(** ** Vocabulary of the properties *)

Module props.

Import skill_system.

(** The skill [nm] as [use_skill] finds it: the entry of the ledger, or the
    fresh entry it creates for an unknown name. *)
Definition prior_skill (nm : str) (sys : SkillSystem) : Skill :=
  default (new_Skill nm (u "общение") []) (skills sys !! nm).

Definition experience_of (nm : str) (sys : SkillSystem) : R :=
  experience (prior_skill nm sys).

(** The specification's formula for the XP of one use. *)
Definition spec_xp (success : bool) (priorUses : Z) : R :=
  ((if success then 10 else 3) * Rmin (1 + 0.01 * IZR priorUses) 2.0)%R.

(** The specification's passive share of one skill in [tick(n)]. *)
Definition passive_share (n : Z) (sys : SkillSystem) : R :=
  (0.5 * IZR n / INR (size (skills sys)))%R.

(** The specification's formula for the total level:
    [floor(log10(total + 1) * 2) + 1]. *)
Definition spec_total_level (total : R) : Z :=
  (floor (ln (total + 1) / ln 10 * 2) + 1)%Z.

(** The scaled logarithm under the floor of that formula. *)
Definition scaled_log (total : R) : R := (ln (total + 1) / ln 10 * 2)%R.

(** No skill of the ledger has a negative number of uses. *)
Definition uses_nonneg (sys : SkillSystem) : Prop :=
  forall k s, skills sys !! k = Some s -> (0 <= uses s)%Z.

(** A call that advances the cycle counter does so by a number of cycles
    [n >= 0]. *)
Definition forward (c : call) : Prop :=
  match c with
  | Tick n => (0 <= n)%Z
  | Use _ _ _ => True
  end.

End props.

Module plan_order.

Import analyzer cognitive_cycle.

Section WithCollaborators.
Context `{Collaborators}.

Open Scope string_scope.
Open Scope list_scope.

(** The order in which [_make_plan] appends actions. *)
Definition construction_order : list str :=
  map u [ "do_reset_memory"; "describe_state"; "check_recent_emotion";
          "generate_support_message"; "use_empathy_skill"; "describe_capabilities";
          "ack_search_skill"; "maybe_online_search"; "offer_simple_game";
          "query_llm"; "use_fallback_logic"; "keep_conversation" ].

(** The order in which [_run_plan] tests the plan. *)
Definition execution_order : list str :=
  map u [ "do_reset_memory"; "describe_state"; "generate_support_message";
          "describe_capabilities"; "use_empathy_skill"; "ack_search_skill";
          "maybe_online_search"; "offer_simple_game"; "query_llm";
          "keep_conversation" ].

(** The test [_run_plan] makes for one action: membership in the plan and, for
    [query_llm], a configured client. *)
Definition fires (self : CognitiveCycle) (plan : list str) (a : str) : bool :=
  mem a plan && (negb (str_eqb a (u "query_llm")) || bool_decide (is_Some (client self))).

(** The plan reduced to the one action that decides the response. *)
Definition deciding_action (self : CognitiveCycle) (plan : list str) : list str :=
  match find (fires self plan) execution_order with
  | Some a => [a]
  | None => []
  end.

(** The first action of a plan in a given order. *)
Definition first_in (order plan : list str) : option str :=
  find (fun a => mem a plan) order.

(** The reply of the [keep_conversation] action. *)
Definition recall_reply (last_input : str) : str :=
  u "Мы недавно обсуждали: " ++ quote ++ last_input ++ quote
    ++ u ". Продолжим или сменим тему?".

(** What the [keep_conversation] action finds to recall. *)
Definition recalled (self : CognitiveCycle) : option str :=
  match last (memory self) with
  | Some l => if (3 <? length (input l))%nat then Some (input l) else None
  | None => None
  end.

(** The last step of [_run_plan], taken when no action has fired: the
    rule-based generator, then the fallback. *)
Definition respond_by_rules (text : str) (context : list Message) : M str :=
  generated ← act (fun self =>
                 let '(g, ob) := generate text (Some context) (Some (online_brain self)) in
                 (g, match ob with
                     | Some b => set_online_brain b self
                     | None => self
                     end));
  match generated with
  | Some ((_ :: _) as g) => mret g
  | _ => _fallback_response text
  end.

(** The reply of the [do_reset_memory] action. *)
Definition reset_reply : str := u "Память очищена. Начинаем заново!".

(** The state of a safe turn once the input is in the working memory. *)
Definition perceived (text : str) (self : CognitiveCycle) : CognitiveCycle :=
  set_working_memory
    (last_n 20 (working_memory self ++ [mkMessage (u "user") text]))
    (set_safety (snd (check_input text (safety self)))
       (set_cycle_count (cycle_count self + 1) self)).

(** The state a turn leaves once its plan has produced [response]. *)
Definition learnt (text response : str) (context : list Message)
    (retrieved : list Episode) (intent : str) (goals : list str)
    (self : CognitiveCycle) : CognitiveCycle :=
  snd (_cleanup (snd (_learn text response context retrieved intent goals self))).

(** The episode a turn records. *)
Definition episode_of (text response : str) (self : CognitiveCycle) : Episode :=
  mkEpisode text response
    (last_n 10 (last_n 20 (working_memory self ++ [mkMessage (u "user") text])))
    (last_n 5 (memory self)) (_infer_intent text) (_form_goals (_infer_intent text)).

(** Two states with the same two memories. *)
Definition same_memories (s s' : CognitiveCycle) : Prop :=
  working_memory s' = working_memory s /\ memory s' = memory s.

End WithCollaborators.

End plan_order.

(** ** An offline deployment

    Concrete collaborators: the network is unreachable, the emotion engine
    reports joy, and the safety filter rejects one word. *)

Module offline.

Inductive Emotion : Type := Joy | Sadness | Anger | Interest.

Open Scope string_scope.

#[export] Instance collaborators : Collaborators := {|
  EmotionEngine := unit;
  EmotionType := Emotion;
  JOY := Joy;
  SADNESS := Sadness;
  ANGER := Anger;
  INTEREST := Interest;
  emotion_value := fun e =>
    match e with
    | Joy => u "радость"
    | Sadness => u "грусть"
    | Anger => u "гнев"
    | Interest => u "интерес"
    end;
  EmotionEngine_init := tt;
  apply_stimulus := fun _ _ e => e;
  decay := fun e => e;
  get_dominant_emotion := fun _ => (Joy, 0.5%R);
  get_mood_description := fun _ => u "спокойное";
  SafetySystem := unit;
  SafetySystem_init := tt;
  check_input := fun t s =>
    if contains (lower t) (u "взлом") then ((false, u "Запрос отклонён"), s)
    else ((true, u ""), s);
  OnlineBrain := unit;
  OnlineBrain_init := tt;
  answer := fun _ b =>
    (u "Во время онлайн-поиска произошла ошибка. Давай попробуем сформулировать вопрос иначе?",
     b);
  Client := unit;
  chat_completions_create := fun _ c => (inr (u "Connection error."), c);
  float_repr := fun _ => u "nan";
  format_percent := fun _ => u "50%"
|}.

(** [CognitiveCycle()] *)
Definition fresh : cognitive_cycle.CognitiveCycle :=
  cognitive_cycle.__init__ None None.

End offline.

(** ** [online_brain.py]

    The parts of [OnlineBrain] that do not touch the network: the domain
    filter, the loop of [search_google] over the result blocks of a parsed
    page, and [answer] over the two methods that use the HTTP session. *)

Module online_brain.

Open Scope string_scope.
Open Scope list_scope.

Record SearchResult : Type := mkSearchResult {
  url : str;
  title : str;
  snippet : str
}.

Definition allowed : list str :=
  map u
    [ "github.com"; "stackoverflow.com"; "royallib.com"; "bookscafe.net"; "arxiv.org";
      "researchgate.net"; "edx.org"; "developer.mozilla.org"; "w3schools.com";
      "devdocs.io"; "proofwiki.org"; "mathworld.wolfram.com"; "engineeringtoolbox.com";
      "allaboutcircuits.com" ].

(** [any(domain in url for domain in allowed)] *)
Definition _allowed_domain (url : str) : bool := any_in allowed url.

(** What the loop of [search_google] reads of one [div.g] block of the page:
    the first anchor with an [href] (its stripped text and the [href]), the
    text of the [span.aCOpRe] and the text of the [div.VwiC3b], each when the
    block has one. *)
Record Block : Type := mkBlock {
  anchor : option (str * str);
  span_text : option str;
  div_text : option str
}.

(** The loop of [search_google] over the blocks that are left, with the
    results collected so far. *)
Fixpoint collect (num : Z) (blocks : list Block) (results : list SearchResult)
    : list SearchResult :=
  match blocks with
  | [] => results
  | g :: blocks' =>
    match anchor g with
    | None => collect num blocks' results
    | Some (title, url) =>
      if negb (_allowed_domain url) then collect num blocks' results
      else
        let snippet :=
          match span_text g with
          | Some t => t
          | None => default [] (div_text g)
          end in
        let results' := results ++ [mkSearchResult url title snippet] in
        if (num <=? Z.of_nat (length results'))%Z then results'
        else collect num blocks' results'
    end
  end.

(** The results [search_google] returns for a page with the blocks [blocks]. *)
Definition search_results (num : Z) (blocks : list Block) : list SearchResult :=
  collect num blocks [].

Section WithSession.

(** The HTTP session, and the two methods that send requests through it: each
    returns or raises, and leaves the session in a new state. *)
Context {Session : Type}.
Variable search_google : str -> Session -> outcome (list SearchResult) * Session.
Variable fetch_and_summarize : str -> Session -> outcome (option str) * Session.

Definition search_error : str :=
  u "Во время онлайн-поиска произошла ошибка. Давай попробуем сформулировать вопрос иначе?".

Definition answer (query : str) (session : Session) : str * Session :=
  match search_google query session with
  | (Raise _, session') => (search_error, session')
  | (Ret [], session') =>
    (u "Я попробовал поискать в сети, но ничего полезного не нашёл.", session')
  | (Ret (best :: _), session') =>
    match fetch_and_summarize (url best) session' with
    | (Raise _, session'') => (search_error, session'')
    | (Ret (Some ((_ :: _) as text)), session'') => (text, session'')
    | (Ret _, session'') =>
      (u "Нашёл что-то по запросу: " ++ title best ++ u " (" ++ url best
         ++ u "), но не смог аккуратно извлечь текст.",
       session'')
    end
  end.

End WithSession.

End online_brain.

Module online_props.

Import online_brain.

(** The result a block contributes, when its link passes the filter. *)
Definition block_result (g : Block) : option SearchResult :=
  match anchor g with
  | Some (title, url) =>
    if _allowed_domain url
    then Some (mkSearchResult url title
                 (match span_text g with
                  | Some t => t
                  | None => default [] (div_text g)
                  end))
    else None
  | None => None
  end.

End online_props.

(** ** Vocabulary of the further properties of the skill ledger *)

Module ledger_props.
Import skill_system props.

(** The level of a skill fits its experience: the threshold of the level is
    reached, and no level with a reached threshold is higher. *)
Definition level_fits (s : Skill) : Prop :=
  (XP_THRESHOLDS (level s) <= experience s)%R /\
  forall l, (XP_THRESHOLDS l <= experience s)%R ->
            (level_index l <= level_index (level s))%Z.

(** What is kept for every skill of a ledger grown from a fresh one. *)
Definition skill_ok (k : str) (s : Skill) : Prop :=
  name s = k /\ (0 <= experience s)%R /\ (0 <= uses s)%Z /\ level_fits s.

End ledger_props.

(** ** Vocabulary of the further properties of the analyzer *)

Module analyzer_props.
Import analyzer.

(** The characters of [[а-яёa-z]]. *)
Definition is_word_char (c : char) : Prop :=
  (1072 <= c <= 1103 \/ c = 1105 \/ 97 <= c <= 122)%N.

(** The value [_solve_math] prints for a quotient with a divisor other than
    zero: an [int] when the division is exact, a [float] otherwise. *)
Definition quotient (a b : Z) : pynum :=
  if (a mod b =? 0)%Z then PyInt (a / b) else PyFloat (IZR a / IZR b).

End analyzer_props.

(** ** Vocabulary of the further properties of the orchestrator *)

Module turn_props.
Import analyzer cognitive_cycle plan_order.

Section WithCollaborators.
Context `{Collaborators}.

Open Scope string_scope.
Open Scope list_scope.

(** The intents [_infer_intent] can return. *)
Definition intents : list str :=
  map u [ "status"; "reset"; "ask_capabilities"; "ask_advice"; "seek_support";
          "search_skill"; "want_fun"; "generic_question"; "smalltalk" ].

(** The parts of the orchestrator that plan execution only reads. *)
Definition same_core (s s' : CognitiveCycle) : Prop :=
  api_key s' = api_key s /\ emotion s' = emotion s /\ skills s' = skills s /\
  safety s' = safety s /\ cycle_count s' = cycle_count s /\
  user_profile s' = user_profile s /\ (client s = None -> client s' = None).

(** The plan of a turn, by intent; [has_client] tells whether a client is
    configured. *)
Definition turn_plan (intent : str) (has_client : bool) : list str :=
  if str_eqb intent (u "status") then [u "describe_state"]
  else if str_eqb intent (u "reset") then [u "do_reset_memory"]
  else if str_eqb intent (u "ask_capabilities") then [u "describe_capabilities"]
  else if str_eqb intent (u "ask_advice") then [u "use_fallback_logic"]
  else if str_eqb intent (u "seek_support") then
    [u "check_recent_emotion"; u "generate_support_message"; u "use_empathy_skill"]
  else if str_eqb intent (u "search_skill") then
    [u "ack_search_skill"; u "maybe_online_search"]
  else if str_eqb intent (u "want_fun") then [u "offer_simple_game"]
  else if str_eqb intent (u "generic_question") then
    [if has_client then u "query_llm" else u "use_fallback_logic"]
  else [u "keep_conversation"].

(** The action that decides the reply of a turn, by intent ([None]: the
    rule-based generator and the fallback). *)
Definition turn_action (intent : str) (has_client : bool) : option str :=
  if str_eqb intent (u "status") then Some (u "describe_state")
  else if str_eqb intent (u "reset") then Some (u "do_reset_memory")
  else if str_eqb intent (u "ask_capabilities") then Some (u "describe_capabilities")
  else if str_eqb intent (u "ask_advice") then None
  else if str_eqb intent (u "seek_support") then Some (u "generate_support_message")
  else if str_eqb intent (u "search_skill") then Some (u "ack_search_skill")
  else if str_eqb intent (u "want_fun") then Some (u "offer_simple_game")
  else if str_eqb intent (u "generic_question") then
    (if has_client then Some (u "query_llm") else None)
  else Some (u "keep_conversation").

(** The topic words [_learn] counts. *)
Definition topic_words : list str :=
  map u ["игры"; "работа"; "учёба"; "семья"; "проект"].

(** The reply of the [generate_support_message] action. *)
Definition support_reply (emotion_name : str) : str :=
  u "Слышу, что тебе непросто. Сейчас я ощущаю " ++ emotion_name
    ++ u ". Хочешь рассказать подробнее?".

(** The messages of the request [_generate_llm_response] sends: the system
    prompt, the entries of the context, the input. *)
Definition llm_request (user_input : str) (context : list Message)
    (e : EmotionEngine) : list (str * str) :=
  let '(emo, conf) := get_dominant_emotion e in
  [(u "system",
    u "Ты AI-компаньон. Эмоция: " ++ emotion_value emo ++ u " ("
      ++ format_percent conf ++ u "). Отвечай кратко.")]
  ++ map (fun m => (role m, content m)) context
  ++ [(u "user", user_input)].

(** The reply made of the outcome of the request: the content, or the text of
    the exception. *)
Definition llm_reply (r : str + str) : str :=
  match r with
  | inl text => text
  | inr e => u "Ошибка API: " ++ e
  end.

End WithCollaborators.

Open Scope string_scope.
Open Scope list_scope.

(** The skills [_update_skills] trains. *)
Definition trained_skills : list str :=
  map u ["приветствие"; "поиск_в_интернете"; "эмпатия"].

(** The calls of [use_skill] that [_update_skills] makes for a text, in the
    order it makes them. *)
Definition skill_calls (text : str) : list skill_system.call :=
  let t := lower text in
  (if any_in (map u ["привет"; "пока"; "спасибо"]) t
   then [skill_system.Use (u "приветствие") true None] else [])
  ++ (if any_in (map u ["найди"; "поищи"; "загугли"; "поиск_в_интернете"]) t
      then [skill_system.Use (u "поиск_в_интернете") true None] else [])
  ++ (if any_in (map u ["грустно"; "плохо"; "расстроен"; "одиноко"]) t
      then [skill_system.Use (u "эмпатия") true None] else []).

(** A call the orchestrator makes on its ledger: [use_skill(name)] with the
    defaults for one of the trained skills, or [tick()]. *)
Definition orchestrator_call (c : skill_system.call) : Prop :=
  c = skill_system.Tick 1 \/
  exists nm, nm ∈ trained_skills /\ c = skill_system.Use nm true None.

End turn_props.


(** * Properties of the skill ledger *)

Module skill_facts.

Import skill_system props.
Import (notations) PrimFloat.

#[local] Set Warnings "-inexact-float".

Lemma experience_update_level s : experience (_update_level s) = experience s.
Proof. unfold _update_level. destruct (find _ _); reflexivity. Qed.

Lemma uses_update_level s : uses (_update_level s) = uses s.
Proof. unfold _update_level. destruct (find _ _); reflexivity. Qed.

Lemma xp_gain_spec success n : xp_gain success n = spec_xp success n.
Proof. unfold xp_gain, spec_xp. destruct success; f_equal; f_equal; lra. Qed.

Lemma xp_gain_pos success n : (0 <= n)%Z -> (0 < xp_gain success n)%R.
Proof.
  intros Hn. unfold xp_gain. apply IZR_le in Hn.
  assert (1 <= Rmin (1.0 + IZR n * 0.01) 2.0)%R.
  { apply Rmin_glb; lra. }
  destruct success; nra.
Qed.

(** The skill stored under [nm] after [use_skill]. *)
Lemma use_skill_lookup nm success cycle sys :
  skills (snd (use_skill nm success cycle sys)) !! nm =
  Some (_update_level
          (mkSkill (name (prior_skill nm sys)) (category (prior_skill nm sys))
             (experience (prior_skill nm sys) + xp_gain success (uses (prior_skill nm sys)))%R
             (level (prior_skill nm sys)) (uses (prior_skill nm sys) + 1)%Z
             (tags (prior_skill nm sys))
             (match cycle with Some c => c | None => current_cycle sys end))).
Proof.
  unfold use_skill, prior_skill. simpl.
  destruct (skills sys !! nm) as [s|] eqn:E; simpl.
  - rewrite lookup_insert_eq, E. reflexivity.
  - rewrite !lookup_insert_eq. reflexivity.
Qed.

Lemma use_skill_lookup_ne nm success cycle sys k :
  k <> nm -> skills (snd (use_skill nm success cycle sys)) !! k = skills sys !! k.
Proof.
  intros Hk. unfold use_skill. simpl.
  destruct (skills sys !! nm) as [s|] eqn:E; simpl;
    rewrite ?lookup_insert_ne by congruence; reflexivity.
Qed.

Lemma use_skill_xp nm success cycle sys :
  fst (use_skill nm success cycle sys) = xp_gain success (uses (prior_skill nm sys)).
Proof.
  unfold use_skill, prior_skill. simpl.
  destruct (skills sys !! nm) as [s|] eqn:E; simpl.
  - rewrite E. reflexivity.
  - rewrite lookup_insert_eq. reflexivity.
Qed.

Lemma use_skill_total nm success cycle sys :
  total_experience (snd (use_skill nm success cycle sys)) =
  (total_experience sys + xp_gain success (uses (prior_skill nm sys)))%R.
Proof.
  unfold use_skill, prior_skill. simpl.
  destruct (skills sys !! nm) as [s|] eqn:E; simpl.
  - rewrite E. reflexivity.
  - rewrite lookup_insert_eq. reflexivity.
Qed.

Lemma init_lookup k s :
  skills init !! k = Some s -> experience s = 0%R /\ uses s = 0%Z /\ last_used_cycle s = 0%Z.
Proof.
  unfold init, _init_default_skills, defaults. simpl.
  rewrite !lookup_insert.
  repeat case_decide; try (intros [= <-]; simpl; auto).
  all: rewrite lookup_empty; discriminate.
Qed.

Lemma uses_nonneg_init : uses_nonneg init.
Proof. intros k s Hk. apply init_lookup in Hk. lia. Qed.

Lemma tick_lookup n sys k :
  skills (tick n sys) !! k =
  tick_skill n (current_cycle sys + n) (0.5 * IZR n) (size (skills sys)) <$> skills sys !! k.
Proof. unfold tick. simpl. apply lookup_fmap. Qed.

Lemma uses_tick_skill a b c d s : uses (tick_skill a b c d s) = uses s.
Proof. unfold tick_skill. rewrite uses_update_level. reflexivity. Qed.

Lemma uses_nonneg_call c sys : uses_nonneg sys -> uses_nonneg (run_call c sys).
Proof.
  intros Hs k s. destruct c as [nm success cycle|n]; unfold run_call.
  - destruct (decide (k = nm)) as [->|Hk].
    + rewrite use_skill_lookup. intros [= <-]. rewrite uses_update_level. simpl.
      unfold prior_skill. destruct (skills sys !! nm) eqn:E; simpl.
      * apply Hs in E. lia.
      * lia.
    + rewrite use_skill_lookup_ne by assumption. apply Hs.
  - rewrite tick_lookup. destruct (skills sys !! k) eqn:E; simpl; [|discriminate].
    intros [= <-]. rewrite uses_tick_skill. eapply Hs; eassumption.
Qed.

Lemma run_calls_app cs cs' sys : run_calls (cs ++ cs') sys = run_calls cs' (run_calls cs sys).
Proof. unfold run_calls. apply fold_left_app. Qed.

Lemma run_calls_snoc cs c sys : run_calls (cs ++ [c]) sys = run_call c (run_calls cs sys).
Proof. rewrite run_calls_app. reflexivity. Qed.

Lemma uses_nonneg_calls cs : uses_nonneg (run_calls cs init).
Proof.
  induction cs as [|c cs IH] using rev_ind.
  - apply uses_nonneg_init.
  - rewrite run_calls_snoc. apply uses_nonneg_call, IH.
Qed.

Lemma experience_of_use_skill nm success cycle sys :
  experience_of nm (snd (use_skill nm success cycle sys)) =
  (experience_of nm sys + xp_gain success (uses (prior_skill nm sys)))%R.
Proof.
  unfold experience_of at 1. unfold prior_skill at 1.
  rewrite use_skill_lookup. simpl. rewrite experience_update_level. reflexivity.
Qed.

(** C7.  [use_skill] returns the XP [baseXP * min(1 + 0.01 * priorUses, 2.0)]
    (base 10 on success, 3 on failure, [priorUses] the uses before the call)
    and raises the experience of the skill by exactly that amount, on every
    ledger and for a name the ledger does not know yet as well; on every
    ledger grown from a fresh one by any calls, the experience of the skill
    after [use_skill] is at least its experience before. *)
Theorem use_skill_grants_xp (nm : str) (success : bool) (cycle : option Z) :
  (forall sys : SkillSystem,
      fst (use_skill nm success cycle sys) = spec_xp success (uses (prior_skill nm sys)) /\
      experience_of nm (snd (use_skill nm success cycle sys)) =
        (experience_of nm sys + spec_xp success (uses (prior_skill nm sys)))%R) /\
  (forall cs : list call,
      (experience_of nm (run_calls cs init)
       <= experience_of nm (snd (use_skill nm success cycle (run_calls cs init))))%R).
Proof.
  split.
  - intros sys. rewrite use_skill_xp, experience_of_use_skill, xp_gain_spec. auto.
  - intros cs. rewrite experience_of_use_skill.
    assert (0 <= uses (prior_skill nm (run_calls cs init)))%Z as Hu.
    { unfold prior_skill. destruct (skills _ !! nm) eqn:E; simpl; [|lia].
      eapply uses_nonneg_calls; eassumption. }
    pose proof (xp_gain_pos success _ Hu). lra.
Qed.

Lemma experience_tick_skill n cur p k s :
  experience (tick_skill n cur p k s) =
  let e1 := (experience s + p / IZR (Z.max (Z.of_nat k) 1))%R in
  if bool_decide (50 < cur - last_used_cycle s)%Z && bool_decide (0 < e1)%R
  then Rmax 0 (e1 - e1 * 0.001 * IZR n) else e1.
Proof.
  unfold tick_skill. rewrite experience_update_level. simpl.
  destruct (_ && _); [f_equal; lra | reflexivity].
Qed.

(** What [tick] does to the experience of one skill. *)
Lemma tick_skill_bounds n cur p k s :
  (0 <= n)%Z ->
  let e1 := (experience s + p / IZR (Z.max (Z.of_nat k) 1))%R in
  (experience (tick_skill n cur p k s) <= e1)%R /\
  ((experience (tick_skill n cur p k s) < e1)%R -> (50 < cur - last_used_cycle s)%Z) /\
  ((0 <= e1)%R -> (0 <= experience (tick_skill n cur p k s))%R).
Proof.
  intros Hn e1. rewrite experience_tick_skill. fold e1. apply IZR_le in Hn.
  destruct (bool_decide (50 < cur - last_used_cycle s)%Z) eqn:Hd; simpl.
  - apply bool_decide_eq_true in Hd.
    destruct (bool_decide (0 < e1)%R) eqn:He.
    + apply bool_decide_eq_true in He.
      repeat split; auto.
      * apply Rmax_lub; nra.
      * intros _. apply Rmax_l.
    + repeat split; auto; lra.
  - repeat split; auto; lra.
Qed.

Lemma max_size k : (0 < k)%nat -> IZR (Z.max (Z.of_nat k) 1) = INR k.
Proof. intros Hk. rewrite Z.max_l by lia. symmetry. apply INR_IZR_INZ. Qed.

Lemma size_pos_lookup (m : gmap str Skill) k s : m !! k = Some s -> (0 < size m)%nat.
Proof.
  intros Hk. destruct (size m) eqn:E; [|lia].
  apply map_size_empty_inv in E. subst m. rewrite lookup_empty in Hk. discriminate.
Qed.

Lemma last_used_cycle_update_level s : last_used_cycle (_update_level s) = last_used_cycle s.
Proof. unfold _update_level. destruct (find _ _); reflexivity. Qed.

Lemma last_used_cycle_tick_skill a b c d s :
  last_used_cycle (tick_skill a b c d s) = last_used_cycle s.
Proof. unfold tick_skill. rewrite last_used_cycle_update_level. reflexivity. Qed.

(** The entry of a skill the ledger holds is the skill [use_skill] finds. *)
Lemma prior_skill_lookup nm sys :
  is_Some (skills sys !! nm) -> skills sys !! nm = Some (prior_skill nm sys).
Proof. intros [s Hs]. unfold prior_skill. rewrite Hs. reflexivity. Qed.

Lemma init_size : size (skills init) = 5%nat.
Proof. vm_compute. reflexivity. Qed.

Lemma init_empathy :
  skills init !! u "эмпатия" = Some (new_Skill (u "эмпатия") (u "общение") [u "emotional"]).
Proof. vm_compute. reflexivity. Qed.

(** C8.  For a skill of the ledger and [tick(n)] with [n >= 0]: the
    experience after the tick is at most the experience before plus the
    passive share [0.5 * n / number of skills]; it is below that sum only
    when the dormancy (the advanced cycle counter minus [last_used_cycle])
    exceeds 50; and an experience that was not negative before the tick is
    not negative after it. *)
Theorem tick_experience_bounds (sys : SkillSystem) (n : Z) (nm : str) (skill : Skill) :
  skills sys !! nm = Some skill ->
  (0 <= n)%Z ->
  exists skill',
    skills (tick n sys) !! nm = Some skill' /\
    (experience skill' <= experience skill + passive_share n sys)%R /\
    ((experience skill' < experience skill + passive_share n sys)%R ->
     (50 < current_cycle (tick n sys) - last_used_cycle skill)%Z) /\
    ((0 <= experience skill)%R -> (0 <= experience skill')%R).
Proof.
  intros Hk Hn. eexists. rewrite tick_lookup, Hk. split; [reflexivity|].
  pose proof (size_pos_lookup _ _ _ Hk) as Hsz.
  pose proof (tick_skill_bounds n (current_cycle sys + n) (0.5 * IZR n)
                (size (skills sys)) skill Hn) as Hb.
  simpl in Hb. rewrite max_size in Hb by assumption.
  unfold passive_share. simpl. destruct Hb as (H1 & H2 & H3).
  split; [exact H1|]. split; [exact H2|].
  intros He. apply H3.
  assert (0 < INR (size (skills sys)))%R by (apply lt_0_INR; lia).
  apply IZR_le in Hn.
  assert (0 <= 0.5 * IZR n / INR (size (skills sys)))%R.
  { unfold Rdiv. apply Rmult_le_pos; [lra|]. left. apply Rinv_0_lt_compat. lra. }
  lra.
Qed.

(** On a ledger where the skill has been used once and then left alone for 51
    cycles, the next [tick()] finds it dormant. *)
Lemma tick_experience_bounds_witness :
  (50 < current_cycle (tick 1 (run_calls [Use (u "эмпатия") true None; Tick 51] init))
        - last_used_cycle
            (prior_skill (u "эмпатия")
               (run_calls [Use (u "эмпатия") true None; Tick 51] init)))%Z /\
  exists skill',
    skills (tick 1 (run_calls [Use (u "эмпатия") true None; Tick 51] init)) !! u "эмпатия"
      = Some skill' /\
    (experience skill'
     <= experience (prior_skill (u "эмпатия")
                      (run_calls [Use (u "эмпатия") true None; Tick 51] init))
        + passive_share 1 (run_calls [Use (u "эмпатия") true None; Tick 51] init))%R /\
    ((experience skill'
      < experience (prior_skill (u "эмпатия")
                      (run_calls [Use (u "эмпатия") true None; Tick 51] init))
        + passive_share 1 (run_calls [Use (u "эмпатия") true None; Tick 51] init))%R ->
     (50 < current_cycle (tick 1 (run_calls [Use (u "эмпатия") true None; Tick 51] init))
           - last_used_cycle
               (prior_skill (u "эмпатия")
                  (run_calls [Use (u "эмпатия") true None; Tick 51] init)))%Z) /\
    ((0 <= experience (prior_skill (u "эмпатия")
                         (run_calls [Use (u "эмпатия") true None; Tick 51] init)))%R ->
     (0 <= experience skill')%R).
Proof.
  assert (skills (run_calls [Use (u "эмпатия") true None; Tick 51] init) !! u "эмпатия"
          = Some (prior_skill (u "эмпатия")
                    (run_calls [Use (u "эмпатия") true None; Tick 51] init))) as Hk.
  { apply prior_skill_lookup. unfold run_calls. cbn [fold_left run_call].
    rewrite tick_lookup, use_skill_lookup. eexists. reflexivity. }
  split.
  - unfold prior_skill. unfold run_calls. cbn [fold_left run_call].
    rewrite tick_lookup, use_skill_lookup. cbn [fmap option_fmap option_map default from_option Datatypes.id].
    rewrite last_used_cycle_tick_skill, last_used_cycle_update_level.
    cbn [last_used_cycle tick current_cycle use_skill snd init]. lia.
  - apply (tick_experience_bounds
             (run_calls [Use (u "эмпатия") true None; Tick 51] init) 1 (u "эмпатия")
             (prior_skill (u "эмпатия")
                (run_calls [Use (u "эмпатия") true None; Tick 51] init)) Hk).
    lia.
Defined.

(** [tick(-1)] on a fresh ledger takes the share [0.1] from every skill: the
    experience of each becomes negative, in exact arithmetic and in binary64
    alike. *)
Lemma tick_experience_bounds_counterexample :
  exists skill',
    skills (tick (-1) init) !! u "эмпатия" = Some skill' /\
    experience skill' = (-0.1)%R /\
    (experience skill' < 0)%R /\
    binary64.experience_of (u "эмпатия") (snd (binary64.tick (-1) binary64.init))
      = (-0.1)%float.
Proof.
  eexists. rewrite tick_lookup, init_empathy. split; [reflexivity|].
  rewrite experience_tick_skill. cbv zeta. rewrite init_size.
  cbn [new_Skill experience last_used_cycle init current_cycle].
  rewrite bool_decide_eq_false_2 by lia. cbn [andb].
  replace (Z.max (Z.of_nat 5) 1) with 5%Z by reflexivity.
  split; [lra|]. split; [lra|]. vm_compute. reflexivity.
Qed.

Section Sums.
Implicit Types m : gmap str Skill.

Lemma sum_experience_empty : sum_experience ∅ = 0%R.
Proof. unfold sum_experience. apply map_fold_empty. Qed.

Lemma sum_experience_insert_None m i x :
  m !! i = None -> sum_experience (<[i:=x]> m) = (experience x + sum_experience m)%R.
Proof.
  intros Hi. unfold sum_experience.
  rewrite (map_fold_insert_L (fun _ s acc => (experience s + acc)%R)); [reflexivity| |assumption].
  intros. lra.
Qed.

Lemma sum_experience_delete m i y :
  m !! i = Some y -> sum_experience m = (experience y + sum_experience (delete i m))%R.
Proof.
  intros Hi. unfold sum_experience.
  rewrite (map_fold_delete_L (fun _ s acc => (experience s + acc)%R) 0%R i y m);
    [reflexivity| |assumption].
  intros. lra.
Qed.

Lemma sum_experience_insert_Some m i x y :
  m !! i = Some y ->
  sum_experience (<[i:=x]> m) = (sum_experience m - experience y + experience x)%R.
Proof.
  intros Hi. rewrite <- insert_delete_eq.
  rewrite sum_experience_insert_None by apply lookup_delete_eq.
  rewrite (sum_experience_delete m i y Hi). lra.
Qed.

Lemma sum_experience_fmap_le (f : Skill -> Skill) (c : R) m :
  (forall s, (experience (f s) <= experience s + c)%R) ->
  (sum_experience (f <$> m) <= sum_experience m + INR (size m) * c)%R.
Proof.
  intros Hf. induction m as [|i x m Hi IH] using map_ind.
  - rewrite fmap_empty, sum_experience_empty, map_size_empty. simpl. lra.
  - rewrite fmap_insert.
    rewrite !sum_experience_insert_None by (rewrite ?lookup_fmap, ?Hi; reflexivity).
    rewrite map_size_insert_None by assumption. rewrite S_INR.
    specialize (Hf x). lra.
Qed.

End Sums.

Lemma sum_experience_use_skill nm success cycle sys :
  sum_experience (skills (snd (use_skill nm success cycle sys))) =
  (sum_experience (skills sys) + xp_gain success (uses (prior_skill nm sys)))%R.
Proof.
  unfold use_skill, prior_skill. simpl.
  destruct (skills sys !! nm) as [s|] eqn:E; simpl.
  - rewrite E. simpl. rewrite (sum_experience_insert_Some _ _ _ s E).
    rewrite experience_update_level. simpl. lra.
  - rewrite lookup_insert_eq. simpl. rewrite insert_insert_eq.
    rewrite sum_experience_insert_None by assumption.
    rewrite experience_update_level. simpl. lra.
Qed.

Lemma sum_experience_tick n sys :
  (0 <= n)%Z ->
  (sum_experience (skills (tick n sys)) <= sum_experience (skills sys) + 0.5 * IZR n)%R.
Proof.
  intros Hn. unfold tick. simpl.
  set (k := size (skills sys)).
  set (c := (0.5 * IZR n / IZR (Z.max (Z.of_nat k) 1))%R).
  pose proof (sum_experience_fmap_le
                (tick_skill n (current_cycle sys + n) (0.5 * IZR n) k) c (skills sys)) as Hle.
  fold k in Hle.
  assert (INR k * c <= 0.5 * IZR n)%R as Hc.
  { apply IZR_le in Hn. destruct k as [|k'] eqn:Ek.
    - simpl. lra.
    - unfold c. rewrite max_size by lia.
      assert (0 < INR (S k'))%R by (apply lt_0_INR; lia).
      right. field. lra. }
  etransitivity; [apply Hle|lra].
  intros s. apply (tick_skill_bounds n _ _ k s Hn).
Qed.

Lemma tick_total n sys :
  total_experience (tick n sys) = (total_experience sys + 0.5 * IZR n)%R.
Proof. reflexivity. Qed.

(** *** The ledger in binary64 *)

Lemma b64_experience_update_level s :
  binary64.experience (binary64._update_level s) = binary64.experience s.
Proof. unfold binary64._update_level. destruct (find _ _); reflexivity. Qed.

(** [use_skill] adds the XP it returns to the skill and to the total. *)
Lemma b64_use_skill_adds nm success cycle sys xp sys' :
  binary64.use_skill nm success cycle sys = (Ret xp, sys') ->
  binary64.total_experience sys' = (binary64.total_experience sys + xp)%float /\
  binary64.experience_of nm sys' = (binary64.experience_of nm sys + xp)%float.
Proof.
  unfold binary64.use_skill, binary64.experience_of.
  destruct (binary64.float_of_int _) as [n|e]; [|discriminate].
  intros [= <- <-]. cbn [binary64.total_experience binary64.skills].
  split; [reflexivity|].
  rewrite lookup_insert_eq, b64_experience_update_level. cbn [binary64.experience].
  destruct (binary64.skills sys !! nm) as [s|] eqn:E.
  - rewrite E. reflexivity.
  - rewrite lookup_insert_eq. reflexivity.
Qed.

(** [tick] adds [0.5 * cycles] to the total and the share of it to every
    skill; the decay is taken from a skill only. *)
Lemma b64_tick_adds n sys sys' :
  binary64.tick n sys = (Ret tt, sys') ->
  exists c k : PrimFloat.float,
    binary64.float_of_int n = Ret c /\
    binary64.float_of_int (Z.max (Z.of_nat (size (binary64.skills sys))) 1) = Ret k /\
    binary64.total_experience sys' = (binary64.total_experience sys + 0.5 * c)%float /\
    forall nm s,
      binary64.skills sys !! nm = Some s ->
      exists s',
        binary64.skills sys' !! nm = Some s' /\
        (binary64.experience s' = (binary64.experience s + 0.5 * c / k)%float \/
         (50 < binary64.current_cycle sys + n - binary64.last_used_cycle s)%Z /\
         binary64.experience s' =
           binary64.max 0
             (binary64.experience s + 0.5 * c / k
              - (binary64.experience s + 0.5 * c / k) * 0.001 * c)%float).
Proof.
  unfold binary64.tick.
  destruct (binary64.float_of_int n) as [c|e]; [|discriminate].
  destruct (binary64.float_of_int (Z.max _ 1)) as [k|e]; [|discriminate].
  intros [= <-]. exists c, k. split; [reflexivity|]. split; [reflexivity|].
  cbn [binary64.total_experience binary64.skills]. split; [reflexivity|].
  intros nm s Hs. eexists. rewrite lookup_fmap, Hs. split; [reflexivity|].
  unfold binary64.tick_skill. rewrite b64_experience_update_level.
  cbn [binary64.experience binary64.set_experience].
  destruct (bool_decide (50 < _)%Z) eqn:Hd; cbn [andb]; [|left; reflexivity].
  apply bool_decide_eq_true in Hd.
  destruct (PrimFloat.ltb _ _); [right; split; [exact Hd|reflexivity]|left; reflexivity].
Qed.

(** C10.  In exact arithmetic, on a fresh ledger and after any sequence of
    [use_skill] and [tick(n)] calls with [n >= 0], [total_experience] is at
    least the sum of the experience of all skills.  The updates behind it are
    those of the code in binary64 as well: [use_skill] adds the XP it returns
    to the skill and to [total_experience]; [tick(n)] adds [0.5 * n] to
    [total_experience] and the share [0.5 * n / len(skills)] to every skill,
    and takes the decay from a skill that has been dormant for more than 50
    cycles only, never from [total_experience]. *)
Theorem total_experience_dominates :
  (forall cs : list call,
      Forall forward cs ->
      (sum_experience (skills (run_calls cs init))
       <= total_experience (run_calls cs init))%R) /\
  (forall nm success cycle sys xp sys',
      binary64.use_skill nm success cycle sys = (Ret xp, sys') ->
      binary64.total_experience sys' = (binary64.total_experience sys + xp)%float /\
      binary64.experience_of nm sys' = (binary64.experience_of nm sys + xp)%float) /\
  (forall n sys sys',
      binary64.tick n sys = (Ret tt, sys') ->
      exists c k : PrimFloat.float,
        binary64.float_of_int n = Ret c /\
        binary64.float_of_int (Z.max (Z.of_nat (size (binary64.skills sys))) 1) = Ret k /\
        binary64.total_experience sys' = (binary64.total_experience sys + 0.5 * c)%float /\
        forall nm s,
          binary64.skills sys !! nm = Some s ->
          exists s',
            binary64.skills sys' !! nm = Some s' /\
            (binary64.experience s' = (binary64.experience s + 0.5 * c / k)%float \/
             (50 < binary64.current_cycle sys + n - binary64.last_used_cycle s)%Z /\
             binary64.experience s' =
               binary64.max 0
                 (binary64.experience s + 0.5 * c / k
                  - (binary64.experience s + 0.5 * c / k) * 0.001 * c)%float)).
Proof.
  split; [|split].
  - intros cs. induction cs as [|c cs IH] using rev_ind; intros Hcs.
    + unfold run_calls. simpl. unfold init, _init_default_skills, defaults. simpl.
      repeat (rewrite sum_experience_insert_None; [|vm_compute; reflexivity]).
      rewrite sum_experience_empty. unfold new_Skill. cbn [experience]. lra.
    + apply Forall_app in Hcs as [Hcs Hc]. apply Forall_inv in Hc.
      specialize (IH Hcs). rewrite run_calls_snoc.
      destruct c as [nm success cycle|n]; unfold run_call.
      * rewrite sum_experience_use_skill, use_skill_total. lra.
      * pose proof (sum_experience_tick n (run_calls cs init) Hc).
        rewrite tick_total. lra.
  - apply b64_use_skill_adds.
  - apply b64_tick_adds.
Qed.

Lemma total_experience_dominates_witness :
  (sum_experience (skills (run_calls [Use (u "эмпатия") true None; Tick 60] init))
   <= total_experience (run_calls [Use (u "эмпатия") true None; Tick 60] init))%R.
Proof.
  apply (proj1 total_experience_dominates [Use (u "эмпатия") true None; Tick 60]).
  constructor; [exact I|]. constructor; [cbn [forward]; lia|constructor].
Defined.

(** In binary64 the inequality fails.  After three calls of [tick()] each of
    the five skills holds [0.30000000000000004], and their exact sum is above
    the total [1.5].  With a negative number of cycles it fails by more than
    rounding: a skill last used at cycle [-100] gains the decay of [tick(-1)]. *)
Lemma total_experience_dominates_counterexample :
  (fst (binary64.run_calls [Tick 1; Tick 1; Tick 1] binary64.init) = Ret tt /\
   binary64.total_experience
     (snd (binary64.run_calls [Tick 1; Tick 1; Tick 1] binary64.init)) = 1.5%float /\
   Forall (fun '(nm, _, _) =>
             binary64.experience_of nm
               (snd (binary64.run_calls [Tick 1; Tick 1; Tick 1] binary64.init))
             = 0.30000000000000004%float)
          defaults /\
   QArith_base.Qlt
     (binary64.exact
        (binary64.total_experience
           (snd (binary64.run_calls [Tick 1; Tick 1; Tick 1] binary64.init))))
     (binary64.sum_experience
        (binary64.skills
           (snd (binary64.run_calls [Tick 1; Tick 1; Tick 1] binary64.init))))) /\
  (fst (binary64.run_calls [Use (u "эмпатия") true (Some (-100)%Z); Tick (-1)] binary64.init)
     = Ret tt /\
   QArith_base.Qlt
     (binary64.exact
        (binary64.total_experience
           (snd (binary64.run_calls [Use (u "эмпатия") true (Some (-100)%Z); Tick (-1)]
                   binary64.init))))
     (binary64.sum_experience
        (binary64.skills
           (snd (binary64.run_calls [Use (u "эмпатия") true (Some (-100)%Z); Tick (-1)]
                   binary64.init))))).
Proof.
  split; [split; [|split; [|split]]|split].
  - vm_compute. reflexivity.
  - vm_compute. reflexivity.
  - unfold defaults. repeat (constructor; [vm_compute; reflexivity|]). constructor.
  - vm_compute. reflexivity.
  - vm_compute. reflexivity.
  - vm_compute. reflexivity.
Qed.

(** Lifetime experience on a ledger grown by forward calls. *)
Lemma total_experience_call c sys :
  uses_nonneg sys -> forward c ->
  (total_experience sys <= total_experience (run_call c sys))%R.
Proof.
  intros Hu Hc. destruct c as [nm success cycle|n]; unfold run_call.
  - rewrite use_skill_total.
    assert (0 <= uses (prior_skill nm sys))%Z as H0.
    { unfold prior_skill. destruct (skills sys !! nm) eqn:E; simpl; [|lia].
      eapply Hu; eassumption. }
    pose proof (xp_gain_pos success _ H0). lra.
  - rewrite tick_total. simpl in Hc. apply IZR_le in Hc. lra.
Qed.

Lemma total_experience_calls cs cs' :
  Forall forward cs' ->
  (total_experience (run_calls cs init) <= total_experience (run_calls (cs ++ cs') init))%R.
Proof.
  induction cs' as [|c cs' IH] using rev_ind; intros Hcs.
  - rewrite app_nil_r. lra.
  - apply Forall_app in Hcs as [Hcs Hc]. apply Forall_inv in Hc.
    rewrite app_assoc, run_calls_snoc.
    etransitivity; [apply IH, Hcs|].
    apply total_experience_call; [apply uses_nonneg_calls|assumption].
Qed.

Lemma total_experience_nonneg cs :
  Forall forward cs -> (0 <= total_experience (run_calls cs init))%R.
Proof.
  intros Hcs. pose proof (total_experience_calls [] cs Hcs) as Hle.
  unfold run_calls at 1 in Hle. simpl in Hle. exact Hle.
Qed.

Lemma Int_part_le x y : (x <= y)%R -> (Int_part x <= Int_part y)%Z.
Proof.
  intros Hxy.
  destruct (base_Int_part x) as [Hx1 Hx2], (base_Int_part y) as [Hy1 Hy2].
  assert (IZR (Int_part x) < IZR (Int_part y + 1))%R as Hlt.
  { rewrite plus_IZR. lra. }
  apply lt_IZR in Hlt. lia.
Qed.

Lemma ln_10_pos : (0 < ln 10)%R.
Proof. rewrite <- ln_1. apply ln_increasing; lra. Qed.

Lemma ln_le x y : (0 < x)%R -> (x <= y)%R -> (ln x <= ln y)%R.
Proof.
  intros Hx [Hlt| ->]; [|lra]. left. apply ln_increasing; assumption.
Qed.

Lemma scaled_log_le a b : (0 <= a)%R -> (a <= b)%R -> (scaled_log a <= scaled_log b)%R.
Proof.
  intros Ha Hab. unfold scaled_log.
  assert (ln (a + 1) <= ln (b + 1))%R by (apply ln_le; lra).
  pose proof ln_10_pos.
  apply Rmult_le_compat_r; [lra|].
  apply Rmult_le_compat_r; [|assumption].
  left. apply Rinv_0_lt_compat. assumption.
Qed.

Lemma scaled_log_nonneg a : (0 <= a)%R -> (0 <= scaled_log a)%R.
Proof.
  intros Ha. pose proof (scaled_log_le 0 a (Rle_refl 0) Ha) as Hle.
  unfold scaled_log at 1 in Hle. replace (0 + 1)%R with 1%R in Hle by lra.
  rewrite ln_1 in Hle. unfold Rdiv in Hle. rewrite !Rmult_0_l in Hle. exact Hle.
Qed.

Lemma get_total_level_spec sys :
  (0 <= total_experience sys)%R ->
  get_total_level sys = Ret (spec_total_level (total_experience sys)).
Proof.
  intros Ht. unfold get_total_level, log10, spec_total_level, floor, int_of_float.
  rewrite (bool_decide_eq_true_2 (0 < total_experience sys + 1)%R) by lra.
  rewrite bool_decide_eq_true_2 by (apply (scaled_log_nonneg _ Ht)).
  reflexivity.
Qed.

Lemma spec_total_level_le a b :
  (0 <= a)%R -> (a <= b)%R -> (spec_total_level a <= spec_total_level b)%Z.
Proof.
  intros Ha Hab. unfold spec_total_level, floor.
  pose proof (Int_part_le _ _ (scaled_log_le a b Ha Hab)) as Hle.
  unfold scaled_log in Hle. lia.
Qed.

Lemma floor_eq_iff (x : R) (z : Z) :
  floor x = z <-> (IZR z <= x < IZR z + 1)%R.
Proof.
  unfold floor. split.
  - intros <-. destruct (base_Int_part x). lra.
  - intros Hz. symmetry. apply Int_part_spec. lra.
Qed.

Lemma ln_le_iff a b : (0 < a)%R -> (0 < b)%R -> (ln a <= ln b)%R <-> (a <= b)%R.
Proof.
  intros Ha Hb. split.
  - intros Hl. destruct (Rle_or_lt a b) as [|Hlt]; [assumption|].
    pose proof (ln_increasing b a Hb Hlt). lra.
  - apply ln_le. assumption.
Qed.

Lemma ln_lt_iff a b : (0 < a)%R -> (0 < b)%R -> (ln a < ln b)%R <-> (a < b)%R.
Proof.
  intros Ha Hb. split.
  - apply ln_lt_inv; assumption.
  - apply ln_increasing. assumption.
Qed.

Lemma scaled_log_bounds (total : R) (k : nat) :
  (0 <= total)%R ->
  (IZR (Z.of_nat k) <= scaled_log total < IZR (Z.of_nat k) + 1)%R <->
  (10 ^ k <= (total + 1) ^ 2 < 10 ^ (k + 1))%R.
Proof.
  intros Ht. pose proof ln_10_pos as HL.
  assert (0 < total + 1)%R as Hy by lra.
  assert (0 < (total + 1) ^ 2)%R as Hy2 by (apply pow_lt; assumption).
  assert (0 < 10 ^ k)%R as Hk by (apply pow_lt; lra).
  assert (0 < 10 ^ (k + 1))%R as Hk1 by (apply pow_lt; lra).
  rewrite <- (ln_le_iff _ _ Hk Hy2), <- (ln_lt_iff _ _ Hy2 Hk1).
  rewrite !ln_pow by lra. rewrite <- INR_IZR_INZ.
  replace (INR (k + 1)) with (INR k + 1)%R by (rewrite plus_INR; reflexivity).
  replace (INR 2) with 2%R by reflexivity.
  unfold scaled_log.
  assert (ln (total + 1) / ln 10 * 2 = 2 * ln (total + 1) * / ln 10)%R as -> by (field; lra).
  assert (forall a b, (a <= b * / ln 10)%R <-> (a * ln 10 <= b)%R) as Hle.
  { intros a b. split; intros Hab.
    - apply (Rmult_le_compat_r (ln 10)) in Hab; [|lra].
      replace (b * / ln 10 * ln 10)%R with b in Hab by (field; lra). exact Hab.
    - apply (Rmult_le_compat_r (/ ln 10)) in Hab;
        [|left; apply Rinv_0_lt_compat; assumption].
      replace (a * ln 10 * / ln 10)%R with a in Hab by (field; lra). exact Hab. }
  assert (forall a b, (b * / ln 10 < a)%R <-> (b < a * ln 10)%R) as Hlt.
  { intros a b. split; intros Hab.
    - apply (Rmult_lt_compat_r (ln 10)) in Hab; [|lra].
      replace (b * / ln 10 * ln 10)%R with b in Hab by (field; lra). exact Hab.
    - apply (Rmult_lt_compat_r (/ ln 10)) in Hab;
        [|apply Rinv_0_lt_compat; assumption].
      replace (a * ln 10 * / ln 10)%R with a in Hab by (field; lra). exact Hab. }
  rewrite Hle, Hlt. reflexivity.
Qed.

(** The total level by the powers of 10 around [(total + 1)^2]. *)
Lemma get_total_level_at (sys : SkillSystem) (k : nat) :
  (0 <= total_experience sys)%R ->
  (10 ^ k <= (total_experience sys + 1) ^ 2 < 10 ^ (k + 1))%R ->
  get_total_level sys = Ret (Z.of_nat k + 1)%Z.
Proof.
  intros Ht Hk. rewrite (get_total_level_spec _ Ht). f_equal.
  apply (scaled_log_bounds _ k Ht) in Hk. apply floor_eq_iff in Hk.
  unfold spec_total_level. unfold scaled_log in Hk. rewrite Hk. reflexivity.
Qed.

Lemma spec_total_level_pos a : (0 <= a)%R -> (1 <= spec_total_level a)%Z.
Proof.
  intros Ha. pose proof (spec_total_level_le 0 a (Rle_refl 0) Ha) as Hle.
  assert (spec_total_level 0 = 1%Z) as H0.
  { unfold spec_total_level. replace (0 + 1)%R with 1%R by lra.
    rewrite ln_1. unfold Rdiv. rewrite !Rmult_0_l.
    assert (floor 0 = 0%Z) as -> by (apply floor_eq_iff; simpl; lra). reflexivity. }
  lia.
Qed.

(** C9.  On a ledger grown from a fresh one by calls [cs] of [use_skill] and
    [tick(n)], [n >= 0], any further such calls [cs'] do not lower
    [total_experience]; [get_total_level] returns before and after them, a
    level of at least 1, and the level after them is at least the level
    before. *)
Theorem total_level_monotone (cs cs' : list call) :
  Forall forward cs -> Forall forward cs' ->
  (total_experience (run_calls cs init)
   <= total_experience (run_calls (cs ++ cs') init))%R /\
  exists l l' : Z,
    get_total_level (run_calls cs init) = Ret l /\
    get_total_level (run_calls (cs ++ cs') init) = Ret l' /\
    (1 <= l <= l')%Z.
Proof.
  intros Hcs Hcs'.
  pose proof (total_experience_nonneg cs Hcs) as H0.
  pose proof (total_experience_calls cs cs' Hcs') as Hle.
  split; [exact Hle|].
  exists (spec_total_level (total_experience (run_calls cs init))),
         (spec_total_level (total_experience (run_calls (cs ++ cs') init))).
  split; [apply get_total_level_spec; exact H0|].
  split; [apply get_total_level_spec; lra|].
  split; [apply spec_total_level_pos; exact H0|].
  apply spec_total_level_le; assumption.
Qed.

Lemma total_level_monotone_witness :
  (total_experience (run_calls [Use (u "эмпатия") true None] init)
   <= total_experience (run_calls ([Use (u "эмпатия") true None] ++ [Tick 1]) init))%R /\
  exists l l' : Z,
    get_total_level (run_calls [Use (u "эмпатия") true None] init) = Ret l /\
    get_total_level (run_calls ([Use (u "эмпатия") true None] ++ [Tick 1]) init) = Ret l' /\
    (1 <= l <= l')%Z.
Proof.
  apply (total_level_monotone [Use (u "эмпатия") true None] [Tick 1]).
  - constructor; [exact I|constructor].
  - constructor; [cbn [forward]; lia|constructor].
Defined.

Lemma use_empathy_total :
  total_experience (run_calls [Use (u "эмпатия") true None] init) = 10%R.
Proof.
  unfold run_calls. cbn [fold_left run_call]. rewrite use_skill_total.
  unfold prior_skill. rewrite init_empathy. cbn [default from_option Datatypes.id new_Skill uses].
  unfold xp_gain, init. cbn [total_experience]. unfold Rmin.
  destruct (Rle_dec _ _); lra.
Qed.

(** [tick(n)] with [n < 0] lowers [total_experience]: after [tick(-3)] on a
    fresh ledger [log10] is out of its domain and [get_total_level] raises;
    after one [use_skill] the level is 3, and [tick(-20)] takes it back to 1.
    The totals are the same in binary64: [-0.5] after [tick(-1)], and
    [total_experience + 1 = -0.5] after [tick(-3)]. *)
Lemma total_level_monotone_counterexample :
  (total_experience (run_calls [Tick (-1)] init) < total_experience init)%R /\
  get_total_level init = Ret 1%Z /\
  get_total_level (run_calls [Tick (-3)] init) = Raise ValueError /\
  get_total_level (run_calls [Use (u "эмпатия") true None] init) = Ret 3%Z /\
  get_total_level (run_calls [Use (u "эмпатия") true None; Tick (-20)] init) = Ret 1%Z /\
  binary64.total_experience (snd (binary64.run_calls [Tick (-1)] binary64.init))
    = (-0.5)%float /\
  (binary64.total_experience (snd (binary64.run_calls [Tick (-3)] binary64.init)) + 1)%float
    = (-0.5)%float.
Proof.
  split; [|split; [|split; [|split; [|split; [|split; vm_compute; reflexivity]]]]].
  - unfold run_calls. cbn [fold_left run_call]. rewrite tick_total.
    unfold init. cbn [total_experience]. lra.
  - apply (get_total_level_at init 0); unfold init; cbn [total_experience]; simpl; lra.
  - unfold run_calls. cbn [fold_left run_call].
    unfold get_total_level, log10. rewrite tick_total.
    unfold init. cbn [total_experience].
    rewrite bool_decide_eq_false_2 by lra. reflexivity.
  - apply (get_total_level_at _ 2); rewrite use_empathy_total; simpl; lra.
  - assert (total_experience (run_calls [Use (u "эмпатия") true None; Tick (-20)] init) = 0%R)
      as Ht.
    { change (run_calls [Use (u "эмпатия") true None; Tick (-20)] init)
        with (tick (-20) (run_calls [Use (u "эмпатия") true None] init)).
      rewrite tick_total, use_empathy_total. lra. }
    apply (get_total_level_at _ 0); rewrite Ht; simpl; lra.
Qed.

End skill_facts.

(** * Properties of the turn orchestrator *)

Module cycle_facts.

Import analyzer cognitive_cycle plan_order.

(** Evaluate a closed test and rewrite with its value. *)
Ltac eval_closed t :=
  let v := eval vm_compute in t in
  let Hv := fresh "Hv" in
  assert (Hv : t = v) by (vm_compute; reflexivity);
  rewrite !Hv; clear Hv.

(** Evaluate the tests between literals. *)
Ltac eval_literals :=
  repeat match goal with
  | |- context [str_eqb (u ?a) (u ?b)] => eval_closed (str_eqb (u a) (u b))
  | |- context [mem (u ?a) [u ?b]] => eval_closed (mem (u a) [u b])
  | |- context [mem (u ?a) []] => eval_closed (mem (u a) [])
  end.

(** Unfold the operations of the monad [M]. *)
Ltac unfold_M :=
  unfold mbind, M_bind, bind, mret, M_ret, ret, raise, gets, modify, act.

Section WithCollaborators.
Context `{Collaborators}.

Open Scope string_scope.
Open Scope list_scope.

(** The turn up to the safety verdict. *)
Lemma run_cycle_unsafe text self :
  fst (fst (check_input text (safety self))) = false ->
  run_cycle text self =
  (Ret (u "⚠️ " ++ snd (fst (check_input text (safety self)))),
   set_safety (snd (check_input text (safety self)))
     (set_cycle_count (cycle_count self + 1) self)).
Proof.
  intros Hsafe. unfold run_cycle, _perceive. unfold_M. simpl.
  destruct (check_input text (safety self)) as [[safe msg] s']. simpl in *. subst safe.
  reflexivity.
Qed.

(** C3.  A turn whose input the safety gate rejects returns the warning built
    from the gate's message; the working memory, the episodic memory, the
    skill ledger, the affect state and the user profile are the same before
    and after, and the cycle counter has advanced by exactly 1. *)
Theorem unsafe_turn_only_counts (text : str) (self : CognitiveCycle) :
  fst (fst (check_input text (safety self))) = false ->
  fst (run_cycle text self) = Ret (u "⚠️ " ++ snd (fst (check_input text (safety self)))) /\
  working_memory (snd (run_cycle text self)) = working_memory self /\
  memory (snd (run_cycle text self)) = memory self /\
  skills (snd (run_cycle text self)) = skills self /\
  emotion (snd (run_cycle text self)) = emotion self /\
  user_profile (snd (run_cycle text self)) = user_profile self /\
  cycle_count (snd (run_cycle text self)) = (cycle_count self + 1)%Z.
Proof.
  intros Hsafe. rewrite (run_cycle_unsafe _ _ Hsafe). simpl. repeat split; reflexivity.
Qed.

Lemma last_n_all {A} n (l : list A) : (length l <= n)%nat -> last_n n l = l.
Proof. intros Hl. unfold last_n. replace (length l - n)%nat with 0%nat by lia. reflexivity. Qed.

Lemma update_working_memory_eq text self :
  _update_working_memory text self = 
  (Ret tt, set_working_memory (last_n 20 (working_memory self ++ [mkMessage (u "user") text])) self).
Proof.
  unfold _update_working_memory. unfold_M. f_equal.
  destruct (20 <? _)%nat eqn:E; [reflexivity|].
  apply Nat.ltb_ge in E. rewrite last_n_all by assumption. reflexivity.
Qed.

Lemma update_emotion_ret text self :
  exists e, _update_emotion text self = (Ret tt, set_emotion e self).
Proof.
  unfold _update_emotion, stimulate. unfold_M.
  repeat match goal with |- context [if ?b then _ else _] => destruct b end;
    try (eexists; reflexivity).
  exists (emotion self). destruct self; reflexivity.
Qed.

Lemma bind_Ret {A B} (m : M A) (f : A -> M B) self a self' :
  m self = (Ret a, self') -> bind m f self = f a self'.
Proof. intros Hm. unfold bind. rewrite Hm. reflexivity. Qed.

Lemma bind_Raise {A B} (m : M A) (f : A -> M B) self e self' :
  m self = (Raise e, self') -> bind m f self = (Raise e, self').
Proof. intros Hm. unfold bind. rewrite Hm. reflexivity. Qed.

Lemma set_skills_id self : set_skills (skills self) self = self.
Proof. destruct self; reflexivity. Qed.

Lemma update_skills_ret text self :
  exists sk, _update_skills text self = (Ret tt, set_skills sk self).
Proof.
  unfold _update_skills, use. unfold mbind, M_bind, mret, M_ret.
  set (b1 := any_in _ _). set (b2 := any_in _ _). set (b3 := any_in _ _).
  destruct b1, b2, b3; unfold bind, modify, ret; cbn [snd fst];
    try (eexists; reflexivity).
  exists (skills self). rewrite set_skills_id. reflexivity.
Qed.

Lemma learn_eq text response context retrieved intent goals self :
  exists sk p,
    _learn text response context retrieved intent goals self =
    (Ret tt,
     set_user_profile p
       (set_skills sk
          (set_memory
             (let mem' := memory self ++ [mkEpisode text response context retrieved intent goals] in
              if (100 <? length mem')%nat then last_n 100 mem' else mem') self))).
Proof.
  unfold _learn. unfold mbind, M_bind.
  erewrite bind_Ret by (unfold modify; reflexivity).
  match goal with |- context [_update_skills ?t] =>
    destruct (update_skills_ret t
      (set_memory
         (let mem' := memory self ++ [mkEpisode text response context retrieved intent goals] in
          if (100 <? length mem')%nat then last_n 100 mem' else mem') self)) as [sk Hsk] end.
  erewrite bind_Ret by exact Hsk.
  unfold modify. eexists _, _. reflexivity.
Qed.

Lemma learnt_memory text response context retrieved intent goals self :
  memory (learnt text response context retrieved intent goals self) =
  (let mem' := memory self ++ [mkEpisode text response context retrieved intent goals] in
   if (100 <? length mem')%nat then last_n 100 mem' else mem').
Proof.
  unfold learnt.
  destruct (learn_eq text response context retrieved intent goals self) as (sk & p & ->).
  reflexivity.
Qed.

Lemma learnt_working_memory text response context retrieved intent goals self :
  working_memory (learnt text response context retrieved intent goals self) =
  working_memory self.
Proof.
  unfold learnt.
  destruct (learn_eq text response context retrieved intent goals self) as (sk & p & ->).
  reflexivity.
Qed.

(** A safe turn, step by step. *)
Lemma run_cycle_safe text self :
  fst (fst (check_input text (safety self))) = true ->
  run_cycle text self =
  let s1 := perceived text self in
  let context := last_n 10 (working_memory s1) in
  let retrieved := last_n 5 (memory s1) in
  let s2 := snd (_update_emotion text s1) in
  let intent := _infer_intent text in
  let goals := _form_goals intent in
  let plan := _make_plan intent goals context retrieved s2 in
  match _run_plan plan text context retrieved s2 with
  | (Ret response, s3) =>
    (Ret response, learnt text response context retrieved intent goals s3)
  | (Raise e, s3) => (Raise e, s3)
  end.
Proof.
  intros Hsafe. unfold run_cycle. unfold mbind, M_bind.
  erewrite bind_Ret by (unfold modify; reflexivity).
  destruct (check_input text (safety self)) as [[safe msg] s'] eqn:Hc.
  cbn [fst] in Hsafe. subst safe.
  erewrite bind_Ret
    by (unfold _perceive, act; cbn [safety set_cycle_count]; rewrite Hc; reflexivity).
  cbn [negb].
  erewrite bind_Ret by apply update_working_memory_eq.
  erewrite bind_Ret by (unfold _apply_attention, gets; reflexivity).
  erewrite bind_Ret by (unfold _retrieve_memory, gets; reflexivity).
  unfold perceived. rewrite Hc. cbn [snd].
  set (s1 := set_working_memory _ _).
  destruct (update_emotion_ret text s1) as [e He].
  erewrite bind_Ret by exact He.
  rewrite He. cbn [snd]. cbv zeta.
  erewrite bind_Ret by (unfold gets; reflexivity).
  destruct (_run_plan _ _ _ _ _) as [[response|e'] s3] eqn:Hr.
  - erewrite bind_Ret by exact Hr.
    unfold learnt.
    destruct (learn_eq text response (last_n 10 (working_memory s1))
                (last_n 5 (memory s1)) (_infer_intent text)
                (_form_goals (_infer_intent text)) s3) as (sk & p & Hl).
    erewrite bind_Ret by exact Hl. rewrite Hl.
    unfold _cleanup, mbind, M_bind.
    erewrite bind_Ret by (unfold bind, modify; reflexivity).
    reflexivity.
  - erewrite bind_Raise by exact Hr. reflexivity.
Qed.

Lemma infer_intent_status text :
  startswith (lower text) (u "/status") = true -> _infer_intent text = u "status".
Proof. intros Hs. unfold _infer_intent. rewrite Hs. reflexivity. Qed.

Lemma reset_not_status t :
  startswith t (u "/reset") = true -> startswith t (u "/status") = false.
Proof.
  change (u "/reset") with (47 :: 114 :: u "eset")%N.
  change (u "/status") with (47 :: 115 :: u "tatus")%N.
  destruct t as [|a [|b t]]; cbn [startswith]; try discriminate.
  - destruct (47 =? a)%N; discriminate.
  - destruct (47 =? a)%N; [|discriminate]. cbn [andb].
    destruct (N.eqb_spec 114 b) as [<-|]; [|discriminate]. reflexivity.
Qed.

Lemma infer_intent_reset text :
  startswith (lower text) (u "/reset") = true -> _infer_intent text = u "reset".
Proof.
  intros Hs. unfold _infer_intent. rewrite (reset_not_status _ Hs), Hs. reflexivity.
Qed.

(** The intent is [reset] exactly for the inputs that start with [/reset]. *)
Lemma infer_intent_reset_iff text :
  _infer_intent text = u "reset" <-> startswith (lower text) (u "/reset") = true.
Proof.
  split; [|apply infer_intent_reset].
  unfold _infer_intent.
  destruct (startswith (lower text) (u "/status")); [vm_compute; discriminate|].
  destruct (startswith (lower text) (u "/reset")); [reflexivity|].
  repeat match goal with
  | |- context [if ?b then _ else _] => destruct b; [vm_compute; discriminate|]
  end.
  vm_compute. discriminate.
Qed.

(** The intent is [status] exactly for the inputs that start with [/status]. *)
Lemma infer_intent_status_iff text :
  _infer_intent text = u "status" <-> startswith (lower text) (u "/status") = true.
Proof.
  split; [|apply infer_intent_status].
  unfold _infer_intent.
  destruct (startswith (lower text) (u "/status")); [reflexivity|].
  repeat match goal with
  | |- context [if ?b then _ else _] => destruct b; [vm_compute; discriminate|]
  end.
  vm_compute. discriminate.
Qed.

Lemma make_plan_reset intent goals context retrieved self :
  mem (u "reset_memory") goals = true ->
  _make_plan intent goals context retrieved self = [u "do_reset_memory"].
Proof. intros Hg. unfold _make_plan. rewrite Hg. reflexivity. Qed.

Lemma run_plan_reset plan text context retrieved self :
  mem (u "do_reset_memory") plan = true ->
  _run_plan plan text context retrieved self =
  (Ret (u "Память очищена. Начинаем заново!"), set_memory [] (set_working_memory [] self)).
Proof. intros Hp. unfold _run_plan. rewrite Hp. reflexivity. Qed.

Lemma run_plan_describe_state plan text context retrieved self :
  mem (u "do_reset_memory") plan = false ->
  mem (u "describe_state") plan = true ->
  _run_plan plan text context retrieved self = (Raise (AttributeError "get_state"), self).
Proof. intros Hr Hp. unfold _run_plan. rewrite Hr, Hp. reflexivity. Qed.

Lemma form_goals_status : _form_goals (u "status") = [u "report_internal_state"].
Proof. reflexivity. Qed.

Lemma form_goals_reset : _form_goals (u "reset") = [u "reset_memory"].
Proof. reflexivity. Qed.

Lemma make_plan_status intent context retrieved self :
  _make_plan intent [u "report_internal_state"] context retrieved self = [u "describe_state"].
Proof. reflexivity. Qed.

Lemma reset_turn text self :
  fst (fst (check_input text (safety self))) = true ->
  startswith (lower text) (u "/reset") = true ->
  fst (run_cycle text self) = Ret reset_reply /\
  working_memory (snd (run_cycle text self)) = [] /\
  memory (snd (run_cycle text self)) =
    [mkEpisode text reset_reply
       (last_n 10 (last_n 20 (working_memory self ++ [mkMessage (u "user") text])))
       (last_n 5 (memory self)) (u "reset") [u "reset_memory"]].
Proof.
  intros Hsafe Hs. rewrite (run_cycle_safe _ _ Hsafe). cbv zeta.
  rewrite (infer_intent_reset _ Hs), form_goals_reset.
  rewrite make_plan_reset by reflexivity.
  rewrite run_plan_reset by reflexivity.
  cbn [fst snd]. rewrite learnt_working_memory, learnt_memory.
  repeat split.
Qed.

(** C1 (amended).  A safe turn whose input starts with [/reset] returns the
    fixed confirmation text, ends with an empty working memory, and ends with
    an episodic memory that holds exactly one entry, the episode of the reset
    turn itself (everything recorded before is gone).  Whatever other goals
    are formed, a goal list with [reset_memory] gives the plan
    [[do_reset_memory]], and a plan with [do_reset_memory] empties both
    memories and returns the confirmation text. *)
Theorem reset_turn_clears (text : str) (self : CognitiveCycle) :
  fst (fst (check_input text (safety self))) = true ->
  startswith (lower text) (u "/reset") = true ->
  fst (run_cycle text self) = Ret reset_reply /\
  working_memory (snd (run_cycle text self)) = [] /\
  memory (snd (run_cycle text self)) =
    [mkEpisode text reset_reply
       (last_n 10 (last_n 20 (working_memory self ++ [mkMessage (u "user") text])))
       (last_n 5 (memory self)) (u "reset") [u "reset_memory"]] /\
  (forall intent goals context retrieved s,
      mem (u "reset_memory") goals = true ->
      _make_plan intent goals context retrieved s = [u "do_reset_memory"]) /\
  (forall plan input context retrieved s,
      mem (u "do_reset_memory") plan = true ->
      _run_plan plan input context retrieved s =
      (Ret reset_reply, set_memory [] (set_working_memory [] s))).
Proof.
  intros Hsafe Hs. destruct (reset_turn text self Hsafe Hs) as (Hr & Hw & Hm).
  repeat split; try assumption.
  - intros. apply make_plan_reset. assumption.
  - intros. apply run_plan_reset. assumption.
Qed.

(** C2.  For a safe input that starts with [/status] the plan is
    [[describe_state]]; executing it looks up [get_state] on the instance,
    which the class does not define, so the turn ends with [AttributeError]
    and produces no state report; no episode is recorded. *)
Theorem status_turn_raises (text : str) (self : CognitiveCycle) :
  fst (fst (check_input text (safety self))) = true ->
  startswith (lower text) (u "/status") = true ->
  _make_plan (_infer_intent text) (_form_goals (_infer_intent text))
    (last_n 10 (working_memory (perceived text self))) (last_n 5 (memory self))
    (snd (_update_emotion text (perceived text self))) = [u "describe_state"] /\
  fst (run_cycle text self) = Raise (AttributeError "get_state") /\
  memory (snd (run_cycle text self)) = memory self.
Proof.
  intros Hsafe Hs. rewrite (run_cycle_safe _ _ Hsafe). cbv zeta.
  rewrite (infer_intent_status _ Hs), form_goals_status, !make_plan_status.
  rewrite run_plan_describe_state by reflexivity.
  cbn [fst snd]. repeat split.
  destruct (update_emotion_ret text (perceived text self)) as [e ->]. reflexivity.
Qed.

Lemma deciding_action_eq self plan :
  deciding_action self plan =
  if mem (u "do_reset_memory") plan then [u "do_reset_memory"]
  else if mem (u "describe_state") plan then [u "describe_state"]
  else if mem (u "generate_support_message") plan then [u "generate_support_message"]
  else if mem (u "describe_capabilities") plan then [u "describe_capabilities"]
  else if mem (u "use_empathy_skill") plan then [u "use_empathy_skill"]
  else if mem (u "ack_search_skill") plan then [u "ack_search_skill"]
  else if mem (u "maybe_online_search") plan then [u "maybe_online_search"]
  else if mem (u "offer_simple_game") plan then [u "offer_simple_game"]
  else if mem (u "query_llm") plan && bool_decide (is_Some (client self))
       then [u "query_llm"]
  else if mem (u "keep_conversation") plan then [u "keep_conversation"]
  else [].
Proof.
  unfold deciding_action, execution_order, fires. cbn [map find].
  eval_literals. cbn [negb orb]. rewrite !andb_true_r.
  repeat match goal with |- context [if ?b then _ else _] => destruct b end; reflexivity.
Qed.

Lemma run_plan_nil text context retrieved self :
  _run_plan [] text context retrieved self = respond_by_rules text context self.
Proof. reflexivity. Qed.

Lemma run_plan_keep text context retrieved self :
  _run_plan [u "keep_conversation"] text context retrieved self =
  match recalled self with
  | Some last_input => (Ret (recall_reply last_input), self)
  | None => respond_by_rules text context self
  end.
Proof.
  unfold _run_plan. eval_literals. cbn [andb].
  unfold mbind, M_bind. erewrite bind_Ret by (unfold gets; reflexivity).
  unfold recalled. destruct (last (memory self)) as [l|]; [|reflexivity].
  destruct (3 <? length (input l))%nat; reflexivity.
Qed.

Lemma plan_dispatch (plan : list str) (text : str)
    (context : list Message) (retrieved : list Episode) (self : CognitiveCycle) :
  _run_plan plan text context retrieved self =
  _run_plan (deciding_action self plan) text context retrieved self.
Proof.
  rewrite deciding_action_eq. unfold _run_plan at 1.
  destruct (mem (u "do_reset_memory") plan);
    [unfold _run_plan; eval_literals; reflexivity|].
  destruct (mem (u "describe_state") plan);
    [unfold _run_plan; eval_literals; reflexivity|].
  destruct (mem (u "generate_support_message") plan);
    [unfold _run_plan; eval_literals; reflexivity|].
  destruct (mem (u "describe_capabilities") plan);
    [unfold _run_plan; eval_literals; reflexivity|].
  destruct (mem (u "use_empathy_skill") plan);
    [unfold _run_plan; eval_literals; reflexivity|].
  destruct (mem (u "ack_search_skill") plan);
    [unfold _run_plan; eval_literals; reflexivity|].
  destruct (mem (u "maybe_online_search") plan);
    [unfold _run_plan; eval_literals; reflexivity|].
  destruct (mem (u "offer_simple_game") plan);
    [unfold _run_plan; eval_literals; reflexivity|].
  unfold mbind, M_bind. erewrite bind_Ret by (unfold gets; reflexivity).
  destruct (mem (u "query_llm") plan); cbn [andb].
  - destruct (bool_decide (is_Some (client self))) eqn:Hc.
    + unfold _run_plan. eval_literals. cbn [andb].
      unfold mbind, M_bind. erewrite bind_Ret by (unfold gets; reflexivity).
      rewrite Hc. reflexivity.
    + destruct (mem (u "keep_conversation") plan).
      * rewrite run_plan_keep. unfold recalled.
        destruct (last (memory self)) as [l|]; [|reflexivity].
        destruct (3 <? length (input l))%nat; reflexivity.
      * rewrite run_plan_nil. reflexivity.
  - destruct (mem (u "keep_conversation") plan).
    + rewrite run_plan_keep. unfold recalled.
      destruct (last (memory self)) as [l|]; [|reflexivity].
      destruct (3 <? length (input l))%nat; reflexivity.
    + rewrite run_plan_nil. reflexivity.
Qed.

Lemma same_memories_refl s : same_memories s s.
Proof. split; reflexivity. Qed.

Lemma fallback_response_state text self :
  snd (_fallback_response text self) = self.
Proof.
  unfold _fallback_response.
  destruct (any_in _ _); [reflexivity|].
  destruct (contains _ _); [reflexivity|].
  destruct (_ ≫= _); [reflexivity|].
  destruct (_ ≫= _); [reflexivity|].
  destruct (any_in _ _); [reflexivity|].
  destruct (contains _ _); [reflexivity|].
  destruct (contains _ _); reflexivity.
Qed.

Lemma respond_by_rules_memories text context self :
  same_memories self (snd (respond_by_rules text context self)).
Proof.
  unfold respond_by_rules, mbind, M_bind, bind, act.
  destruct (generate _ _ _) as [g ob].
  assert (same_memories self
            (match ob with Some b => set_online_brain b self | None => self end)) as Hs.
  { destruct ob; split; reflexivity. }
  destruct g as [[|c g]|]; try exact Hs.
  - rewrite fallback_response_state. exact Hs.
  - rewrite fallback_response_state. exact Hs.
Qed.

Lemma generate_llm_response_memories text context retrieved self :
  same_memories self (snd (_generate_llm_response text context retrieved self)).
Proof.
  unfold _generate_llm_response, mbind, M_bind.
  erewrite bind_Ret by (unfold gets; reflexivity).
  destruct (client self) as [cl|].
  - destruct (get_dominant_emotion (emotion self)) as [emo conf] eqn:He.
    erewrite bind_Ret by (unfold gets; rewrite He; reflexivity).
    unfold act. destruct (chat_completions_create _ _) as [r cl']. split; reflexivity.
  - rewrite fallback_response_state. apply same_memories_refl.
Qed.

Lemma online_search_response_memories text self :
  same_memories self (snd (_online_search_response text self)).
Proof.
  unfold _online_search_response.
  destruct (strip text); [apply same_memories_refl|].
  unfold act. destruct (answer _ _). split; reflexivity.
Qed.

(** Plan execution empties both memories when the plan holds
    [do_reset_memory], and leaves both as they are otherwise. *)
Lemma run_plan_memories plan text context retrieved self :
  if mem (u "do_reset_memory") plan
  then _run_plan plan text context retrieved self =
       (Ret reset_reply, set_memory [] (set_working_memory [] self))
  else same_memories self (snd (_run_plan plan text context retrieved self)).
Proof.
  destruct (mem (u "do_reset_memory") plan) eqn:Hreset.
  { apply run_plan_reset. assumption. }
  rewrite plan_dispatch. rewrite deciding_action_eq. rewrite Hreset.
  destruct (mem (u "describe_state") plan).
  { rewrite run_plan_describe_state by (vm_compute; reflexivity). apply same_memories_refl. }
  destruct (mem (u "generate_support_message") plan).
  { unfold _run_plan. eval_literals. apply same_memories_refl. }
  destruct (mem (u "describe_capabilities") plan).
  { unfold _run_plan. eval_literals. apply same_memories_refl. }
  destruct (mem (u "use_empathy_skill") plan).
  { unfold _run_plan. eval_literals. apply same_memories_refl. }
  destruct (mem (u "ack_search_skill") plan).
  { unfold _run_plan. eval_literals. apply same_memories_refl. }
  destruct (mem (u "maybe_online_search") plan).
  { unfold _run_plan. eval_literals. apply online_search_response_memories. }
  destruct (mem (u "offer_simple_game") plan).
  { unfold _run_plan. eval_literals. apply same_memories_refl. }
  destruct (mem (u "query_llm") plan && bool_decide (is_Some (client self))) eqn:Hq.
  { unfold _run_plan. eval_literals. cbn [andb].
    unfold mbind, M_bind. erewrite bind_Ret by (unfold gets; reflexivity).
    apply andb_true_iff in Hq as [_ ->]. apply generate_llm_response_memories. }
  destruct (mem (u "keep_conversation") plan).
  { rewrite run_plan_keep. destruct (recalled self).
    - apply same_memories_refl.
    - apply respond_by_rules_memories. }
  rewrite run_plan_nil. apply respond_by_rules_memories.
Qed.


Lemma truncate_last_n {A} n (l : list A) :
  (if (n <? length l)%nat then last_n n l else l) = last_n n l.
Proof.
  destruct (n <? length l)%nat eqn:E; [reflexivity|].
  apply Nat.ltb_ge in E. rewrite last_n_all by assumption. reflexivity.
Qed.

Lemma last_n_snoc {A} n (l : list A) x :
  last_n n (l ++ [x]) = drop (length l + 1 - n) (l ++ [x]).
Proof. unfold last_n. rewrite length_app. reflexivity. Qed.

Lemma update_emotion_memories text self :
  same_memories self (snd (_update_emotion text self)).
Proof. destruct (update_emotion_ret text self) as [e ->]. split; reflexivity. Qed.

(** The two memories at the end of a safe turn. *)
Lemma run_cycle_safe_state text self :
  fst (fst (check_input text (safety self))) = true ->
  let s1 := perceived text self in
  let context := last_n 10 (working_memory s1) in
  let retrieved := last_n 5 (memory s1) in
  let s2 := snd (_update_emotion text s1) in
  let plan := _make_plan (_infer_intent text) (_form_goals (_infer_intent text))
                context retrieved s2 in
  match fst (run_cycle text self) with
  | Ret response =>
    working_memory (snd (run_cycle text self)) =
      (if mem (u "do_reset_memory") plan then [] else working_memory s1) /\
    memory (snd (run_cycle text self)) =
      last_n 100 ((if mem (u "do_reset_memory") plan then [] else memory self)
                  ++ [episode_of text response self])
  | Raise _ =>
    mem (u "do_reset_memory") plan = false /\
    same_memories s1 (snd (run_cycle text self))
  end.
Proof.
  intros Hsafe. rewrite (run_cycle_safe _ _ Hsafe). cbv zeta.
  set (s1 := perceived text self).
  set (s2 := snd (_update_emotion text s1)).
  set (plan := _make_plan _ _ _ _ _).
  pose proof (run_plan_memories plan text (last_n 10 (working_memory s1))
                (last_n 5 (memory s1)) s2) as Hm.
  pose proof (update_emotion_memories text s1) as [Hw2 Hm2]. fold s2 in Hw2, Hm2.
  destruct (mem (u "do_reset_memory") plan).
  - rewrite Hm. cbn [fst snd]. rewrite learnt_working_memory, learnt_memory.
    cbv zeta. rewrite truncate_last_n. split; reflexivity.
  - destruct Hm as [Hw3 Hm3].
    destruct (_run_plan _ _ _ _ _) as [[response|e] s3]; cbn [fst snd] in *.
    + rewrite learnt_working_memory, learnt_memory. cbv zeta. rewrite truncate_last_n.
      rewrite Hw3, Hw2, Hm3, Hm2. split; reflexivity.
    + split; [reflexivity|]. split; congruence.
Qed.


Lemma run_cycles_snoc inputs text self :
  run_cycles (inputs ++ [text]) self = snd (run_cycle text (run_cycles inputs self)).
Proof. unfold run_cycles. rewrite fold_left_app. reflexivity. Qed.



Lemma deciding_action_ext self plan plan' :
  (forall a, mem a plan' = mem a plan) ->
  deciding_action self plan' = deciding_action self plan.
Proof. intros Hmem. rewrite !deciding_action_eq, !Hmem. reflexivity. Qed.

(** C5 (amended).  Plan execution tests the plan by membership, in an order
    of its own: [do_reset_memory], [describe_state],
    [generate_support_message], [describe_capabilities],
    [use_empathy_skill], [ack_search_skill], [maybe_online_search],
    [offer_simple_game], [query_llm] (which counts only with a configured
    client), [keep_conversation].  Executing a plan is executing the plan
    reduced to the first of these it holds (the empty plan when it holds
    none, which leaves the reply to the rule-based generator and the
    fallback): every other action of the plan produces no output.  The
    position of an action in the plan plays no part: two plans with the same
    members execute alike. *)
Theorem plan_execution_by_priority (plan : list str) (text : str)
    (context : list Message) (retrieved : list Episode) (self : CognitiveCycle) :
  _run_plan plan text context retrieved self =
    _run_plan (deciding_action self plan) text context retrieved self /\
  (forall plan' : list str,
      (forall a, mem a plan' = mem a plan) ->
      _run_plan plan' text context retrieved self =
      _run_plan plan text context retrieved self).
Proof.
  split; [apply plan_dispatch|].
  intros plan' Hmem.
  rewrite (plan_dispatch plan'), (plan_dispatch plan).
  rewrite (deciding_action_ext _ _ _ Hmem). reflexivity.
Qed.

(** The two orders: execution never tests [check_recent_emotion] and
    [use_fallback_logic], and it tests [describe_capabilities] before
    [use_empathy_skill]; otherwise it follows the order of construction. *)
Lemma execution_order_from_construction_order :
  execution_order =
  map (fun a => if str_eqb a (u "use_empathy_skill") then u "describe_capabilities"
                else if str_eqb a (u "describe_capabilities") then u "use_empathy_skill"
                else a)
      (filter (fun a => a <> u "check_recent_emotion" /\ a <> u "use_fallback_logic")
              construction_order).
Proof. vm_compute. reflexivity. Qed.

Lemma form_goals_smalltalk : _form_goals (u "smalltalk") = [u "keep_conversation"].
Proof. vm_compute. reflexivity. Qed.

Lemma make_plan_keep intent context retrieved self :
  _make_plan intent [u "keep_conversation"] context retrieved self = [u "keep_conversation"].
Proof. unfold _make_plan, when_goal. eval_literals. reflexivity. Qed.

Lemma respond_by_rules_generated text context self reply :
  (forall ctx ob, generate text ctx ob = (Some reply, ob)) ->
  reply <> [] ->
  fst (respond_by_rules text context self) = Ret reply.
Proof.
  intros Hg Hne. unfold respond_by_rules, mbind, M_bind, bind, act.
  rewrite Hg. destruct reply; [congruence|reflexivity].
Qed.

Lemma recalled_same s s' : memory s' = memory s -> recalled s' = recalled s.
Proof. intros Hm. unfold recalled. rewrite Hm. reflexivity. Qed.

(** A safe turn of small talk that the generator can answer. *)
Lemma smalltalk_turn text reply self :
  fst (fst (check_input text (safety self))) = true ->
  _infer_intent text = u "smalltalk" ->
  (forall ctx ob, generate text ctx ob = (Some reply, ob)) ->
  reply <> [] ->
  fst (run_cycle text self) =
  Ret (match recalled self with
       | Some last_input => recall_reply last_input
       | None => reply
       end).
Proof.
  intros Hsafe Hi Hg Hne. rewrite (run_cycle_safe _ _ Hsafe). cbv zeta.
  rewrite Hi, form_goals_smalltalk, make_plan_keep, run_plan_keep.
  set (s2 := snd (_update_emotion text (perceived text self))).
  assert (recalled s2 = recalled self) as ->.
  { apply recalled_same. unfold s2.
    destruct (update_emotion_memories text (perceived text self)) as [_ ->]. reflexivity. }
  destruct (recalled self) as [last_input|]; [reflexivity|].
  pose proof (respond_by_rules_generated text
                (last_n 10 (working_memory (perceived text self))) s2 reply Hg Hne) as Hr.
  destruct (respond_by_rules _ _ _) as [r s3]. cbn [fst] in *. subst r. reflexivity.
Qed.

Lemma smalltalk_turn_memory text reply self :
  fst (fst (check_input text (safety self))) = true ->
  _infer_intent text = u "smalltalk" ->
  (forall ctx ob, generate text ctx ob = (Some reply, ob)) ->
  reply <> [] ->
  recalled self = None ->
  memory (snd (run_cycle text self)) = last_n 100 (memory self ++ [episode_of text reply self]).
Proof.
  intros Hsafe Hi Hg Hne Hrec.
  pose proof (run_cycle_safe_state text self Hsafe) as Hst. cbv zeta in Hst.
  rewrite (smalltalk_turn text reply self Hsafe Hi Hg Hne), Hrec in Hst.
  rewrite Hi, form_goals_smalltalk, make_plan_keep in Hst.
  destruct Hst as [_ Hm]. rewrite Hm. eval_literals. reflexivity.
Qed.

Lemma infer_intent_sum : _infer_intent (u "2 + 2") = u "smalltalk".
Proof. vm_compute. reflexivity. Qed.

Lemma infer_intent_quotient : _infer_intent (u "5 / 0") = u "smalltalk".
Proof. vm_compute. reflexivity. Qed.

Lemma generate_sum ctx ob : generate (u "2 + 2") ctx ob = (Some (u "2 + 2 = 4"), ob).
Proof. vm_compute. reflexivity. Qed.

Lemma generate_quotient ctx ob :
  generate (u "5 / 0") ctx ob = (Some (u "На ноль делить нельзя!"), ob).
Proof. vm_compute. reflexivity. Qed.

(** C4 (amended).  When nothing is recalled (the episodic memory is empty or
    the input of its last episode has at most 3 characters, as on a fresh
    orchestrator) the safe input [2 + 2] is answered exactly [2 + 2 = 4] and
    the safe input [5 / 0] with the fixed divide-by-zero message; otherwise
    the reply to either is the keep-conversation recall of the last input.
    In every case the turn returns a reply and raises nothing. *)
Theorem arithmetic_turns (self : CognitiveCycle) :
  fst (fst (check_input (u "2 + 2") (safety self))) = true ->
  fst (fst (check_input (u "5 / 0") (safety self))) = true ->
  fst (run_cycle (u "2 + 2") self) =
    Ret (match recalled self with
         | Some last_input => recall_reply last_input
         | None => u "2 + 2 = 4"
         end) /\
  fst (run_cycle (u "5 / 0") self) =
    Ret (match recalled self with
         | Some last_input => recall_reply last_input
         | None => u "На ноль делить нельзя!"
         end).
Proof.
  intros Hsum Hquot. split.
  - apply smalltalk_turn;
      [assumption|apply infer_intent_sum|apply generate_sum|vm_compute; discriminate].
  - apply smalltalk_turn;
      [assumption|apply infer_intent_quotient|apply generate_quotient
      |vm_compute; discriminate].
Qed.

End WithCollaborators.

(** ** The properties on the offline deployment *)

Import offline.

Open Scope string_scope.
Open Scope list_scope.

(** The offline safety filter accepts every input without its one word. *)
Lemma offline_safe (text : str) (s : unit) :
  contains (lower text) (u "взлом") = false ->
  fst (fst (check_input text s)) = true.
Proof. intros Hc. cbn [check_input collaborators]. rewrite Hc. reflexivity. Qed.

Lemma fresh_memory : memory fresh = [].
Proof. reflexivity. Qed.

Lemma fresh_recalled : recalled fresh = None.
Proof. reflexivity. Qed.

Lemma unsafe_turn_only_counts_witness :
  fst (run_cycle (u "взлом") fresh) =
    Ret (u "⚠️ " ++ snd (fst (check_input (u "взлом") (safety fresh)))) /\
  working_memory (snd (run_cycle (u "взлом") fresh)) = working_memory fresh /\
  memory (snd (run_cycle (u "взлом") fresh)) = memory fresh /\
  skills (snd (run_cycle (u "взлом") fresh)) = skills fresh /\
  emotion (snd (run_cycle (u "взлом") fresh)) = emotion fresh /\
  user_profile (snd (run_cycle (u "взлом") fresh)) = user_profile fresh /\
  cycle_count (snd (run_cycle (u "взлом") fresh)) = (cycle_count fresh + 1)%Z.
Proof.
  apply (unsafe_turn_only_counts (u "взлом") fresh).
  vm_compute. reflexivity.
Defined.

Lemma status_turn_raises_witness :
  _make_plan (_infer_intent (u "/status")) (_form_goals (_infer_intent (u "/status")))
    (last_n 10 (working_memory (perceived (u "/status") fresh))) (last_n 5 (memory fresh))
    (snd (_update_emotion (u "/status") (perceived (u "/status") fresh)))
    = [u "describe_state"] /\
  fst (run_cycle (u "/status") fresh) = Raise (AttributeError "get_state") /\
  memory (snd (run_cycle (u "/status") fresh)) = memory fresh.
Proof.
  apply (status_turn_raises (u "/status") fresh).
  - apply offline_safe. vm_compute. reflexivity.
  - vm_compute. reflexivity.
Defined.

Lemma reset_turn_clears_witness :
  fst (run_cycle (u "/reset") fresh) = Ret reset_reply /\
  working_memory (snd (run_cycle (u "/reset") fresh)) = [] /\
  memory (snd (run_cycle (u "/reset") fresh)) =
    [mkEpisode (u "/reset") reset_reply
       (last_n 10 (last_n 20 (working_memory fresh ++ [mkMessage (u "user") (u "/reset")])))
       (last_n 5 (memory fresh)) (u "reset") [u "reset_memory"]] /\
  (forall intent goals context retrieved s,
      mem (u "reset_memory") goals = true ->
      _make_plan intent goals context retrieved s = [u "do_reset_memory"]) /\
  (forall plan input context retrieved s,
      mem (u "do_reset_memory") plan = true ->
      _run_plan plan input context retrieved s =
      (Ret reset_reply, set_memory [] (set_working_memory [] s))).
Proof.
  apply (reset_turn_clears (u "/reset") fresh).
  - apply offline_safe. vm_compute. reflexivity.
  - vm_compute. reflexivity.
Defined.

(** C1, as stated, fails: at the end of a safe [/reset] turn on a fresh
    orchestrator the working memory is empty but the episodic memory holds
    one entry, the episode of the reset turn. *)
Lemma reset_turn_keeps_episode :
  fst (fst (check_input (u "/reset") (safety fresh))) = true /\
  startswith (lower (u "/reset")) (u "/reset") = true /\
  fst (run_cycle (u "/reset") fresh) = Ret reset_reply /\
  working_memory (snd (run_cycle (u "/reset") fresh)) = [] /\
  length (memory (snd (run_cycle (u "/reset") fresh))) = 1%nat /\
  memory (snd (run_cycle (u "/reset") fresh)) <> [].
Proof.
  assert (fst (fst (check_input (u "/reset") (safety fresh))) = true) as Hsafe.
  { apply offline_safe. vm_compute. reflexivity. }
  assert (startswith (lower (u "/reset")) (u "/reset") = true) as Hs.
  { vm_compute. reflexivity. }
  destruct (reset_turn (u "/reset") fresh Hsafe Hs) as (Hr & Hw & Hm).
  split; [exact Hsafe|]. split; [exact Hs|]. split; [exact Hr|]. split; [exact Hw|].
  rewrite Hm. split; [reflexivity|discriminate].
Qed.

Lemma arithmetic_turns_witness :
  fst (run_cycle (u "2 + 2") fresh) =
    Ret (match recalled fresh with
         | Some last_input => recall_reply last_input
         | None => u "2 + 2 = 4"
         end) /\
  fst (run_cycle (u "5 / 0") fresh) =
    Ret (match recalled fresh with
         | Some last_input => recall_reply last_input
         | None => u "На ноль делить нельзя!"
         end).
Proof.
  apply (arithmetic_turns fresh).
  - apply offline_safe. vm_compute. reflexivity.
  - apply offline_safe. vm_compute. reflexivity.
Defined.

(** C4, as stated, fails on a reachable state: after one turn [2 + 2] the
    same safe input is answered with the recall of that turn, not with
    [2 + 2 = 4]. *)
Lemma repeated_sum_is_recalled :
  fst (fst (check_input (u "2 + 2") (safety (run_cycles [u "2 + 2"] fresh)))) = true /\
  fst (run_cycle (u "2 + 2") (run_cycles [u "2 + 2"] fresh)) =
    Ret (recall_reply (u "2 + 2")) /\
  fst (run_cycle (u "2 + 2") (run_cycles [u "2 + 2"] fresh)) <> Ret (u "2 + 2 = 4").
Proof.
  assert (forall s, fst (fst (check_input (u "2 + 2") s)) = true) as Hsafe.
  { intros s. apply offline_safe. vm_compute. reflexivity. }
  assert (u "2 + 2 = 4" <> []) as Hne by (vm_compute; discriminate).
  assert (fst (run_cycle (u "2 + 2") (run_cycles [u "2 + 2"] fresh)) =
          Ret (recall_reply (u "2 + 2"))) as Hr.
  { rewrite (smalltalk_turn (u "2 + 2") (u "2 + 2 = 4") _ (Hsafe _)
               infer_intent_sum generate_sum Hne).
    change (run_cycles [u "2 + 2"] fresh) with (snd (run_cycle (u "2 + 2") fresh)).
    unfold recalled.
    rewrite (smalltalk_turn_memory (u "2 + 2") (u "2 + 2 = 4") fresh (Hsafe _)
               infer_intent_sum generate_sum Hne fresh_recalled).
    rewrite fresh_memory. cbn [app last_n length Nat.sub drop last episode_of input].
    eval_closed ((3 <? length (u "2 + 2"))%nat). reflexivity. }
  split; [apply Hsafe|]. split; [exact Hr|].
  rewrite Hr. vm_compute. discriminate.
Qed.

Lemma plan_execution_by_priority_witness :
  _run_plan [u "use_empathy_skill"; u "describe_capabilities"] (u "кто ты") [] [] fresh =
    _run_plan (deciding_action fresh [u "use_empathy_skill"; u "describe_capabilities"])
      (u "кто ты") [] [] fresh /\
  (forall plan' : list str,
      (forall a, mem a plan' = mem a [u "use_empathy_skill"; u "describe_capabilities"]) ->
      _run_plan plan' (u "кто ты") [] [] fresh =
      _run_plan [u "use_empathy_skill"; u "describe_capabilities"] (u "кто ты") [] [] fresh).
Proof.
  apply (plan_execution_by_priority [u "use_empathy_skill"; u "describe_capabilities"]
           (u "кто ты") [] [] fresh).
Defined.

(** C5, as stated, fails: plan construction appends [use_empathy_skill]
    before [describe_capabilities], plan execution tests
    [describe_capabilities] first.  The plan built from the goals
    [show_empathy] and [describe_capabilities] is answered with the
    description of the capabilities, not with the reply of its first action
    in construction order. *)
Lemma execution_order_is_not_construction_order :
  _make_plan (u "") [u "show_empathy"; u "describe_capabilities"] [] [] fresh =
    [u "use_empathy_skill"; u "describe_capabilities"] /\
  first_in construction_order [u "use_empathy_skill"; u "describe_capabilities"] =
    Some (u "use_empathy_skill") /\
  first_in execution_order [u "use_empathy_skill"; u "describe_capabilities"] =
    Some (u "describe_capabilities") /\
  fst (_run_plan [u "use_empathy_skill"] (u "") [] [] fresh) =
    Ret (u "Понимаю, что тебе непросто. Постараюсь поддержать.") /\
  fst (_run_plan [u "use_empathy_skill"; u "describe_capabilities"] (u "") [] [] fresh) =
    Ret (u "Я ещё не полноценный ИИ, но уже умею: помнить контекст, реагировать эмоциями, прокачивать навыки и подстраиваться под тебя.") /\
  fst (_run_plan [u "use_empathy_skill"; u "describe_capabilities"] (u "") [] [] fresh) <>
  fst (_run_plan [u "use_empathy_skill"] (u "") [] [] fresh).
Proof.
  assert (fst (_run_plan [u "use_empathy_skill"] (u "") [] [] fresh) =
          Ret (u "Понимаю, что тебе непросто. Постараюсь поддержать.")) as H1.
  { vm_compute. reflexivity. }
  assert (fst (_run_plan [u "use_empathy_skill"; u "describe_capabilities"] (u "") [] [] fresh) =
          Ret (u "Я ещё не полноценный ИИ, но уже умею: помнить контекст, реагировать эмоциями, прокачивать навыки и подстраиваться под тебя.")) as H2.
  { vm_compute. reflexivity. }
  split; [vm_compute; reflexivity|].
  split; [vm_compute; reflexivity|].
  split; [vm_compute; reflexivity|].
  split; [exact H1|]. split; [exact H2|].
  rewrite H1, H2. vm_compute. discriminate.
Qed.

End cycle_facts.

(** * Further properties of the skill ledger *)

Module ledger_facts.
Import skill_system props skill_facts ledger_props.
Import (notations) PrimFloat.

#[local] Set Warnings "-inexact-float".

Lemma find_level_cases (e : R) :
  find (fun l => bool_decide (XP_THRESHOLDS l <= e)%R) (rev SkillLevel_members) =
  if bool_decide (10000 <= e)%R then Some EXPERT
  else if bool_decide (2000 <= e)%R then Some ADVANCED
  else if bool_decide (500 <= e)%R then Some INTERMEDIATE
  else if bool_decide (100 <= e)%R then Some BEGINNER
  else if bool_decide (0 <= e)%R then Some NOVICE
  else None.
Proof.
  cbn [rev SkillLevel_members app find XP_THRESHOLDS].
  repeat (case_bool_decide; [reflexivity|]). reflexivity.
Qed.

Lemma update_level_fits s :
  (0 <= experience s)%R -> level_fits (_update_level s).
Proof.
  intros He. unfold level_fits, _update_level. rewrite find_level_cases.
  repeat case_bool_decide; cbn [level experience set_level XP_THRESHOLDS level_index];
    try lra;
    (split; [lra|]; intros l; destruct l; cbn [XP_THRESHOLDS level_index]; intros; try lia; lra).
Qed.

Lemma update_level_negative s :
  (experience s < 0)%R -> _update_level s = s.
Proof.
  intros He. unfold _update_level. rewrite find_level_cases.
  repeat (case_bool_decide; [lra|]). reflexivity.
Qed.

Lemma update_level_mono s1 s2 :
  (0 <= experience s1)%R -> (experience s1 <= experience s2)%R ->
  (level_index (level (_update_level s1)) <= level_index (level (_update_level s2)))%Z.
Proof.
  intros H1 H12.
  destruct (update_level_fits s1 H1) as [Ht _].
  destruct (update_level_fits s2 ltac:(lra)) as [_ Hmax].
  apply Hmax. rewrite experience_update_level in *. lra.
Qed.

(** X1.  [_update_level] never changes the experience.  For a skill with
    experience [>= 0] the level it sets is the highest one whose threshold the
    experience reaches, so the level grows with the experience; a skill with
    negative experience reaches no threshold and is left exactly as it is. *)
Theorem update_level_selects_band (s s2 : Skill) :
  (0 <= experience s)%R ->
  (experience s <= experience s2)%R ->
  experience (_update_level s) = experience s /\
  level_fits (_update_level s) /\
  (level_index (level (_update_level s)) <= level_index (level (_update_level s2)))%Z /\
  (forall t : Skill, (experience t < 0)%R -> _update_level t = t).
Proof.
  intros He H12. split; [apply experience_update_level|].
  split; [apply update_level_fits; assumption|].
  split; [apply update_level_mono; assumption|].
  intros t. apply update_level_negative.
Qed.

Lemma update_level_selects_band_witness :
  let s := mkSkill (u "анализ") (u "технические") 150 NOVICE 3 [u "logic"] 0 in
  let s2 := mkSkill (u "анализ") (u "технические") 600 NOVICE 4 [u "logic"] 0 in
  experience (_update_level s) = experience s /\
  level_fits (_update_level s) /\
  (level_index (level (_update_level s)) <= level_index (level (_update_level s2)))%Z /\
  (forall t : Skill, (experience t < 0)%R -> _update_level t = t).
Proof.
  apply (update_level_selects_band
           (mkSkill (u "анализ") (u "технические") 150 NOVICE 3 [u "logic"] 0)
           (mkSkill (u "анализ") (u "технические") 600 NOVICE 4 [u "logic"] 0)).
  - cbn [experience]. lra.
  - cbn [experience]. lra.
Defined.

Lemma name_update_level s : name (_update_level s) = name s.
Proof. unfold _update_level. destruct (find _ _); reflexivity. Qed.

Lemma skill_ok_init k s : skills init !! k = Some s -> skill_ok k s.
Proof.
  unfold init, _init_default_skills, defaults. simpl.
  rewrite !lookup_insert.
  repeat case_decide; try (intros [= <-]; subst k; unfold skill_ok, level_fits, new_Skill;
    cbn [name experience uses level XP_THRESHOLDS level_index];
    split; [reflexivity|]; split; [lra|]; split; [lia|]; split; [lra|];
    intros l; destruct l; cbn [XP_THRESHOLDS level_index]; intros; try lia; lra).
  all: rewrite lookup_empty; discriminate.
Qed.

Lemma skill_ok_fresh nm : skill_ok nm (new_Skill nm (u "общение") []).
Proof.
  unfold skill_ok, level_fits, new_Skill.
  cbn [name experience uses level XP_THRESHOLDS level_index].
  split; [reflexivity|]. split; [lra|]. split; [lia|]. split; [lra|].
  intros l; destruct l; cbn [XP_THRESHOLDS level_index]; intros; try lia; lra.
Qed.

Lemma skill_ok_prior nm sys :
  (forall k s, skills sys !! k = Some s -> skill_ok k s) ->
  skill_ok nm (prior_skill nm sys).
Proof.
  intros Hok. unfold prior_skill. destruct (skills sys !! nm) eqn:E; simpl.
  - apply Hok. assumption.
  - apply skill_ok_fresh.
Qed.

Lemma skill_ok_call c sys :
  forward c ->
  (forall k s, skills sys !! k = Some s -> skill_ok k s) ->
  forall k s, skills (run_call c sys) !! k = Some s -> skill_ok k s.
Proof.
  intros Hc Hok k s. destruct c as [nm success cycle|n]; unfold run_call.
  - destruct (decide (k = nm)) as [->|Hk].
    + rewrite use_skill_lookup. intros [= <-].
      destruct (skill_ok_prior nm sys Hok) as (Hn & He & Hu & _).
      pose proof (xp_gain_pos success _ Hu) as Hxp.
      unfold skill_ok. rewrite name_update_level, experience_update_level, uses_update_level.
      cbn [name experience uses].
      split; [assumption|]. split; [lra|]. split; [lia|].
      apply update_level_fits. cbn [experience]. lra.
    + rewrite use_skill_lookup_ne by assumption. apply Hok.
  - rewrite tick_lookup. destruct (skills sys !! k) as [s0|] eqn:E; [|discriminate].
    cbn [fmap option_fmap option_map]. intros [= <-].
    destruct (Hok k s0 E) as (Hn & He & Hu & _).
    simpl in Hc.
    pose proof (size_pos_lookup _ _ _ E) as Hsz.
    pose proof (tick_skill_bounds n (current_cycle sys + n) (0.5 * IZR n)
                  (size (skills sys)) s0 Hc) as (_ & _ & Hnn).
    assert (0 <= experience s0 + 0.5 * IZR n / IZR (Z.max (Z.of_nat (size (skills sys))) 1))%R
      as He1.
    { rewrite max_size by assumption.
      assert (0 < INR (size (skills sys)))%R by (apply lt_0_INR; lia).
      apply IZR_le in Hc.
      assert (0 <= 0.5 * IZR n / INR (size (skills sys)))%R.
      { unfold Rdiv. apply Rmult_le_pos; [lra|]. left. apply Rinv_0_lt_compat. lra. }
      lra. }
    specialize (Hnn He1).
    unfold skill_ok. split; [|split; [exact Hnn|split]].
    + unfold tick_skill. rewrite name_update_level. exact Hn.
    + rewrite uses_tick_skill. exact Hu.
    + unfold tick_skill in *. rewrite experience_update_level in Hnn.
      apply update_level_fits. exact Hnn.
Qed.

Lemma skill_ok_calls (cs : list call) :
  Forall forward cs ->
  forall k s, skills (run_calls cs init) !! k = Some s -> skill_ok k s.
Proof.
  induction cs as [|c cs IH] using rev_ind; intros Hcs.
  - apply skill_ok_init.
  - apply Forall_app in Hcs as [Hcs Hc]. apply Forall_inv in Hc.
    rewrite run_calls_snoc. apply skill_ok_call; [assumption|].
    apply IH. assumption.
Qed.

(** X2.  Every skill of a ledger grown from a fresh one by [use_skill] and
    [tick(n)], [n >= 0], is stored under its own name, has experience [>= 0]
    and uses [>= 0], and carries the level that fits its experience. *)
Theorem ledger_invariant (cs : list call) (k : str) (s : Skill) :
  Forall forward cs ->
  skills (run_calls cs init) !! k = Some s ->
  name s = k /\ (0 <= experience s)%R /\ (0 <= uses s)%Z /\ level_fits s.
Proof.
  intros Hcs Hk. destruct (skill_ok_calls cs Hcs k s Hk) as (Hn & He & Hu & Hl).
  split; [exact Hn|]. split; [exact He|]. split; [exact Hu|exact Hl].
Qed.

Lemma threshold_mono (l1 l2 : SkillLevel) :
  (level_index l1 <= level_index l2)%Z -> (XP_THRESHOLDS l1 <= XP_THRESHOLDS l2)%R.
Proof.
  destruct l1, l2; cbn [level_index XP_THRESHOLDS]; intros Hl; try lia; lra.
Qed.

(** X3.  On a ledger grown from a fresh one by [use_skill] and [tick(n)],
    [n >= 0], [get_level] counts the thresholds the experience of the skill
    has reached: the threshold of a level is reached exactly when the index of
    that level is at most [get_level].  The result lies between 0 and 4, and
    it is 0 for a name the ledger does not hold. *)
Theorem get_level_counts_thresholds (cs : list call) (nm : str) (l : SkillLevel) :
  Forall forward cs ->
  ((XP_THRESHOLDS l <= experience_of nm (run_calls cs init))%R <->
   (level_index l <= get_level nm (run_calls cs init))%Z) /\
  (0 <= get_level nm (run_calls cs init) <= 4)%Z /\
  (skills (run_calls cs init) !! nm = None -> get_level nm (run_calls cs init) = 0%Z).
Proof.
  intros Hcs. unfold experience_of, prior_skill, get_level.
  destruct (skills (run_calls cs init) !! nm) as [s|] eqn:Hs; cbn [default from_option].
  - destruct (skill_ok_calls cs Hcs nm s Hs) as (_ & _ & _ & Hthr & Hmax).
    split; [|split; [destruct (level s); cbn [level_index]; lia|discriminate]].
    split; [apply Hmax|].
    intros Hl. apply threshold_mono in Hl. unfold Datatypes.id. lra.
  - split; [|split; [lia|reflexivity]].
    cbn [new_Skill experience].
    destruct l; cbn [XP_THRESHOLDS level_index]; split; intros Hl; try lia; lra.
Qed.

Lemma get_level_counts_thresholds_witness :
  ((XP_THRESHOLDS BEGINNER
    <= experience_of (u "эмпатия") (run_calls [Use (u "эмпатия") true None; Tick 1] init))%R <->
   (level_index BEGINNER
    <= get_level (u "эмпатия") (run_calls [Use (u "эмпатия") true None; Tick 1] init))%Z) /\
  (0 <= get_level (u "эмпатия") (run_calls [Use (u "эмпатия") true None; Tick 1] init)
     <= 4)%Z /\
  (skills (run_calls [Use (u "эмпатия") true None; Tick 1] init) !! u "эмпатия" = None ->
   get_level (u "эмпатия") (run_calls [Use (u "эмпатия") true None; Tick 1] init) = 0%Z).
Proof.
  apply (get_level_counts_thresholds [Use (u "эмпатия") true None; Tick 1] (u "эмпатия")
           BEGINNER).
  constructor; [exact I|]. constructor; [cbn [forward]; lia|constructor].
Defined.

Lemma ledger_invariant_witness :
  name (prior_skill (u "эмпатия") (run_calls [Use (u "эмпатия") true None; Tick 1] init))
    = u "эмпатия" /\
  (0 <= experience
          (prior_skill (u "эмпатия") (run_calls [Use (u "эмпатия") true None; Tick 1] init)))%R /\
  (0 <= uses
          (prior_skill (u "эмпатия") (run_calls [Use (u "эмпатия") true None; Tick 1] init)))%Z /\
  level_fits
    (prior_skill (u "эмпатия") (run_calls [Use (u "эмпатия") true None; Tick 1] init)).
Proof.
  apply (ledger_invariant [Use (u "эмпатия") true None; Tick 1] (u "эмпатия")).
  - constructor; [exact I|]. constructor; [cbn [forward]; lia|constructor].
  - apply prior_skill_lookup. unfold run_calls. cbn [fold_left run_call].
    rewrite tick_lookup, use_skill_lookup. eexists. reflexivity.
Defined.

(** X4.  One call of [use_skill] on a skill with uses [>= 0] grants between
    the base XP (10 on success, 3 otherwise) and twice the base; it grants
    exactly twice the base from the 100th prior use on, and exactly the base
    for a name the ledger does not hold yet. *)
Theorem use_skill_xp_range (nm : str) (success : bool) (cycle : option Z)
    (sys : SkillSystem) :
  (0 <= uses (prior_skill nm sys))%Z ->
  let base : R := if success then 10%R else 3%R in
  let xp := fst (use_skill nm success cycle sys) in
  (base <= xp <= 2 * base)%R /\
  ((100 <= uses (prior_skill nm sys))%Z -> xp = (2 * base)%R) /\
  (skills sys !! nm = None -> xp = base).
Proof.
  intros Hu base xp. unfold xp. rewrite use_skill_xp. unfold xp_gain. fold base.
  assert (0 < base)%R as Hb by (unfold base; destruct success; lra).
  apply IZR_le in Hu as Hu'.
  split; [|split].
  - unfold Rmin. destruct (Rle_dec _ _); nra.
  - intros H100. apply IZR_le in H100. unfold Rmin. destruct (Rle_dec _ _); nra.
  - intros Hnone. unfold prior_skill. rewrite Hnone. cbn [default new_Skill uses].
    unfold Rmin. destruct (Rle_dec _ _); lra.
Qed.

Lemma use_skill_xp_range_witness :
  let base : R := 10%R in
  let xp := fst (use_skill (u "новый") true None init) in
  (base <= xp <= 2 * base)%R /\
  ((100 <= uses (prior_skill (u "новый") init))%Z -> xp = (2 * base)%R) /\
  (skills init !! u "новый" = None -> xp = base).
Proof.
  apply (use_skill_xp_range (u "новый") true None init).
  vm_compute. discriminate.
Defined.

Lemma prior_skill_name nm sys :
  (forall k s, skills sys !! k = Some s -> name s = k) ->
  name (prior_skill nm sys) = nm.
Proof.
  intros Hn. unfold prior_skill. destruct (skills sys !! nm) eqn:E; simpl; [|reflexivity].
  apply Hn. assumption.
Qed.

(** X5.  [use_skill(name)] leaves every other skill and the cycle counter as
    they are; the ledger grows by one skill exactly when it did not hold
    [name]; afterwards the skill [name] has one more use, was last used at
    [cycle] (at the current cycle when [cycle] is [None]) and has the category
    and the tags it had. *)
Theorem use_skill_touches_one_skill (nm : str) (success : bool) (cycle : option Z)
    (sys : SkillSystem) :
  (forall k, k <> nm ->
     skills (snd (use_skill nm success cycle sys)) !! k = skills sys !! k) /\
  current_cycle (snd (use_skill nm success cycle sys)) = current_cycle sys /\
  size (skills (snd (use_skill nm success cycle sys))) =
    (match skills sys !! nm with
     | Some _ => size (skills sys)
     | None => S (size (skills sys))
     end) /\
  exists s',
    skills (snd (use_skill nm success cycle sys)) !! nm = Some s' /\
    uses s' = (uses (prior_skill nm sys) + 1)%Z /\
    last_used_cycle s' = default (current_cycle sys) cycle /\
    category s' = category (prior_skill nm sys) /\
    tags s' = tags (prior_skill nm sys).
Proof.
  split; [intros k Hk; apply use_skill_lookup_ne; assumption|].
  split; [reflexivity|].
  split.
  - unfold use_skill. cbn [snd skills].
    destruct (skills sys !! nm) as [s|] eqn:E.
    + rewrite map_size_insert_Some; [reflexivity|]. rewrite E. eauto.
    + rewrite insert_insert_eq. rewrite map_size_insert_None by assumption. reflexivity.
  - eexists. split; [apply use_skill_lookup|].
    unfold _update_level. destruct (find _ _); cbn [uses last_used_cycle category tags set_level];
      (split; [reflexivity|]; split; [destruct cycle; reflexivity|]; split; reflexivity).
Qed.

Lemma tick_skill_fields n cur p k s :
  name (tick_skill n cur p k s) = name s /\
  category (tick_skill n cur p k s) = category s /\
  uses (tick_skill n cur p k s) = uses s /\
  tags (tick_skill n cur p k s) = tags s /\
  last_used_cycle (tick_skill n cur p k s) = last_used_cycle s.
Proof.
  unfold tick_skill, _update_level. destruct (find _ _); repeat split; reflexivity.
Qed.

(** X6.  [tick(n)] advances the cycle counter by [n] and the total experience
    by [0.5 * n]; the ledger holds the same names afterwards, and every skill
    keeps its name, category, uses, tags and cycle of last use. *)
Theorem tick_keeps_the_skill_set (n : Z) (sys : SkillSystem) :
  current_cycle (tick n sys) = (current_cycle sys + n)%Z /\
  total_experience (tick n sys) = (total_experience sys + 0.5 * IZR n)%R /\
  dom (skills (tick n sys)) = dom (skills sys) /\
  forall k s',
    skills (tick n sys) !! k = Some s' ->
    exists s,
      skills sys !! k = Some s /\
      name s' = name s /\ category s' = category s /\ uses s' = uses s /\
      tags s' = tags s /\ last_used_cycle s' = last_used_cycle s.
Proof.
  split; [reflexivity|]. split; [reflexivity|].
  split; [unfold tick; cbn [skills]; apply dom_fmap_L|].
  intros k s'. rewrite tick_lookup.
  destruct (skills sys !! k) as [s|] eqn:E; [|discriminate].
  cbn [fmap option_fmap option_map]. intros [= <-].
  exists s. split; [reflexivity|]. apply tick_skill_fields.
Qed.

Lemma b64_ltb_leb (x y : PrimFloat.float) :
  PrimFloat.ltb x y = true -> PrimFloat.leb x y = true.
Proof.
  rewrite FloatAxioms.ltb_spec, FloatAxioms.leb_spec.
  unfold SpecFloat.SFltb, SpecFloat.SFleb.
  destruct (SpecFloat.SFcompare _ _) as [[| |]|]; congruence.
Qed.

(** [max(0.0, x)] is never below 0, whatever [x] is (an infinity or NaN as
    well). *)
Lemma b64_max_nonneg (x : PrimFloat.float) :
  PrimFloat.leb 0 (binary64.max 0 x) = true.
Proof.
  unfold binary64.max. destruct (PrimFloat.ltb 0 x) eqn:E.
  - apply b64_ltb_leb. exact E.
  - vm_compute. reflexivity.
Qed.

Lemma b64_experience_tick_skill c cur p k s :
  binary64.experience (binary64.tick_skill c cur p k s) =
  if bool_decide (50 < cur - binary64.last_used_cycle s)%Z
     && PrimFloat.ltb 0 (binary64.experience s + p / k)
  then binary64.max 0 (binary64.experience s + p / k
                       - (binary64.experience s + p / k) * 0.001 * c)%float
  else (binary64.experience s + p / k)%float.
Proof.
  unfold binary64.tick_skill. rewrite b64_experience_update_level. reflexivity.
Qed.


(** X7.  [tick(n)] adds the passive share [0.5 * n / len(skills)] to a skill.
    When the skill was used within the last 50 cycles (counted with the
    counter already advanced), or when the sum is not positive, that is all;
    otherwise the decay [sum * 0.001 * n] is subtracted and the result is
    kept at 0 or above.  This holds in exact arithmetic and in binary64,
    where the result of the decay is never below 0 whatever the operands
    are.  There the subtraction is rounded: after two calls of [use_skill],
    [tick(74)] and [tick(1000)] the dormant skill goes from [25.465] to
    [1.4210854715202004e-14], not to 0. *)
Theorem tick_forgetting_curve :
  (forall (sys : SkillSystem) (n : Z) (nm : str) (skill : Skill),
      skills sys !! nm = Some skill ->
      exists skill',
        skills (tick n sys) !! nm = Some skill' /\
        ((current_cycle sys + n - last_used_cycle skill <= 50)%Z ->
         experience skill' = (experience skill + passive_share n sys)%R) /\
        ((experience skill + passive_share n sys <= 0)%R ->
         experience skill' = (experience skill + passive_share n sys)%R) /\
        ((50 < current_cycle sys + n - last_used_cycle skill)%Z ->
         (0 < experience skill + passive_share n sys)%R ->
         experience skill' =
           Rmax 0 (experience skill + passive_share n sys
                   - (experience skill + passive_share n sys) * 0.001 * IZR n))) /\
  (forall (sys sys' : binary64.SkillSystem) (n : Z) (nm : str) (skill : binary64.Skill),
      binary64.tick n sys = (Ret tt, sys') ->
      binary64.skills sys !! nm = Some skill ->
      exists (c k : PrimFloat.float) (skill' : binary64.Skill),
        binary64.float_of_int n = Ret c /\
        binary64.float_of_int (Z.max (Z.of_nat (size (binary64.skills sys))) 1) = Ret k /\
        binary64.skills sys' !! nm = Some skill' /\
        if bool_decide (50 < binary64.current_cycle sys + n
                             - binary64.last_used_cycle skill)%Z
           && PrimFloat.ltb 0 (binary64.experience skill + 0.5 * c / k)
        then
          binary64.experience skill' =
            binary64.max 0
              (binary64.experience skill + 0.5 * c / k
               - (binary64.experience skill + 0.5 * c / k) * 0.001 * c)%float /\
          PrimFloat.leb 0 (binary64.experience skill') = true
        else
          binary64.experience skill' = (binary64.experience skill + 0.5 * c / k)%float) /\
  (fst (binary64.run_calls
          [Use (u "эмпатия") true None; Use (u "эмпатия") true None; Tick 74; Tick 1000]
          binary64.init) = Ret tt /\
   binary64.experience_of (u "эмпатия")
     (snd (binary64.run_calls
             [Use (u "эмпатия") true None; Use (u "эмпатия") true None; Tick 74]
             binary64.init)) = 25.465%float /\
   binary64.experience_of (u "эмпатия")
     (snd (binary64.run_calls
             [Use (u "эмпатия") true None; Use (u "эмпатия") true None; Tick 74; Tick 1000]
             binary64.init)) = 1.4210854715202004e-14%float).
Proof.
  split; [|split].
  - intros sys n nm skill Hk. eexists. rewrite tick_lookup, Hk. split; [reflexivity|].
    pose proof (size_pos_lookup _ _ _ Hk) as Hsz.
    rewrite experience_tick_skill. cbv zeta. rewrite max_size by assumption.
    unfold passive_share.
    set (e1 := (experience skill + 0.5 * IZR n / INR (size (skills sys)))%R).
    split; [|split].
    + intros Hd. rewrite bool_decide_eq_false_2 by lia. reflexivity.
    + intros He. rewrite (bool_decide_eq_false_2 (0 < e1)%R) by lra.
      rewrite andb_false_r. reflexivity.
    + intros Hd He. rewrite (bool_decide_eq_true_2 _ Hd), (bool_decide_eq_true_2 _ He).
      reflexivity.
  - intros sys sys' n nm skill Ht Hk. unfold binary64.tick in Ht.
    destruct (binary64.float_of_int n) as [c|e]; [|discriminate].
    destruct (binary64.float_of_int (Z.max _ 1)) as [k|e]; [|discriminate].
    injection Ht as <-. exists c, k. eexists.
    split; [reflexivity|]. split; [reflexivity|].
    cbn [binary64.skills]. rewrite lookup_fmap, Hk. split; [reflexivity|].
    rewrite b64_experience_tick_skill.
    destruct (bool_decide _ && _); [|reflexivity].
    split; [reflexivity|apply b64_max_nonneg].
  - split; [vm_compute; reflexivity|]. split; vm_compute; reflexivity.
Qed.

End ledger_facts.

(** * Further properties of the analyzer and the generator *)

Module analyzer_facts.
Import analyzer analyzer_props cycle_facts.

Section WithCollaborators.
Context `{Collaborators}.

Open Scope string_scope.
Open Scope list_scope.

Lemma Int_part_IZR (z : Z) : Int_part (IZR z) = z.
Proof. symmetry. apply Int_part_spec. lra. Qed.

Lemma int_of_float_IZR (z : Z) : int_of_float (IZR z) = z.
Proof.
  unfold int_of_float. case_bool_decide.
  - apply Int_part_IZR.
  - rewrite <- opp_IZR, Int_part_IZR. lia.
Qed.

Lemma normalize_quotient (a b : Z) :
  b <> 0%Z -> normalize (PyFloat (IZR a / IZR b)) = quotient a b.
Proof.
  intros Hb. unfold normalize, quotient, is_integer.
  assert (IZR b <> 0%R) as Hb' by (apply not_0_IZR; assumption).
  destruct (a mod b =? 0)%Z eqn:Hm.
  - apply Z.eqb_eq in Hm. apply Z.div_exact in Hm; [|assumption].
    assert (IZR a / IZR b = IZR (a / b))%R as ->.
    { rewrite Hm at 1. rewrite mult_IZR. field. assumption. }
    rewrite Int_part_IZR, bool_decide_eq_true_2 by reflexivity.
    rewrite int_of_float_IZR. reflexivity.
  - apply Z.eqb_neq in Hm. rewrite bool_decide_eq_false_2; [reflexivity|].
    intros Heq. apply Hm.
    assert (IZR a = IZR (Int_part (IZR a / IZR b) * b)) as Ha.
    { rewrite mult_IZR, <- Heq. field. assumption. }
    apply eq_IZR in Ha. rewrite Ha. apply Z.mod_mul. assumption.
Qed.

(** X9.  For operands below [2^53] and a divisor [b > 0], [_solve_math]
    prints the sum, the difference and the product as integers, and the
    quotient as an integer when [b] divides [a] and as a float otherwise (in
    this range the float quotient of the code is an integer exactly when [b]
    divides [a]).  A division by 0 gives the fixed message about dividing by
    zero, and an operator other than [+ - * /] the fixed message that the
    expression could not be computed. *)
Theorem solve_math_results (a b : Z) :
  (0 <= a < 2 ^ 53)%Z ->
  (0 < b < 2 ^ 53)%Z ->
  _solve_math (a, u "+", b) = format_equation a (u "+") b (PyInt (a + b)) /\
  _solve_math (a, u "-", b) = format_equation a (u "-") b (PyInt (a - b)) /\
  _solve_math (a, u "*", b) = format_equation a (u "*") b (PyInt (a * b)) /\
  _solve_math (a, u "/", b) = format_equation a (u "/") b (quotient a b) /\
  _solve_math (a, u "/", 0%Z) = u "На ноль делить нельзя!" /\
  (forall op, op ∉ [u "+"; u "-"; u "*"; u "/"] ->
     _solve_math (a, op, b) = u "Не смог посчитать это выражение.").
Proof.
  intros _ Hpos. assert (b <> 0%Z) as Hb by lia. clear Hpos.
  assert ((b =? 0)%Z = false) as Hb0 by (apply Z.eqb_neq; assumption).
  unfold _solve_math, apply_op, ops.
  split; [eval_literals; reflexivity|].
  split; [eval_literals; reflexivity|].
  split; [eval_literals; reflexivity|].
  split.
  { eval_literals. rewrite Hb0. rewrite normalize_quotient by assumption. reflexivity. }
  split; [eval_literals; reflexivity|].
  intros op Hop. unfold str_eqb.
  repeat (rewrite bool_decide_eq_false_2; [|intros ->; apply Hop; set_solver]).
  reflexivity.
Qed.

Lemma Message_get_input (m : Message) : Message_get m (u "input") (u "") = u "".
Proof. unfold Message_get. eval_literals. reflexivity. Qed.

(** X10.  With a non-empty context [_answer_generic_question] always writes
    an empty topic between the parentheses, whatever the context holds: the
    entries of the context have the keys [role] and [content], never [input].
    With an empty or a missing context the reply is the fixed request to
    clarify. *)
Theorem generic_question_topic_is_empty (analysis : Analysis) (context : list Message) :
  context <> [] ->
  _answer_generic_question analysis (Some context) =
    u "Ты спрашиваешь про то, что мы обсуждали ()? Уточни, пожалуйста." /\
  _answer_generic_question analysis (Some []) =
    u "Интересный вопрос! Можешь уточнить, что именно тебя интересует?" /\
  _answer_generic_question analysis None =
    u "Интересный вопрос! Можешь уточнить, что именно тебя интересует?".
Proof.
  intros Hne. split; [|split; reflexivity].
  unfold _answer_generic_question. destruct context as [|m ms]; [congruence|].
  assert (match last (m :: ms) with
          | Some m0 => Message_get m0 (u "input") (u "")
          | None => u ""
          end = u "") as ->.
  { destruct (last (m :: ms)); [apply Message_get_input|reflexivity]. }
  vm_compute. reflexivity.
Qed.

Lemma first_pattern_type ps text_lower query_type m :
  first_pattern ps text_lower = Some (query_type, m) -> query_type ∈ map fst ps.
Proof.
  induction ps as [|[qt p] ps IH]; cbn [first_pattern map fst]; [discriminate|].
  destruct (search p text_lower) as [m'|].
  - intros [= <- _]. apply elem_of_cons. left. reflexivity.
  - intros Hf. apply elem_of_cons. right. apply IH. exact Hf.
Qed.

Lemma unknown_is_no_pattern : u "unknown" ∉ map fst patterns.
Proof.
  apply (bool_decide_unpack (u "unknown" ∉ map fst patterns)). vm_compute. exact I.
Qed.

(** Which entries an analysis holds, by its type. *)
Lemma analyze_shape (text : str) :
  original (analyze text) = text /\
  (type_ (analyze text) = u "unknown" \/ type_ (analyze text) ∈ map fst patterns) /\
  (type_ (analyze text) = u "math" <-> is_Some (operands (analyze text))) /\
  (type_ (analyze text) = u "math" \/ type_ (analyze text) = u "unknown" <->
   subject (analyze text) = None).
Proof.
  assert (u "unknown" <> u "math") as Hum by (intros Heq; vm_compute in Heq; discriminate).
  unfold analyze. cbv zeta.
  destruct (first_pattern patterns (strip (lower text))) as [[qt m]|] eqn:Hf.
  - apply first_pattern_type in Hf.
    assert (qt <> u "unknown") as Hqu.
    { intros ->. apply unknown_is_no_pattern. exact Hf. }
    unfold str_eqb. case_bool_decide as Hq; cbn [original type_ operands subject].
    + split; [reflexivity|]. split; [right; exact Hf|].
      split; [split; [intros _; eexists; reflexivity|intros _; exact Hq]|].
      split; [reflexivity|intros _; left; exact Hq].
    + split; [reflexivity|]. split; [right; exact Hf|].
      split; [split; [intros Heq; contradiction|intros [x Hx]; discriminate]|].
      split; [intros [Heq|Heq]; contradiction|discriminate].
  - cbn [original type_ operands subject].
    split; [reflexivity|]. split; [left; reflexivity|].
    split; [split; [intros Heq; contradiction|intros [x Hx]; discriminate]|].
    split; [reflexivity|intros _; right; reflexivity].
Qed.

(** X11.  [analyze] keeps the text as [original]; the type is [unknown] or the
    name of one of the patterns; the operands are present exactly when the
    type is [math], and the subject is absent exactly when the type is [math]
    or [unknown].  For the type [math], [generate] answers with [_solve_math]
    of the operands and leaves the online brain alone: its lookup of the
    operands never fails. *)
Theorem analysis_keys_by_type (text : str) (context : option (list Message))
    (ob : option OnlineBrain) :
  original (analyze text) = text /\
  (type_ (analyze text) = u "unknown" \/ type_ (analyze text) ∈ map fst patterns) /\
  (type_ (analyze text) = u "math" <-> is_Some (operands (analyze text))) /\
  (type_ (analyze text) = u "math" \/ type_ (analyze text) = u "unknown" <->
   subject (analyze text) = None) /\
  (type_ (analyze text) = u "math" ->
   exists operands',
     operands (analyze text) = Some operands' /\
     generate text context ob = (Some (_solve_math operands'), ob)).
Proof.
  destruct (analyze_shape text) as (Ho & Ht & Hm & Hs).
  split; [exact Ho|]. split; [exact Ht|]. split; [exact Hm|]. split; [exact Hs|].
  intros Hmath. destruct (proj1 Hm Hmath) as [operands' Hop].
  exists operands'. split; [exact Hop|].
  unfold generate. cbv zeta. unfold str_eqb.
  rewrite (bool_decide_eq_true_2 _ Hmath), Hop. reflexivity.
Qed.

End WithCollaborators.

(** *** Matches of a repeated character class *)

Section ClassRuns.
Context {A : Type} (p : char -> bool).

Lemma rmatch_star_cls_cons x s caps (k : str -> captures -> option A) :
  rmatch (Star (Cls p)) (x :: s) caps k =
  match (if p x then rmatch (Star (Cls p)) s caps k else None) with
  | Some a => Some a
  | None => k (x :: s) caps
  end.
Proof.
  cbn [rmatch length].
  assert ((length s <? S (length s))%nat = true) as -> by (apply Nat.ltb_lt; lia).
  reflexivity.
Qed.

Lemma rmatch_star_cls_inv s caps (k : str -> captures -> option A) a :
  rmatch (Star (Cls p)) s caps k = Some a ->
  exists m s', s = m ++ s' /\ Forall (fun c => p c = true) m /\ k s' caps = Some a.
Proof.
  induction s as [|x s IH].
  - cbn [rmatch length]. intros Hk. exists [], []. auto.
  - rewrite rmatch_star_cls_cons. destruct (p x) eqn:Hp.
    + destruct (rmatch (Star (Cls p)) s caps k) as [a'|] eqn:Hs.
      * intros [= <-]. destruct (IH eq_refl) as (m & s' & -> & Hm & Hk).
        exists (x :: m), s'. split; [reflexivity|]. split; [constructor; assumption|assumption].
      * intros Hk. exists [], (x :: s). auto.
    + intros Hk. exists [], (x :: s). auto.
Qed.

Lemma rmatch_plus_cls_inv s caps (k : str -> captures -> option A) a :
  rmatch (Plus (Cls p)) s caps k = Some a ->
  exists m s', s = m ++ s' /\ m <> [] /\ Forall (fun c => p c = true) m /\ k s' caps = Some a.
Proof.
  unfold Plus. cbn [rmatch]. destruct s as [|x s]; [discriminate|].
  destruct (p x) eqn:Hp; [|discriminate].
  intros Hs. apply rmatch_star_cls_inv in Hs as (m & s' & -> & Hm & Hk).
  exists (x :: m), s'. split; [reflexivity|]. split; [discriminate|].
  split; [constructor; assumption|assumption].
Qed.

End ClassRuns.

Lemma findall_plus_cls (p : char -> bool) (fuel : nat) (s : str) :
  Forall (fun w => w <> [] /\ Forall (fun c => p c = true) w)
         (findall_fuel fuel (Plus (Cls p)) s).
Proof.
  revert s. induction fuel as [|fuel IH]; intros s; cbn [findall_fuel]; [constructor|].
  destruct (rmatch (Plus (Cls p)) s [] (fun s' _ => Some s')) as [s'|] eqn:Hm.
  - apply rmatch_plus_cls_inv in Hm as (m & s'' & -> & Hne & Hp & [= <-]).
    rewrite length_app.
    replace (length m + length s'' - length s'')%nat with (length m) by lia.
    rewrite take_app_length.
    destruct m as [|c m]; [congruence|].
    constructor; [split; [discriminate|assumption]|apply IH].
  - destruct s; [constructor|apply IH].
Qed.

(** X12.  Every keyword [_extract_keywords] returns is no stop word, has at
    least 3 characters, and consists of lower-case Cyrillic or Latin letters
    only. *)
Theorem keywords_are_long_lowercase_words (text w : str) :
  (w ∈ _extract_keywords text) ->
  (w ∉ stop_words) /\ (2 < length w)%nat /\ Forall is_word_char w.
Proof.
  unfold _extract_keywords. cbv zeta. intros Hw.
  apply (proj1 (list_elem_of_filter _ _ _)) in Hw. destruct Hw as [Hf Hw].
  apply andb_true_iff in Hf as [Hstop Hlen].
  split; [|split].
  - apply negb_true_iff in Hstop. unfold mem in Hstop.
    intros Hin. rewrite (bool_decide_eq_true_2 _ Hin) in Hstop. discriminate.
  - apply Nat.ltb_lt in Hlen. assumption.
  - unfold findall, word_char in Hw.
    pose proof (findall_plus_cls
                  (fun c => ((1072 <=? c) && (c <=? 1103) || (c =? 1105)
                             || (97 <=? c) && (c <=? 122))%N)
                  (S (length (lower text))) (lower text)) as Hall.
    rewrite Forall_forall in Hall. destruct (Hall w Hw) as [_ Hchars].
    eapply Forall_impl; [exact Hchars|].
    intros c Hc. unfold is_word_char. cbv beta in Hc.
    apply orb_true_iff in Hc as [Hc|Hc]; [apply orb_true_iff in Hc as [Hc|Hc]|].
    + apply andb_true_iff in Hc as [H1 H2].
      apply N.leb_le in H1, H2. left. lia.
    + apply N.eqb_eq in Hc. right. left. assumption.
    + apply andb_true_iff in Hc as [H1 H2].
      apply N.leb_le in H1, H2. right. right. lia.
Qed.

Lemma keywords_are_long_lowercase_words_witness :
  (u "python" ∉ stop_words) /\ (2 < length (u "python"))%nat /\
  Forall is_word_char (u "python").
Proof.
  apply (keywords_are_long_lowercase_words (u "Как дела, Python?") (u "python")).
  apply (bool_decide_unpack (u "python" ∈ _extract_keywords (u "Как дела, Python?"))).
  vm_compute. exact I.
Defined.

(** *** On the offline deployment *)

Import offline.

Open Scope string_scope.

Lemma solve_math_results_witness :
  _solve_math (7, u "+", 2)%Z = format_equation 7 (u "+") 2 (PyInt (7 + 2)) /\
  _solve_math (7, u "-", 2)%Z = format_equation 7 (u "-") 2 (PyInt (7 - 2)) /\
  _solve_math (7, u "*", 2)%Z = format_equation 7 (u "*") 2 (PyInt (7 * 2)) /\
  _solve_math (7, u "/", 2)%Z = format_equation 7 (u "/") 2 (quotient 7 2) /\
  _solve_math (7%Z, u "/", 0%Z) = u "На ноль делить нельзя!" /\
  (forall op, op ∉ [u "+"; u "-"; u "*"; u "/"] ->
     _solve_math (7%Z, op, 2%Z) = u "Не смог посчитать это выражение.").
Proof.
  apply (solve_math_results 7 2); lia.
Defined.

Lemma generic_question_topic_is_empty_witness :
  _answer_generic_question (analyze (u "ну?")) (Some [mkMessage (u "user") (u "ну?")]) =
    u "Ты спрашиваешь про то, что мы обсуждали ()? Уточни, пожалуйста." /\
  _answer_generic_question (analyze (u "ну?")) (Some []) =
    u "Интересный вопрос! Можешь уточнить, что именно тебя интересует?" /\
  _answer_generic_question (analyze (u "ну?")) None =
    u "Интересный вопрос! Можешь уточнить, что именно тебя интересует?".
Proof.
  apply (generic_question_topic_is_empty (analyze (u "ну?")) [mkMessage (u "user") (u "ну?")]).
  discriminate.
Defined.

End analyzer_facts.

(** * Further properties of the turn orchestrator *)

Module turn_facts.
Import analyzer cognitive_cycle plan_order cycle_facts turn_props.

Section WithCollaborators.
Context `{Collaborators}.

Open Scope string_scope.
Open Scope list_scope.

Lemma when_goal_Forall (P : str -> Prop) goal goals acts plan :
  Forall P acts -> Forall P plan -> Forall P (when_goal goal goals acts plan).
Proof.
  intros Ha Hp. unfold when_goal. destruct (mem _ _); [|assumption].
  apply Forall_app. split; assumption.
Qed.

Lemma make_plan_Forall (P : str -> Prop) intent goals context retrieved self :
  Forall P construction_order ->
  Forall P (_make_plan intent goals context retrieved self).
Proof.
  intros Hall.
  assert (forall a, a ∈ construction_order -> P a) as HP.
  { apply Forall_forall. assumption. }
  assert (forall a : string, bool_decide (u a ∈ construction_order) = true -> P (u a)) as HPa.
  { intros a Ha. apply HP. apply bool_decide_eq_true in Ha. assumption. }
  unfold _make_plan.
  destruct (mem (u "reset_memory") goals).
  { repeat constructor. apply HPa. vm_compute. reflexivity. }
  destruct (mem (u "report_internal_state") goals).
  { repeat constructor. apply HPa. vm_compute. reflexivity. }
  match goal with
  | |- Forall P (match ?p with [] => _ | _ => _ end) =>
    assert (Forall P p) as Hplan; [|destruct p; [|exact Hplan]]
  end.
  - repeat (apply when_goal_Forall;
            [repeat constructor; try (apply HPa; vm_compute; reflexivity)|]).
    + destruct (client self); apply HPa; vm_compute; reflexivity.
    + constructor.
  - repeat constructor. apply HPa. vm_compute. reflexivity.
Qed.

Lemma make_plan_nonempty intent goals context retrieved self :
  _make_plan intent goals context retrieved self <> [].
Proof.
  unfold _make_plan.
  destruct (mem (u "reset_memory") goals); [discriminate|].
  destruct (mem (u "report_internal_state") goals); [discriminate|].
  match goal with
  | |- (match ?p with [] => _ | _ => _ end) <> [] => destruct p; discriminate
  end.
Qed.

(** X13.  [_make_plan] never returns an empty plan, and every action of a plan
    is one of the twelve action names of plan construction; goals none of
    which plan construction knows give the plan [[use_fallback_logic]]. *)
Theorem plan_is_never_empty (intent : str) (goals : list str) (context : list Message)
    (retrieved : list Episode) (self : CognitiveCycle) :
  _make_plan intent goals context retrieved self <> [] /\
  Forall (fun a => a ∈ construction_order)
         (_make_plan intent goals context retrieved self) /\
  (Forall (fun g => g ∉ [u "reset_memory"; u "report_internal_state"; u "comfort_user";
                         u "show_empathy"; u "describe_capabilities"; u "ack_search_skill";
                         u "maybe_online_search"; u "offer_simple_game";
                         u "try_answer_question"; u "keep_conversation"]) goals ->
   _make_plan intent goals context retrieved self = [u "use_fallback_logic"]).
Proof.
  split; [apply make_plan_nonempty|].
  split.
  - apply make_plan_Forall. apply Forall_forall. auto.
  - intros Hg.
    assert (forall g : string,
               bool_decide (u g ∈ [u "reset_memory"; u "report_internal_state";
                 u "comfort_user"; u "show_empathy"; u "describe_capabilities";
                 u "ack_search_skill"; u "maybe_online_search"; u "offer_simple_game";
                 u "try_answer_question"; u "keep_conversation"]) = true ->
               mem (u g) goals = false) as Hno.
    { intros g Hin. apply bool_decide_eq_true in Hin.
      unfold mem. apply bool_decide_eq_false. intros Hgm.
      rewrite Forall_forall in Hg. apply (Hg _ Hgm). exact Hin. }
    unfold _make_plan, when_goal.
    rewrite !Hno by (vm_compute; reflexivity). reflexivity.
Qed.

Lemma infer_intent_cases text : _infer_intent text ∈ intents.
Proof.
  assert (forall i : string, bool_decide (u i ∈ intents) = true -> u i ∈ intents) as Hin.
  { intros i Hi. apply bool_decide_eq_true in Hi. assumption. }
  unfold _infer_intent.
  repeat match goal with
  | |- (if ?b then _ else _) ∈ _ => destruct b; [apply Hin; vm_compute; reflexivity|]
  end.
  apply Hin. vm_compute. reflexivity.
Qed.

Lemma plan_of_intent (i : str) context retrieved self :
  i ∈ intents ->
  _make_plan i (_form_goals i) context retrieved self =
  turn_plan i (bool_decide (is_Some (client self))).
Proof.
  unfold intents. cbn [map]. intros Hi.
  repeat (apply elem_of_cons in Hi as [->|Hi]);
    [..|apply elem_of_nil in Hi; contradiction].
  all: unfold _make_plan; destruct (client self); vm_compute; reflexivity.
Qed.

Lemma action_of_intent (i : str) self :
  i ∈ intents ->
  deciding_action self (turn_plan i (bool_decide (is_Some (client self)))) =
  match turn_action i (bool_decide (is_Some (client self))) with
  | Some a => [a]
  | None => []
  end.
Proof.
  unfold intents. cbn [map]. intros Hi. rewrite deciding_action_eq.
  repeat (apply elem_of_cons in Hi as [->|Hi]);
    [..|apply elem_of_nil in Hi; contradiction].
  all: destruct (bool_decide (is_Some (client self))); vm_compute; reflexivity.
Qed.

(** X14.  [_infer_intent] returns one of nine intents.  The plan of a turn is
    a function of the intent and of whether a client is configured (which
    matters for [generic_question] only), and so is the one action that
    decides the reply.  [use_empathy_skill] and [maybe_online_search] never
    decide the reply of a turn, although plans hold them: a turn never
    reaches the empathy reply or [_online_search_response]. *)
Theorem plan_and_action_by_intent (text : str) (context : list Message)
    (retrieved : list Episode) (self : CognitiveCycle) :
  let intent := _infer_intent text in
  let has_client := bool_decide (is_Some (client self)) in
  intent ∈ intents /\
  _make_plan intent (_form_goals intent) context retrieved self =
    turn_plan intent has_client /\
  deciding_action self (turn_plan intent has_client) =
    match turn_action intent has_client with
    | Some a => [a]
    | None => []
    end /\
  turn_action intent has_client <> Some (u "use_empathy_skill") /\
  turn_action intent has_client <> Some (u "maybe_online_search").
Proof.
  cbv zeta. pose proof (infer_intent_cases text) as Hi.
  split; [exact Hi|]. split; [apply plan_of_intent; exact Hi|].
  split; [apply action_of_intent; exact Hi|].
  generalize dependent (_infer_intent text). intros i Hi.
  unfold intents in Hi. cbn [map] in Hi.
  repeat (apply elem_of_cons in Hi as [->|Hi]);
    [..|apply elem_of_nil in Hi; contradiction].
  all: destruct (bool_decide (is_Some (client self))); split; vm_compute; discriminate.
Qed.

(** *** Every step but the state report returns a reply *)

Lemma fallback_response_ret text self :
  exists r, fst (_fallback_response text self) = Ret r.
Proof.
  unfold _fallback_response.
  destruct (any_in _ _); [eexists; reflexivity|].
  destruct (contains _ _); [eexists; reflexivity|].
  destruct (_ ≫= _); [eexists; reflexivity|].
  destruct (_ ≫= _); [eexists; reflexivity|].
  destruct (any_in _ _); [eexists; reflexivity|].
  destruct (contains _ _); [eexists; reflexivity|].
  destruct (contains _ _); eexists; reflexivity.
Qed.

Lemma respond_by_rules_ret text context self :
  exists r, fst (respond_by_rules text context self) = Ret r.
Proof.
  unfold respond_by_rules, mbind, M_bind, bind, act.
  destruct (generate _ _ _) as [g ob].
  destruct g as [[|c g]|]; try apply fallback_response_ret.
  eexists. reflexivity.
Qed.

Lemma generate_llm_response_ret text context retrieved self :
  exists r, fst (_generate_llm_response text context retrieved self) = Ret r.
Proof.
  unfold _generate_llm_response, mbind, M_bind.
  erewrite bind_Ret by (unfold gets; reflexivity).
  destruct (client self) as [cl|]; [|apply fallback_response_ret].
  destruct (get_dominant_emotion (emotion self)) as [emo conf] eqn:He.
  erewrite bind_Ret by (unfold gets; rewrite He; reflexivity).
  unfold act. destruct (chat_completions_create _ _) as [r cl']. eexists. reflexivity.
Qed.

Lemma online_search_response_ret text self :
  exists r, fst (_online_search_response text self) = Ret r.
Proof.
  unfold _online_search_response.
  destruct (strip text); [eexists; reflexivity|].
  unfold act. destruct (answer _ _). eexists. reflexivity.
Qed.

Lemma run_plan_raises plan text context retrieved self e :
  fst (_run_plan plan text context retrieved self) = Raise e ->
  mem (u "do_reset_memory") plan = false /\
  mem (u "describe_state") plan = true /\
  e = AttributeError "get_state".
Proof.
  rewrite plan_dispatch, deciding_action_eq.
  destruct (mem (u "do_reset_memory") plan).
  { rewrite run_plan_reset by (vm_compute; reflexivity). discriminate. }
  destruct (mem (u "describe_state") plan).
  { rewrite run_plan_describe_state by (vm_compute; reflexivity).
    intros [= <-]. auto. }
  intros Hr. exfalso. revert Hr.
  destruct (mem (u "generate_support_message") plan).
  { unfold _run_plan. eval_literals. discriminate. }
  destruct (mem (u "describe_capabilities") plan).
  { unfold _run_plan. eval_literals. discriminate. }
  destruct (mem (u "use_empathy_skill") plan).
  { unfold _run_plan. eval_literals. discriminate. }
  destruct (mem (u "ack_search_skill") plan).
  { unfold _run_plan. eval_literals. discriminate. }
  destruct (mem (u "maybe_online_search") plan).
  { unfold _run_plan. eval_literals.
    destruct (online_search_response_ret text self) as [r ->]. discriminate. }
  destruct (mem (u "offer_simple_game") plan).
  { unfold _run_plan. eval_literals. discriminate. }
  destruct (mem (u "query_llm") plan && bool_decide (is_Some (client self))) eqn:Hq.
  { unfold _run_plan. eval_literals. cbn [andb].
    unfold mbind, M_bind. erewrite bind_Ret by (unfold gets; reflexivity).
    apply andb_true_iff in Hq as [_ ->].
    destruct (generate_llm_response_ret text context retrieved self) as [r ->].
    discriminate. }
  destruct (mem (u "keep_conversation") plan).
  { rewrite run_plan_keep. destruct (recalled self); [discriminate|].
    destruct (respond_by_rules_ret text context self) as [r ->]. discriminate. }
  rewrite run_plan_nil.
  destruct (respond_by_rules_ret text context self) as [r ->]. discriminate.
Qed.

Lemma turn_plan_describe_state i b :
  i ∈ intents ->
  mem (u "describe_state") (turn_plan i b) = true -> i = u "status".
Proof.
  unfold intents. cbn [map]. intros Hi.
  repeat (apply elem_of_cons in Hi as [->|Hi]);
    [..|apply elem_of_nil in Hi; contradiction].
  all: destruct b; vm_compute; try discriminate; reflexivity.
Qed.

Lemma run_cycle_raise_inv text self e :
  fst (run_cycle text self) = Raise e ->
  fst (fst (check_input text (safety self))) = true /\
  _infer_intent text = u "status" /\
  e = AttributeError "get_state".
Proof.
  intros Hr.
  destruct (fst (fst (check_input text (safety self)))) eqn:Hsafe.
  - rewrite (run_cycle_safe _ _ Hsafe) in Hr. cbv zeta in Hr.
    rewrite plan_of_intent in Hr by apply infer_intent_cases.
    destruct (_run_plan _ _ _ _ _) as [[r|e'] s3] eqn:Hp; [discriminate|].
    cbn [fst] in Hr. injection Hr as ->.
    assert (fst (_run_plan
                   (turn_plan (_infer_intent text)
                      (bool_decide (is_Some
                         (client (snd (_update_emotion text (perceived text self)))))))
                   text (last_n 10 (working_memory (perceived text self)))
                   (last_n 5 (memory (perceived text self)))
                   (snd (_update_emotion text (perceived text self)))) = Raise e) as Hraise.
    { rewrite Hp. reflexivity. }
    apply run_plan_raises in Hraise as (_ & Hd & ->).
    apply turn_plan_describe_state in Hd; [|apply infer_intent_cases].
    split; [reflexivity|]. split; [exact Hd|reflexivity].
  - rewrite (run_cycle_unsafe _ _ Hsafe) in Hr. discriminate.
Qed.

(** *** What plan execution leaves alone *)

Lemma same_core_refl s : same_core s s.
Proof. unfold same_core. auto 10. Qed.

Lemma respond_by_rules_core text context self :
  same_core self (snd (respond_by_rules text context self)) /\
  client (snd (respond_by_rules text context self)) = client self.
Proof.
  unfold respond_by_rules, mbind, M_bind, bind, act.
  destruct (generate _ _ _) as [g ob].
  assert (same_core self (match ob with Some b => set_online_brain b self | None => self end)
          /\ client (match ob with Some b => set_online_brain b self | None => self end)
             = client self) as Hs.
  { destruct ob; split; try reflexivity; unfold same_core; cbn; auto 10. }
  destruct g as [[|c g]|]; try exact Hs; rewrite fallback_response_state; exact Hs.
Qed.

Lemma generate_llm_response_core text context retrieved self :
  same_core self (snd (_generate_llm_response text context retrieved self)) /\
  online_brain (snd (_generate_llm_response text context retrieved self)) = online_brain self.
Proof.
  unfold _generate_llm_response, mbind, M_bind.
  erewrite bind_Ret by (unfold gets; reflexivity).
  destruct (client self) as [cl|] eqn:Hc.
  - destruct (get_dominant_emotion (emotion self)) as [emo conf] eqn:He.
    erewrite bind_Ret by (unfold gets; rewrite He; reflexivity).
    unfold act. destruct (chat_completions_create _ _) as [r cl']. cbn [snd].
    split; [|reflexivity]. unfold same_core. cbn.
    repeat split. rewrite Hc. discriminate.
  - rewrite fallback_response_state. split; [apply same_core_refl|reflexivity].
Qed.

Lemma online_search_response_core text self :
  same_core self (snd (_online_search_response text self)) /\
  client (snd (_online_search_response text self)) = client self.
Proof.
  unfold _online_search_response.
  destruct (strip text); [split; [apply same_core_refl|reflexivity]|].
  unfold act. destruct (answer _ _). cbn [snd].
  split; [|reflexivity]. unfold same_core. cbn. auto 10.
Qed.

Lemma run_plan_core plan text context retrieved self :
  same_core self (snd (_run_plan plan text context retrieved self)).
Proof.
  rewrite plan_dispatch, deciding_action_eq.
  destruct (mem (u "do_reset_memory") plan).
  { rewrite run_plan_reset by (vm_compute; reflexivity).
    unfold same_core. cbn. auto 10. }
  destruct (mem (u "describe_state") plan).
  { rewrite run_plan_describe_state by (vm_compute; reflexivity). apply same_core_refl. }
  destruct (mem (u "generate_support_message") plan).
  { unfold _run_plan. eval_literals. apply same_core_refl. }
  destruct (mem (u "describe_capabilities") plan).
  { unfold _run_plan. eval_literals. apply same_core_refl. }
  destruct (mem (u "use_empathy_skill") plan).
  { unfold _run_plan. eval_literals. apply same_core_refl. }
  destruct (mem (u "ack_search_skill") plan).
  { unfold _run_plan. eval_literals. apply same_core_refl. }
  destruct (mem (u "maybe_online_search") plan).
  { unfold _run_plan. eval_literals. apply online_search_response_core. }
  destruct (mem (u "offer_simple_game") plan).
  { unfold _run_plan. eval_literals. apply same_core_refl. }
  destruct (mem (u "query_llm") plan && bool_decide (is_Some (client self))) eqn:Hq.
  { unfold _run_plan. eval_literals. cbn [andb].
    unfold mbind, M_bind. erewrite bind_Ret by (unfold gets; reflexivity).
    apply andb_true_iff in Hq as [_ ->]. apply generate_llm_response_core. }
  destruct (mem (u "keep_conversation") plan).
  { rewrite run_plan_keep. destruct (recalled self).
    - apply same_core_refl.
    - apply respond_by_rules_core. }
  rewrite run_plan_nil. apply respond_by_rules_core.
Qed.

(** *** What the end of a turn does *)

Lemma update_skills_calls text self :
  _update_skills text self =
  (Ret tt, set_skills (skill_system.run_calls (skill_calls text) (skills self)) self).
Proof.
  unfold _update_skills, skill_calls, use. unfold mbind, M_bind, mret, M_ret. cbv zeta.
  set (b1 := any_in _ _). set (b2 := any_in _ _). set (b3 := any_in _ _).
  destruct b1, b2, b3; unfold bind, modify, ret; cbn [snd fst app];
    unfold skill_system.run_calls; cbn [fold_left skill_system.run_call];
    rewrite ?set_skills_id; reflexivity.
Qed.

(** The state at the end of a completed turn. *)
Lemma learnt_state text response context retrieved intent goals self :
  learnt text response context retrieved intent goals self =
  set_skills (skill_system.tick 1 (skill_system.run_calls (skill_calls text) (skills self)))
    (set_emotion (decay (emotion self))
       (set_user_profile
          (mkUserProfile (name (user_profile self)) (likes (user_profile self))
             (dislikes (user_profile self)) (style (user_profile self))
             (count_topics (lower text) (topics (user_profile self))))
          (set_memory
             (let mem' := memory self
                            ++ [mkEpisode text response context retrieved intent goals] in
              if (100 <? length mem')%nat then last_n 100 mem' else mem')
             self))).
Proof.
  unfold learnt, _learn. unfold mbind, M_bind.
  erewrite bind_Ret by (unfold modify; reflexivity).
  erewrite bind_Ret by apply update_skills_calls.
  unfold _cleanup, mbind, M_bind, bind, modify. reflexivity.
Qed.

(** Reduce the projections of an updated orchestrator. *)
Ltac fields :=
  cbn [fst snd api_key emotion skills safety online_brain memory working_memory
       cycle_count client user_profile set_emotion set_skills set_safety
       set_online_brain set_memory set_working_memory set_cycle_count set_client
       set_user_profile name likes dislikes style topics] in *.

Lemma skill_calls_cycle text sys :
  skill_system.current_cycle (skill_system.run_calls (skill_calls text) sys) =
  skill_system.current_cycle sys.
Proof.
  unfold skill_calls. cbv zeta.
  repeat match goal with |- context [if ?b then _ else _] => destruct b end;
    reflexivity.
Qed.

(** The stimulus of a text is a function of the text alone. *)
Lemma update_emotion_eq text :
  exists f : EmotionEngine -> EmotionEngine,
    forall self, _update_emotion text self = (Ret tt, set_emotion (f (emotion self)) self).
Proof.
  unfold _update_emotion, stimulate. cbv zeta.
  destruct (any_in _ (lower text));
    [exists (apply_stimulus JOY 0.3%R); intros self; reflexivity|].
  destruct (any_in _ (lower text));
    [exists (apply_stimulus SADNESS 0.4%R); intros self; reflexivity|].
  destruct (any_in _ (lower text));
    [exists (apply_stimulus ANGER 0.3%R); intros self; reflexivity|].
  destruct (contains text _);
    [exists (apply_stimulus INTEREST 0.2%R); intros self; reflexivity|].
  exists (fun e => e). intros self. destruct self. reflexivity.
Qed.

Lemma update_emotion_perceived text self :
  snd (_update_emotion text (perceived text self)) =
  set_emotion (emotion (snd (_update_emotion text self))) (perceived text self).
Proof.
  destruct (update_emotion_eq text) as [f Hf]. rewrite !Hf. reflexivity.
Qed.

(** What one turn, of any kind, does outside the two memories. *)
Lemma turn_summary text self :
  cycle_count (snd (run_cycle text self)) = (cycle_count self + 1)%Z /\
  api_key (snd (run_cycle text self)) = api_key self /\
  (client self = None -> client (snd (run_cycle text self)) = None) /\
  name (user_profile (snd (run_cycle text self))) = name (user_profile self) /\
  likes (user_profile (snd (run_cycle text self))) = likes (user_profile self) /\
  dislikes (user_profile (snd (run_cycle text self))) = dislikes (user_profile self) /\
  style (user_profile (snd (run_cycle text self))) = style (user_profile self) /\
  (topics (user_profile (snd (run_cycle text self))) = topics (user_profile self) \/
   topics (user_profile (snd (run_cycle text self))) =
     count_topics (lower text) (topics (user_profile self))) /\
  (skills (snd (run_cycle text self)) = skills self \/
   skills (snd (run_cycle text self)) =
     skill_system.tick 1 (skill_system.run_calls (skill_calls text) (skills self))).
Proof.
  destruct (fst (fst (check_input text (safety self)))) eqn:Hsafe.
  - rewrite (run_cycle_safe _ _ Hsafe). cbv zeta.
    set (s1 := perceived text self).
    destruct (update_emotion_ret text s1) as [e He]. rewrite He. cbn [snd].
    set (s2 := set_emotion e s1).
    set (plan := _make_plan _ _ _ _ _).
    pose proof (run_plan_core plan text (last_n 10 (working_memory s1))
                  (last_n 5 (memory s1)) s2) as (Ha & _ & Hsk & _ & Hc & Hp & Hcl).
    destruct (_run_plan _ _ _ _ _) as [[response|e'] s3]; cbn [fst snd] in *.
    + rewrite learnt_state.
      fields. rewrite Ha, Hc, Hp, Hsk. unfold s2, s1, perceived. fields.
      split; [reflexivity|]. split; [reflexivity|].
      split; [intros Hn; apply Hcl; exact Hn|].
      split; [reflexivity|]. split; [reflexivity|]. split; [reflexivity|].
      split; [reflexivity|]. split; [right; reflexivity|].
      right. reflexivity.
    + rewrite Ha, Hc, Hp, Hsk. unfold s2, s1, perceived. fields.
      split; [reflexivity|]. split; [reflexivity|].
      split; [intros Hn; apply Hcl; exact Hn|].
      split; [reflexivity|]. split; [reflexivity|]. split; [reflexivity|].
      split; [reflexivity|]. split; [left; reflexivity|]. left. reflexivity.
  - rewrite (run_cycle_unsafe _ _ Hsafe). fields.
    split; [reflexivity|]. split; [reflexivity|]. split; [intros Hn; exact Hn|].
    split; [reflexivity|]. split; [reflexivity|]. split; [reflexivity|].
    split; [reflexivity|]. split; [left; reflexivity|]. left. reflexivity.
Qed.

Lemma run_cycles_ind (P : CognitiveCycle -> Prop) (self : CognitiveCycle) :
  P self ->
  (forall text s, P s -> P (snd (run_cycle text s))) ->
  forall inputs, P (run_cycles inputs self).
Proof.
  intros H0 Hstep inputs. induction inputs as [|text inputs IH] using rev_ind.
  - exact H0.
  - rewrite run_cycles_snoc. apply Hstep. exact IH.
Qed.

(** X15.  After any sequence of turns on a constructed orchestrator the cycle
    counter is the number of calls of [run_cycle]; the cycle counter of the
    skill ledger, which advances in completed turns only, lies between 0 and
    that number. *)
Theorem turn_counter_counts_calls (api_key : option str) (openai_client : option Client)
    (inputs : list str) :
  cycle_count (run_cycles inputs (__init__ api_key openai_client)) =
    Z.of_nat (length inputs) /\
  (0 <= skill_system.current_cycle
          (skills (run_cycles inputs (__init__ api_key openai_client)))
     <= Z.of_nat (length inputs))%Z.
Proof.
  induction inputs as [|text inputs IH] using rev_ind.
  - split; [reflexivity|]. unfold run_cycles, __init__. cbn [fold_left length].
    fields. cbn [skill_system.init skill_system.current_cycle]. lia.
  - rewrite run_cycles_snoc, length_app. cbn [length].
    destruct IH as [IHc IHs].
    pose proof (turn_summary text (run_cycles inputs (__init__ api_key openai_client)))
      as (Hc & _ & _ & _ & _ & _ & _ & _ & Hsk).
    split; [rewrite Hc, IHc; lia|].
    destruct Hsk as [-> | ->]; [lia|].
    cbn [skill_system.tick skill_system.current_cycle]. rewrite skill_calls_cycle. lia.
Qed.

(** X16.  An orchestrator constructed without an API key, with an empty key,
    or whose client could not be constructed has no client, whatever turns
    follow; the plan of a generic question is then [[use_fallback_logic]]. *)
Theorem no_client_without_key (api_key : option str) (openai_client : option Client)
    (inputs : list str) :
  api_key = None \/ api_key = Some [] \/ openai_client = None ->
  client (run_cycles inputs (__init__ api_key openai_client)) = None /\
  forall context retrieved,
    _make_plan (u "generic_question") (_form_goals (u "generic_question")) context retrieved
      (run_cycles inputs (__init__ api_key openai_client)) = [u "use_fallback_logic"].
Proof.
  intros Hkey.
  assert (client (run_cycles inputs (__init__ api_key openai_client)) = None) as Hnone.
  { apply (run_cycles_ind (fun s => client s = None)).
    - destruct Hkey as [-> | [-> | ->]]; [reflexivity|reflexivity|].
      unfold __init__. fields. destruct api_key as [[|c k]|]; reflexivity.
    - intros text s Hs. apply turn_summary. exact Hs. }
  split; [exact Hnone|].
  intros context retrieved.
  rewrite plan_of_intent
    by (apply (bool_decide_unpack (u "generic_question" ∈ intents)); vm_compute; exact I).
  rewrite Hnone. vm_compute. reflexivity.
Qed.

(** *** The topic counters *)

Lemma count_lookup (t : str) (words : list str) (tp : gmap str Z) (w : str) :
  NoDup words ->
  fold_left
    (fun tp word =>
       if contains t word then <[word := (default 0 (tp !! word) + 1)%Z]> tp else tp)
    words tp !! w =
  if bool_decide (w ∈ words) && contains t w
  then Some (default 0 (tp !! w) + 1)%Z
  else tp !! w.
Proof.
  intros Hnd. revert tp. induction Hnd as [|word words Hnotin Hnd IH]; intros tp.
  - reflexivity.
  - cbn [fold_left]. rewrite IH.
    destruct (decide (w = word)) as [->|Hne].
    + rewrite (bool_decide_eq_false_2 (word ∈ words)) by assumption.
      rewrite (bool_decide_eq_true_2 (word ∈ word :: words)) by (apply elem_of_cons; left; reflexivity).
      cbn [andb]. destruct (contains t word); [|reflexivity].
      rewrite lookup_insert_eq. reflexivity.
    + assert (bool_decide (w ∈ word :: words) = bool_decide (w ∈ words)) as ->.
      { apply bool_decide_ext. rewrite elem_of_cons. tauto. }
      assert ((if contains t word
               then <[word := (default 0 (tp !! word) + 1)%Z]> tp else tp) !! w = tp !! w)
        as ->.
      { destruct (contains t word); [|reflexivity].
        apply lookup_insert_ne. congruence. }
      reflexivity.
Qed.

Lemma topic_words_NoDup : NoDup topic_words.
Proof. apply (bool_decide_unpack (NoDup topic_words)). vm_compute. exact I. Qed.

Lemma count_topics_lookup (t : str) (tp : gmap str Z) (w : str) :
  count_topics t tp !! w =
  if bool_decide (w ∈ topic_words) && contains t w
  then Some (default 0 (tp !! w) + 1)%Z
  else tp !! w.
Proof. unfold count_topics. apply (count_lookup t topic_words tp w topic_words_NoDup). Qed.

(** X17.  The topic counting of [_learn]: a topic word found in the text has
    its counter incremented, starting from 0 when it had none; every other
    key keeps its value; no key is removed, and the only keys added are topic
    words. *)
Theorem topic_counters (t : str) (tp : gmap str Z) (w : str) :
  (w ∈ topic_words -> contains t w = true ->
   count_topics t tp !! w = Some (default 0 (tp !! w) + 1)%Z) /\
  (w ∉ topic_words \/ contains t w = false -> count_topics t tp !! w = tp !! w) /\
  dom tp ⊆ dom (count_topics t tp) /\
  dom (count_topics t tp) ⊆ dom tp ∪ list_to_set topic_words.
Proof.
  split; [|split; [|split]].
  - intros Hw Ht. rewrite count_topics_lookup, Ht.
    rewrite (bool_decide_eq_true_2 _ Hw). reflexivity.
  - intros Hno. rewrite count_topics_lookup. destruct Hno as [Hw|Ht].
    + rewrite (bool_decide_eq_false_2 _ Hw). reflexivity.
    + rewrite Ht, andb_false_r. reflexivity.
  - intros k Hk. apply elem_of_dom in Hk as [n Hn]. apply elem_of_dom.
    rewrite count_topics_lookup. destruct (_ && _); [eauto|]. rewrite Hn. eauto.
  - intros k Hk. apply elem_of_dom in Hk as [n Hn]. rewrite count_topics_lookup in Hn.
    apply elem_of_union.
    destruct (bool_decide (k ∈ topic_words)) eqn:Hin.
    + right. apply elem_of_list_to_set. apply bool_decide_eq_true in Hin. exact Hin.
    + left. cbn [andb] in Hn. apply elem_of_dom. eauto.
Qed.

(** X18.  After any sequence of turns on a constructed orchestrator the
    profile still has no name, no likes, no dislikes and the style
    [friendly]; its topics hold topic words only, each with a counter between
    1 and the number of turns. *)
Theorem profile_identity_is_never_written (api_key : option str)
    (openai_client : option Client) (inputs : list str) :
  name (user_profile (run_cycles inputs (__init__ api_key openai_client))) = None /\
  likes (user_profile (run_cycles inputs (__init__ api_key openai_client))) = ∅ /\
  dislikes (user_profile (run_cycles inputs (__init__ api_key openai_client))) = ∅ /\
  style (user_profile (run_cycles inputs (__init__ api_key openai_client))) = u "friendly" /\
  forall w n,
    topics (user_profile (run_cycles inputs (__init__ api_key openai_client))) !! w = Some n ->
    w ∈ topic_words /\ (1 <= n <= Z.of_nat (length inputs))%Z.
Proof.
  induction inputs as [|text inputs IH] using rev_ind.
  - split; [reflexivity|]. split; [reflexivity|]. split; [reflexivity|].
    split; [reflexivity|]. intros w n. unfold run_cycles, __init__. cbn [fold_left].
    fields. rewrite lookup_empty. discriminate.
  - rewrite run_cycles_snoc, length_app. cbn [length].
    destruct IH as (Hn & Hl & Hd & Hs & Ht).
    pose proof (turn_summary text (run_cycles inputs (__init__ api_key openai_client)))
      as (_ & _ & _ & Hn' & Hl' & Hd' & Hs' & Ht' & _).
    rewrite Hn', Hl', Hd', Hs'.
    split; [exact Hn|]. split; [exact Hl|]. split; [exact Hd|]. split; [exact Hs|].
    intros w n. destruct Ht' as [-> | ->].
    + intros Hw. destruct (Ht w n Hw) as [Hin Hrange]. split; [exact Hin|lia].
    + rewrite count_topics_lookup.
      destruct (bool_decide (w ∈ topic_words)) eqn:Hin; cbn [andb].
      * apply bool_decide_eq_true in Hin.
        destruct (contains (lower text) w).
        -- intros [= <-]. split; [exact Hin|].
           destruct (topics _ !! w) as [m|] eqn:Hm; cbn [from_option Datatypes.id].
           ++ destruct (Ht w m Hm) as [_ Hrange]. lia.
           ++ lia.
        -- intros Hw. destruct (Ht w n Hw) as [_ Hrange]. split; [exact Hin|lia].
      * intros Hw. destruct (Ht w n Hw) as [Hin' Hrange]. split; [exact Hin'|lia].
Qed.

(** *** Turns that raise *)

(** X19.  For an input of at most 4300 characters (so that every [int()] of
    a run of its digits converts), [run_cycle] raises only when the input is
    safe and starts with [/status], and then [AttributeError] for
    [get_state].  Such a turn is left half done: the input is in the working
    memory, the stimulus of the text is applied and the cycle counter has
    advanced, but the episodic memory, the skill ledger and the user profile
    are as before (no episode, no skill use, no decay, no tick). *)
Theorem only_status_turns_raise (text : str) (self : CognitiveCycle) (e : exn) :
  (length text <= 4300)%nat ->
  fst (run_cycle text self) = Raise e ->
  e = AttributeError "get_state" /\
  fst (fst (check_input text (safety self))) = true /\
  startswith (lower text) (u "/status") = true /\
  working_memory (snd (run_cycle text self)) =
    last_n 20 (working_memory self ++ [mkMessage (u "user") text]) /\
  memory (snd (run_cycle text self)) = memory self /\
  emotion (snd (run_cycle text self)) = emotion (snd (_update_emotion text self)) /\
  skills (snd (run_cycle text self)) = skills self /\
  user_profile (snd (run_cycle text self)) = user_profile self /\
  cycle_count (snd (run_cycle text self)) = (cycle_count self + 1)%Z.
Proof.
  intros _ Hr. destruct (run_cycle_raise_inv text self e Hr) as (Hsafe & Hi & ->).
  split; [reflexivity|]. split; [exact Hsafe|].
  split; [apply infer_intent_status_iff; exact Hi|].
  pose proof (run_cycle_safe_state text self Hsafe) as Hst. cbv zeta in Hst.
  rewrite Hr in Hst. destruct Hst as (_ & Hw & Hm).
  split; [rewrite Hw; reflexivity|]. split; [rewrite Hm; reflexivity|].
  rewrite (run_cycle_safe _ _ Hsafe) in *. cbv zeta in *.
  rewrite update_emotion_perceived in *.
  set (s2 := set_emotion _ _) in *.
  set (plan := _make_plan _ _ _ _ _) in *.
  pose proof (run_plan_core plan text (last_n 10 (working_memory (perceived text self)))
                (last_n 5 (memory (perceived text self))) s2)
    as (_ & He & Hsk & _ & Hc & Hp & _).
  destruct (_run_plan _ _ _ _ _) as [[response|e'] s3]; [discriminate|].
  cbn [fst snd] in *. rewrite He, Hsk, Hp, Hc.
  unfold s2, perceived. fields.
  split; [reflexivity|]. split; [reflexivity|]. split; reflexivity.
Qed.

(** *** Completed turns *)

(** X20.  A safe turn that returns a reply leaves the affect state decayed
    once after the stimulus of the text, the skill ledger after the uses the
    text triggers followed by [tick()], the profile with the topics of the
    text counted, the safety filter as the check left it, and the cycle
    counter advanced by 1. *)
Theorem completed_turn_effects (text response : str) (self : CognitiveCycle) :
  fst (fst (check_input text (safety self))) = true ->
  fst (run_cycle text self) = Ret response ->
  emotion (snd (run_cycle text self)) = decay (emotion (snd (_update_emotion text self))) /\
  skills (snd (run_cycle text self)) =
    skill_system.tick 1 (skill_system.run_calls (skill_calls text) (skills self)) /\
  user_profile (snd (run_cycle text self)) =
    mkUserProfile (name (user_profile self)) (likes (user_profile self))
      (dislikes (user_profile self)) (style (user_profile self))
      (count_topics (lower text) (topics (user_profile self))) /\
  safety (snd (run_cycle text self)) = snd (check_input text (safety self)) /\
  cycle_count (snd (run_cycle text self)) = (cycle_count self + 1)%Z.
Proof.
  intros Hsafe Hret.
  rewrite (run_cycle_safe _ _ Hsafe) in *. cbv zeta in *.
  rewrite update_emotion_perceived in *.
  set (s2 := set_emotion _ _) in *.
  set (plan := _make_plan _ _ _ _ _) in *.
  pose proof (run_plan_core plan text (last_n 10 (working_memory (perceived text self)))
                (last_n 5 (memory (perceived text self))) s2)
    as (_ & He & Hsk & Hsf & Hc & Hp & _).
  destruct (_run_plan _ _ _ _ _) as [[r|e'] s3]; [|discriminate].
  cbn [fst snd] in *. rewrite learnt_state. fields.
  rewrite He, Hsk, Hsf, Hc, Hp. unfold s2, perceived. fields.
  split; [reflexivity|]. split; [reflexivity|]. split; [reflexivity|].
  split; reflexivity.
Qed.

Lemma last_last_n_snoc {A} n (l : list A) x :
  (0 < n)%nat -> last (last_n n (l ++ [x])) = Some x.
Proof.
  intros Hn. rewrite last_n_snoc. rewrite drop_app_le by lia. apply last_snoc.
Qed.

Lemma turn_plan_reset i b :
  i ∈ intents ->
  mem (u "do_reset_memory") (turn_plan i b) = str_eqb i (u "reset").
Proof.
  unfold intents. cbn [map]. intros Hi.
  repeat (apply elem_of_cons in Hi as [->|Hi]);
    [..|apply elem_of_nil in Hi; contradiction].
  all: destruct b; vm_compute; reflexivity.
Qed.

(** The two memories at the end of a completed turn. *)
Lemma completed_turn_memories text response self :
  fst (fst (check_input text (safety self))) = true ->
  fst (run_cycle text self) = Ret response ->
  working_memory (snd (run_cycle text self)) =
    (if str_eqb (_infer_intent text) (u "reset") then []
     else last_n 20 (working_memory self ++ [mkMessage (u "user") text])) /\
  memory (snd (run_cycle text self)) =
    last_n 100 ((if str_eqb (_infer_intent text) (u "reset") then [] else memory self)
                ++ [episode_of text response self]).
Proof.
  intros Hsafe Hret.
  pose proof (run_cycle_safe_state text self Hsafe) as Hst. cbv zeta in Hst.
  rewrite Hret in Hst.
  rewrite plan_of_intent in Hst by apply infer_intent_cases.
  rewrite turn_plan_reset in Hst by apply infer_intent_cases.
  exact Hst.
Qed.

Lemma recalled_after_turn text response self :
  fst (fst (check_input text (safety self))) = true ->
  fst (run_cycle text self) = Ret response ->
  recalled (snd (run_cycle text self)) =
  if (3 <? length text)%nat then Some text else None.
Proof.
  intros Hsafe Hret.
  destruct (completed_turn_memories text response self Hsafe Hret) as [_ Hm].
  unfold recalled. rewrite Hm, last_last_n_snoc by lia. reflexivity.
Qed.

(** X21.  A safe turn that returns a reply records, as the last episode, the
    input, the reply, the context, the episodes retrieved, the intent and the
    goals.  Unless the turn is a reset, the input is the last entry of the
    working memory and of the context of the episode.  The episodes retrieved
    are the last five from before the turn.  Afterwards [keep_conversation]
    recalls this input exactly when it has more than 3 characters. *)
Theorem completed_turn_is_logged (text response : str) (self : CognitiveCycle) :
  fst (fst (check_input text (safety self))) = true ->
  fst (run_cycle text self) = Ret response ->
  last (memory (snd (run_cycle text self))) = Some (episode_of text response self) /\
  (_infer_intent text <> u "reset" ->
   last (working_memory (snd (run_cycle text self))) = Some (mkMessage (u "user") text) /\
   last (context (episode_of text response self)) = Some (mkMessage (u "user") text)) /\
  retrieved (episode_of text response self) = last_n 5 (memory self) /\
  recalled (snd (run_cycle text self)) =
    (if (3 <? length text)%nat then Some text else None).
Proof.
  intros Hsafe Hret.
  destruct (completed_turn_memories text response self Hsafe Hret) as [Hw Hm].
  split; [rewrite Hm; apply last_last_n_snoc; lia|].
  split.
  - intros Hi. rewrite Hw. unfold str_eqb. rewrite bool_decide_eq_false_2 by exact Hi.
    split; [apply last_last_n_snoc; lia|].
    unfold episode_of. cbn [context]. rewrite last_n_snoc.
    assert (forall (l : list Message) k,
               (k <= length l)%nat ->
               last (last_n 10 (drop k (l ++ [mkMessage (u "user") text]))) =
               Some (mkMessage (u "user") text)) as Hlast.
    { intros l k Hk. rewrite drop_app_le by exact Hk. apply last_last_n_snoc. lia. }
    apply Hlast. lia.
  - split; [reflexivity|]. apply (recalled_after_turn text response self Hsafe Hret).
Qed.

Lemma smalltalk_turn_recalled text self li :
  fst (fst (check_input text (safety self))) = true ->
  _infer_intent text = u "smalltalk" ->
  recalled self = Some li ->
  fst (run_cycle text self) = Ret (recall_reply li).
Proof.
  intros Hsafe Hi Hrec. rewrite (run_cycle_safe _ _ Hsafe). cbv zeta.
  rewrite Hi, form_goals_smalltalk, make_plan_keep, run_plan_keep.
  assert (recalled (snd (_update_emotion text (perceived text self))) = recalled self) as ->.
  { apply recalled_same.
    destruct (update_emotion_memories text (perceived text self)) as [_ ->]. reflexivity. }
  rewrite Hrec. reflexivity.
Qed.

(** X22.  After a safe turn that returned a reply and whose input has more
    than 3 characters, the next safe small-talk turn is answered with the
    recall of that input, whatever the new input says. *)
Theorem smalltalk_echoes_previous_input (text1 text2 response : str)
    (self : CognitiveCycle) :
  fst (fst (check_input text1 (safety self))) = true ->
  fst (run_cycle text1 self) = Ret response ->
  (3 < length text1)%nat ->
  fst (fst (check_input text2 (safety (snd (run_cycle text1 self))))) = true ->
  _infer_intent text2 = u "smalltalk" ->
  fst (run_cycle text2 (snd (run_cycle text1 self))) = Ret (recall_reply text1).
Proof.
  intros Hsafe1 Hret Hlen Hsafe2 Hi2.
  apply smalltalk_turn_recalled; [exact Hsafe2|exact Hi2|].
  rewrite (recalled_after_turn text1 response self Hsafe1 Hret).
  apply Nat.ltb_lt in Hlen. rewrite Hlen. reflexivity.
Qed.

(** *** Turns answered by one action *)

(** A safe turn, by the action that decides it. *)
Lemma safe_turn_by_action text self a :
  fst (fst (check_input text (safety self))) = true ->
  turn_action (_infer_intent text) (bool_decide (is_Some (client self))) = Some a ->
  run_cycle text self =
  let s1 := perceived text self in
  let context := last_n 10 (working_memory s1) in
  let retrieved := last_n 5 (memory s1) in
  let s2 := set_emotion (emotion (snd (_update_emotion text self))) s1 in
  match _run_plan [a] text context retrieved s2 with
  | (Ret response, s3) =>
    (Ret response,
     learnt text response context retrieved (_infer_intent text)
       (_form_goals (_infer_intent text)) s3)
  | (Raise e, s3) => (Raise e, s3)
  end.
Proof.
  intros Hsafe Ha. rewrite (run_cycle_safe _ _ Hsafe). cbv zeta.
  rewrite update_emotion_perceived.
  rewrite plan_of_intent by apply infer_intent_cases.
  rewrite plan_dispatch. rewrite action_of_intent by apply infer_intent_cases.
  assert (client (set_emotion (emotion (snd (_update_emotion text self)))
                    (perceived text self)) = client self) as -> by reflexivity.
  rewrite Ha. reflexivity.
Qed.

Lemma run_plan_ack text context retrieved self :
  _run_plan [u "ack_search_skill"] text context retrieved self =
  (Ret (if (skill_system.get_level (u "поиск_в_интернете") (skills self) =? 0)%Z
        then u "Я пока только учусь поиску. Могу помочь сформулировать запрос."
        else u "Навык поиска прокачан. Могу подсказать, как лучше искать."),
   self).
Proof.
  unfold _run_plan. eval_literals.
  unfold mbind, M_bind. erewrite bind_Ret by (unfold gets; reflexivity). reflexivity.
Qed.

Lemma run_plan_support text context retrieved self :
  _run_plan [u "generate_support_message"] text context retrieved self =
  (Ret (support_reply (emotion_value (fst (get_dominant_emotion (emotion self))))), self).
Proof.
  unfold _run_plan. eval_literals.
  unfold mbind, M_bind. erewrite bind_Ret by (unfold gets; reflexivity). reflexivity.
Qed.

Lemma infer_intent_search text :
  _infer_intent text = u "search_skill" ->
  contains (lower text) (u "поиск_в_интернете") = true.
Proof.
  unfold _infer_intent. cbv zeta.
  destruct (startswith _ _); [intros Heq; vm_compute in Heq; discriminate|].
  destruct (startswith _ _); [intros Heq; vm_compute in Heq; discriminate|].
  destruct (any_in _ _); [intros Heq; vm_compute in Heq; discriminate|].
  destruct (any_in _ _); [intros Heq; vm_compute in Heq; discriminate|].
  destruct (any_in _ _); [intros Heq; vm_compute in Heq; discriminate|].
  destruct (contains (lower text) (u "поиск_в_интернете")); [reflexivity|].
  destruct (any_in _ _); [intros Heq; vm_compute in Heq; discriminate|].
  destruct (contains _ _); intros Heq; vm_compute in Heq; discriminate.
Qed.

Lemma search_uses text sys :
  contains (lower text) (u "поиск_в_интернете") = true ->
  skill_system.uses <$>
    (skill_system.skills (skill_system.tick 1 (skill_system.run_calls (skill_calls text) sys))
       !! u "поиск_в_интернете") =
  Some (skill_system.uses (props.prior_skill (u "поиск_в_интернете") sys) + 1)%Z.
Proof.
  intros Hc. unfold skill_calls. cbv zeta.
  assert (any_in (map u ["найди"; "поищи"; "загугли"; "поиск_в_интернете"]) (lower text)
          = true) as ->.
  { unfold any_in. cbn [map existsb]. rewrite Hc. cbn [orb]. rewrite !orb_true_r.
    reflexivity. }
  assert (u "поиск_в_интернете" <> u "приветствие") as Hg
    by (intros Heq; vm_compute in Heq; discriminate).
  assert (u "поиск_в_интернете" <> u "эмпатия") as He
    by (intros Heq; vm_compute in Heq; discriminate).
  rewrite skill_facts.tick_lookup.
  set (b1 := any_in _ _). set (b3 := any_in _ _).
  destruct b1, b3; cbn [app]; unfold skill_system.run_calls;
    cbn [fold_left skill_system.run_call];
    rewrite ?(skill_facts.use_skill_lookup_ne (u "эмпатия")) by exact He;
    rewrite skill_facts.use_skill_lookup;
    cbn [fmap option_fmap option_map];
    rewrite skill_facts.uses_tick_skill, skill_facts.uses_update_level;
    cbn [skill_system.uses]; unfold props.prior_skill;
    rewrite ?(skill_facts.use_skill_lookup_ne (u "приветствие")) by exact Hg;
    reflexivity.
Qed.

(** X23.  A safe turn with the intent [search_skill] is answered with the
    acknowledgement chosen by the level the search skill had before the turn;
    the online brain is not asked (its state is the same afterwards), and the
    search skill has one more use. *)
Theorem search_turn_acknowledges_without_searching (text : str) (self : CognitiveCycle) :
  fst (fst (check_input text (safety self))) = true ->
  _infer_intent text = u "search_skill" ->
  fst (run_cycle text self) =
    Ret (if (skill_system.get_level (u "поиск_в_интернете") (skills self) =? 0)%Z
         then u "Я пока только учусь поиску. Могу помочь сформулировать запрос."
         else u "Навык поиска прокачан. Могу подсказать, как лучше искать.") /\
  online_brain (snd (run_cycle text self)) = online_brain self /\
  skill_system.uses <$>
    (skill_system.skills (skills (snd (run_cycle text self))) !! u "поиск_в_интернете") =
  Some (skill_system.uses (props.prior_skill (u "поиск_в_интернете") (skills self)) + 1)%Z.
Proof.
  intros Hsafe Hi.
  assert (turn_action (_infer_intent text) (bool_decide (is_Some (client self))) =
          Some (u "ack_search_skill")) as Ha.
  { rewrite Hi. destruct (bool_decide _); vm_compute; reflexivity. }
  rewrite (safe_turn_by_action text self _ Hsafe Ha). cbv zeta.
  rewrite run_plan_ack. cbn [fst snd]. rewrite learnt_state.
  unfold perceived. fields.
  split; [reflexivity|]. split; [reflexivity|].
  apply search_uses. apply infer_intent_search. exact Hi.
Qed.

(** X24.  A safe turn with the intent [seek_support] is answered with the
    support message that names the dominant emotion measured after the
    stimulus of this very text has been applied; the level of the empathy
    skill is not consulted.  The episode with that reply is appended to the
    episodic memory. *)
Theorem support_turn_names_the_emotion (text : str) (self : CognitiveCycle) :
  fst (fst (check_input text (safety self))) = true ->
  _infer_intent text = u "seek_support" ->
  fst (run_cycle text self) =
    Ret (support_reply
           (emotion_value
              (fst (get_dominant_emotion (emotion (snd (_update_emotion text self))))))) /\
  memory (snd (run_cycle text self)) =
    last_n 100 (memory self
                ++ [episode_of text
                      (support_reply
                         (emotion_value
                            (fst (get_dominant_emotion
                                    (emotion (snd (_update_emotion text self)))))))
                      self]).
Proof.
  intros Hsafe Hi.
  assert (turn_action (_infer_intent text) (bool_decide (is_Some (client self))) =
          Some (u "generate_support_message")) as Ha.
  { rewrite Hi. destruct (bool_decide _); vm_compute; reflexivity. }
  assert (fst (run_cycle text self) =
          Ret (support_reply
                 (emotion_value
                    (fst (get_dominant_emotion (emotion (snd (_update_emotion text self))))))))
    as Hret.
  { rewrite (safe_turn_by_action text self _ Hsafe Ha). cbv zeta.
    rewrite run_plan_support. reflexivity. }
  split; [exact Hret|].
  destruct (completed_turn_memories text _ self Hsafe Hret) as [_ Hm].
  rewrite Hm, Hi. eval_literals. reflexivity.
Qed.

(** *** Turns answered by the language model *)

Lemma run_plan_llm text context retrieved self cl :
  client self = Some cl ->
  _run_plan [u "query_llm"] text context retrieved self =
  (Ret (llm_reply
          (fst (chat_completions_create (llm_request text context (emotion self)) cl))),
   set_client
     (Some (snd (chat_completions_create (llm_request text context (emotion self)) cl)))
     self).
Proof.
  intros Hc. unfold _run_plan. eval_literals.
  unfold mbind, M_bind. erewrite bind_Ret by (unfold gets; reflexivity).
  rewrite Hc. rewrite bool_decide_eq_true_2 by eauto. cbn [andb].
  unfold _generate_llm_response, mbind, M_bind.
  erewrite bind_Ret by (unfold gets; reflexivity). rewrite Hc.
  unfold llm_request.
  destruct (get_dominant_emotion (emotion self)) as [emo conf] eqn:He.
  erewrite bind_Ret by (unfold gets; rewrite He; reflexivity).
  unfold act, llm_reply. destruct (chat_completions_create _ _) as [[r|r] cl']; reflexivity.
Qed.

(** X25.  A safe turn with the intent [generic_question] on an orchestrator
    with a client is answered with the content the client returns, or with
    [Ошибка API:] and the text of the exception; the client is left as the
    request left it.  The request holds the system message, the earlier
    entries of the context, and then the input twice: once as the last entry
    of the context and once appended. *)
Theorem llm_turn_sends_input_twice (text : str) (self : CognitiveCycle) (cl : Client) :
  fst (fst (check_input text (safety self))) = true ->
  _infer_intent text = u "generic_question" ->
  client self = Some cl ->
  let context := last_n 10 (last_n 20 (working_memory self ++ [mkMessage (u "user") text])) in
  let request := llm_request text context (emotion (snd (_update_emotion text self))) in
  fst (run_cycle text self) = Ret (llm_reply (fst (chat_completions_create request cl))) /\
  client (snd (run_cycle text self)) = Some (snd (chat_completions_create request cl)) /\
  exists system earlier,
    request = [(u "system", system)] ++ earlier ++ [(u "user", text); (u "user", text)].
Proof.
  intros Hsafe Hi Hc. cbv zeta.
  assert (turn_action (_infer_intent text) (bool_decide (is_Some (client self))) =
          Some (u "query_llm")) as Ha.
  { rewrite Hi, Hc. rewrite bool_decide_eq_true_2 by eauto. vm_compute. reflexivity. }
  rewrite (safe_turn_by_action text self _ Hsafe Ha). cbv zeta.
  rewrite (run_plan_llm text _ _ _ cl) by exact Hc.
  cbn [fst snd]. rewrite learnt_state. unfold perceived. fields.
  split; [reflexivity|]. split; [reflexivity|].
  unfold llm_request.
  destruct (get_dominant_emotion _) as [emo conf].
  assert (last (last_n 10 (last_n 20 (working_memory self ++ [mkMessage (u "user") text])))
          = Some (mkMessage (u "user") text)) as Hlast.
  { rewrite last_n_snoc. rewrite drop_app_le by lia. apply last_last_n_snoc. lia. }
  apply last_Some in Hlast as [ctx ->].
  eexists _, (map (fun m => (role m, content m)) ctx).
  rewrite map_app. cbn [map role content]. rewrite <- !app_assoc. reflexivity.
Qed.

(** *** The ledger of the orchestrator *)

Lemma skill_calls_orchestrator text : Forall orchestrator_call (skill_calls text).
Proof.
  assert (forall nm : string,
             bool_decide (u nm ∈ trained_skills) = true ->
             orchestrator_call (skill_system.Use (u nm) true None)) as Hu.
  { intros nm Hin. right. exists (u nm). split; [|reflexivity].
    apply bool_decide_eq_true in Hin. exact Hin. }
  unfold skill_calls. cbv zeta.
  set (b1 := any_in _ _). set (b2 := any_in _ _). set (b3 := any_in _ _).
  destruct b1, b2, b3; cbn [app];
    repeat (constructor; [apply Hu; vm_compute; reflexivity|]); constructor.
Qed.

Lemma run_cycles_ledger api_key openai_client inputs :
  exists cs, Forall orchestrator_call cs /\
    skills (run_cycles inputs (__init__ api_key openai_client)) =
    skill_system.run_calls cs skill_system.init.
Proof.
  induction inputs as [|text inputs IH] using rev_ind.
  - exists []. split; [constructor|reflexivity].
  - destruct IH as (cs & Hcs & Heq). rewrite run_cycles_snoc.
    pose proof (turn_summary text (run_cycles inputs (__init__ api_key openai_client)))
      as (_ & _ & _ & _ & _ & _ & _ & _ & Hsk).
    destruct Hsk as [-> | ->].
    + exists cs. split; assumption.
    + exists (cs ++ skill_calls text ++ [skill_system.Tick 1]). split.
      * apply Forall_app. split; [assumption|].
        apply Forall_app. split; [apply skill_calls_orchestrator|].
        constructor; [left; reflexivity|constructor].
      * rewrite Heq, !skill_facts.run_calls_app. reflexivity.
Qed.

Lemma trained_in_defaults nm :
  nm ∈ trained_skills -> nm ∈ dom (skill_system.skills skill_system.init).
Proof.
  unfold trained_skills. cbn [map]. intros Hi.
  repeat (apply elem_of_cons in Hi as [->|Hi]);
    [..|apply elem_of_nil in Hi; contradiction].
  all: apply elem_of_dom; eexists; vm_compute; reflexivity.
Qed.

Lemma orchestrator_call_keeps c sys :
  orchestrator_call c ->
  dom (skill_system.skills sys) = dom (skill_system.skills skill_system.init) ->
  dom (skill_system.skills (skill_system.run_call c sys)) =
    dom (skill_system.skills skill_system.init) /\
  forall nm, nm ∉ trained_skills ->
    skill_system.uses <$> (skill_system.skills (skill_system.run_call c sys) !! nm) =
      skill_system.uses <$> (skill_system.skills sys !! nm) /\
    skill_system.last_used_cycle <$>
        (skill_system.skills (skill_system.run_call c sys) !! nm) =
      skill_system.last_used_cycle <$> (skill_system.skills sys !! nm).
Proof.
  intros [-> | (nm & Hnm & ->)] Hdom.
  - cbn [skill_system.run_call]. split.
    + unfold skill_system.tick. cbn [skill_system.skills]. rewrite dom_fmap_L. exact Hdom.
    + intros k _. rewrite skill_facts.tick_lookup.
      destruct (skill_system.skills sys !! k) as [s|]; [|split; reflexivity].
      cbn [fmap option_fmap option_map]. rewrite skill_facts.uses_tick_skill.
      split; [reflexivity|].
      unfold skill_system.tick_skill, skill_system._update_level.
      destruct (find _ _); reflexivity.
  - cbn [skill_system.run_call]. split.
    + apply trained_in_defaults in Hnm. rewrite <- Hdom in Hnm.
      apply elem_of_dom in Hnm as [s Hs].
      unfold skill_system.use_skill. cbn [snd skill_system.skills]. rewrite Hs.
      rewrite dom_insert_L, <- Hdom.
      apply subseteq_union_1_L, singleton_subseteq_l, elem_of_dom. eauto.
    + intros k Hk.
      rewrite skill_facts.use_skill_lookup_ne by (intros ->; contradiction).
      split; reflexivity.
Qed.

(** X26.  The orchestrator changes its skill ledger only by [use_skill(name)]
    with the defaults, for one of the three skills it trains, and by
    [tick()].  The ledger therefore always holds exactly the five default
    skills, and the two skills outside those three are never used. *)
Theorem orchestrator_trains_three_skills (api_key : option str)
    (openai_client : option Client) (inputs : list str) :
  (exists cs, Forall orchestrator_call cs /\
     skills (run_cycles inputs (__init__ api_key openai_client)) =
     skill_system.run_calls cs skill_system.init) /\
  dom (skill_system.skills (skills (run_cycles inputs (__init__ api_key openai_client)))) =
    dom (skill_system.skills skill_system.init) /\
  forall nm s,
    skill_system.skills (skills (run_cycles inputs (__init__ api_key openai_client))) !! nm
      = Some s ->
    nm ∉ trained_skills ->
    skill_system.uses s = 0%Z /\ skill_system.last_used_cycle s = 0%Z.
Proof.
  destruct (run_cycles_ledger api_key openai_client inputs) as (cs & Hcs & ->).
  split; [exists cs; split; [exact Hcs|reflexivity]|].
  induction cs as [|c cs IH] using rev_ind.
  - split; [reflexivity|]. intros nm s Hs _. revert Hs.
    unfold skill_system.run_calls. cbn [fold_left].
    unfold skill_system.init, skill_system._init_default_skills, skill_system.defaults.
    cbn [fold_left skill_system.skills].
    rewrite !lookup_insert.
    repeat case_decide; try (intros [= <-]; split; reflexivity).
    all: rewrite lookup_empty; discriminate.
  - apply Forall_app in Hcs as [Hcs Hc]. apply Forall_inv in Hc.
    destruct (IH Hcs) as [Hdom Hun].
    rewrite skill_facts.run_calls_snoc.
    destruct (orchestrator_call_keeps c _ Hc Hdom) as [Hdom' Hsame].
    split; [exact Hdom'|].
    intros nm s Hs Hnm. destruct (Hsame nm Hnm) as [Hu Hl].
    rewrite Hs in Hu, Hl. cbn [fmap option_fmap option_map] in Hu, Hl.
    destruct (skill_system.skills (skill_system.run_calls cs skill_system.init) !! nm)
      as [s0|] eqn:Hs0; [|discriminate].
    cbn [fmap option_fmap option_map] in Hu, Hl.
    destruct (Hun nm s0 Hs0 Hnm) as [Hu0 Hl0].
    injection Hu as Hu. injection Hl as Hl. split; congruence.
Qed.

(** *** What the memories hold *)

(** What one turn does to the two memories, with the entries it adds. *)
Lemma run_cycle_step_entries text self :
  (working_memory (snd (run_cycle text self)) = working_memory self \/
   working_memory (snd (run_cycle text self)) = [] \/
   working_memory (snd (run_cycle text self)) =
     last_n 20 (working_memory self ++ [mkMessage (u "user") text])) /\
  (memory (snd (run_cycle text self)) = memory self \/
   exists ep, input ep = text /\
     (memory (snd (run_cycle text self)) = last_n 100 ([] ++ [ep]) \/
      memory (snd (run_cycle text self)) = last_n 100 (memory self ++ [ep]))).
Proof.
  destruct (fst (fst (check_input text (safety self)))) eqn:Hsafe.
  - pose proof (run_cycle_safe_state text self Hsafe) as Hst. cbv zeta in Hst.
    destruct (fst (run_cycle text self)) as [response|e].
    + destruct Hst as [-> ->].
      destruct (mem (u "do_reset_memory") _).
      * split; [auto|]. right. exists (episode_of text response self).
        split; [reflexivity|]. left. reflexivity.
      * split; [auto|]. right. exists (episode_of text response self).
        split; [reflexivity|]. right. reflexivity.
    + destruct Hst as [_ [-> ->]]. split; auto.
  - rewrite (run_cycle_unsafe _ _ Hsafe). split; left; reflexivity.
Qed.

(** X27.  After any sequence of turns on a constructed orchestrator every
    entry of the working memory has the role [user] (no reply is ever stored
    there), and the contents of the working memory as well as the inputs of
    the episodic memory are the inputs of some of the turns, in the order of
    the turns. *)
Theorem memories_hold_inputs_in_order (api_key : option str)
    (openai_client : option Client) (inputs : list str) :
  Forall (fun m => role m = u "user")
         (working_memory (run_cycles inputs (__init__ api_key openai_client))) /\
  map content (working_memory (run_cycles inputs (__init__ api_key openai_client)))
    `sublist_of` inputs /\
  map input (memory (run_cycles inputs (__init__ api_key openai_client)))
    `sublist_of` inputs.
Proof.
  induction inputs as [|text inputs IH] using rev_ind.
  - split; [constructor|]. split; constructor.
  - destruct IH as (Hr & Hw & Hm). rewrite run_cycles_snoc.
    destruct (run_cycle_step_entries text
                (run_cycles inputs (__init__ api_key openai_client))) as [Hsw Hsm].
    split; [|split].
    + destruct Hsw as [-> | [-> | ->]]; [exact Hr|constructor|].
      unfold last_n. apply Forall_drop. apply Forall_app. split; [exact Hr|].
      constructor; [reflexivity|constructor].
    + destruct Hsw as [-> | [-> | ->]].
      * apply sublist_inserts_r. exact Hw.
      * apply sublist_nil_l.
      * unfold last_n. rewrite <- skipn_map, map_app. cbn [map content].
        etransitivity; [apply sublist_drop|].
        apply sublist_app; [exact Hw|reflexivity].
    + destruct Hsm as [-> | (ep & Hin & [-> | ->])].
      * apply sublist_inserts_r. exact Hm.
      * unfold last_n. rewrite <- skipn_map, map_app. cbn [map]. rewrite Hin.
        etransitivity; [apply sublist_drop|].
        apply sublist_app; [apply sublist_nil_l|reflexivity].
      * unfold last_n. rewrite <- skipn_map, map_app. cbn [map]. rewrite Hin.
        etransitivity; [apply sublist_drop|].
        apply sublist_app; [exact Hm|reflexivity].
Qed.

End WithCollaborators.

(** *** On the offline deployment *)

Import offline.

Open Scope string_scope.
Open Scope list_scope.

Lemma offline_greeting :
  fst (run_cycle (u "привет") fresh) = Ret (u "Привет! Рад тебя видеть 🙂").
Proof. vm_compute. reflexivity. Qed.

Lemma only_status_turns_raise_witness :
  AttributeError "get_state" = AttributeError "get_state" /\
  fst (fst (check_input (u "/status") (safety fresh))) = true /\
  startswith (lower (u "/status")) (u "/status") = true /\
  working_memory (snd (run_cycle (u "/status") fresh)) =
    last_n 20 (working_memory fresh ++ [mkMessage (u "user") (u "/status")]) /\
  memory (snd (run_cycle (u "/status") fresh)) = memory fresh /\
  emotion (snd (run_cycle (u "/status") fresh)) =
    emotion (snd (_update_emotion (u "/status") fresh)) /\
  skills (snd (run_cycle (u "/status") fresh)) = skills fresh /\
  user_profile (snd (run_cycle (u "/status") fresh)) = user_profile fresh /\
  cycle_count (snd (run_cycle (u "/status") fresh)) = (cycle_count fresh + 1)%Z.
Proof.
  apply (only_status_turns_raise (u "/status") fresh (AttributeError "get_state")).
  - vm_compute. lia.
  - vm_compute. reflexivity.
Defined.

Lemma no_client_without_key_witness :
  client (run_cycles [u "как дела?"] (__init__ None None)) = None /\
  forall context retrieved,
    _make_plan (u "generic_question") (_form_goals (u "generic_question")) context retrieved
      (run_cycles [u "как дела?"] (__init__ None None)) = [u "use_fallback_logic"].
Proof.
  apply (no_client_without_key None None [u "как дела?"]).
  left. reflexivity.
Defined.

Lemma completed_turn_effects_witness :
  emotion (snd (run_cycle (u "привет") fresh)) =
    decay (emotion (snd (_update_emotion (u "привет") fresh))) /\
  skills (snd (run_cycle (u "привет") fresh)) =
    skill_system.tick 1
      (skill_system.run_calls (skill_calls (u "привет")) (skills fresh)) /\
  user_profile (snd (run_cycle (u "привет") fresh)) =
    mkUserProfile (name (user_profile fresh)) (likes (user_profile fresh))
      (dislikes (user_profile fresh)) (style (user_profile fresh))
      (count_topics (lower (u "привет")) (topics (user_profile fresh))) /\
  safety (snd (run_cycle (u "привет") fresh)) =
    snd (check_input (u "привет") (safety fresh)) /\
  cycle_count (snd (run_cycle (u "привет") fresh)) = (cycle_count fresh + 1)%Z.
Proof.
  apply (completed_turn_effects (u "привет") (u "Привет! Рад тебя видеть 🙂") fresh).
  - apply offline_safe. vm_compute. reflexivity.
  - exact offline_greeting.
Defined.

Lemma completed_turn_is_logged_witness :
  last (memory (snd (run_cycle (u "привет") fresh))) =
    Some (episode_of (u "привет") (u "Привет! Рад тебя видеть 🙂") fresh) /\
  (_infer_intent (u "привет") <> u "reset" ->
   last (working_memory (snd (run_cycle (u "привет") fresh))) =
     Some (mkMessage (u "user") (u "привет")) /\
   last (context (episode_of (u "привет") (u "Привет! Рад тебя видеть 🙂") fresh)) =
     Some (mkMessage (u "user") (u "привет"))) /\
  retrieved (episode_of (u "привет") (u "Привет! Рад тебя видеть 🙂") fresh) =
    last_n 5 (memory fresh) /\
  recalled (snd (run_cycle (u "привет") fresh)) =
    (if (3 <? length (u "привет"))%nat then Some (u "привет") else None).
Proof.
  apply (completed_turn_is_logged (u "привет") (u "Привет! Рад тебя видеть 🙂") fresh).
  - apply offline_safe. vm_compute. reflexivity.
  - exact offline_greeting.
Defined.

Lemma smalltalk_echoes_previous_input_witness :
  fst (run_cycle (u "2 + 2") (snd (run_cycle (u "привет") fresh))) =
    Ret (recall_reply (u "привет")).
Proof.
  apply (smalltalk_echoes_previous_input (u "привет") (u "2 + 2")
           (u "Привет! Рад тебя видеть 🙂") fresh).
  - apply offline_safe. vm_compute. reflexivity.
  - exact offline_greeting.
  - vm_compute. lia.
  - apply offline_safe. vm_compute. reflexivity.
  - vm_compute. reflexivity.
Defined.

Lemma search_turn_acknowledges_without_searching_witness :
  fst (run_cycle (u "включи поиск_в_интернете") fresh) =
    Ret (if (skill_system.get_level (u "поиск_в_интернете") (skills fresh) =? 0)%Z
         then u "Я пока только учусь поиску. Могу помочь сформулировать запрос."
         else u "Навык поиска прокачан. Могу подсказать, как лучше искать.") /\
  online_brain (snd (run_cycle (u "включи поиск_в_интернете") fresh)) = online_brain fresh /\
  skill_system.uses <$>
    (skill_system.skills (skills (snd (run_cycle (u "включи поиск_в_интернете") fresh)))
       !! u "поиск_в_интернете") =
  Some (skill_system.uses (props.prior_skill (u "поиск_в_интернете") (skills fresh)) + 1)%Z.
Proof.
  apply (search_turn_acknowledges_without_searching (u "включи поиск_в_интернете") fresh).
  - apply offline_safe. vm_compute. reflexivity.
  - vm_compute. reflexivity.
Defined.

Lemma support_turn_names_the_emotion_witness :
  fst (run_cycle (u "мне грустно") fresh) =
    Ret (support_reply
           (emotion_value
              (fst (get_dominant_emotion
                      (emotion (snd (_update_emotion (u "мне грустно") fresh))))))) /\
  memory (snd (run_cycle (u "мне грустно") fresh)) =
    last_n 100 (memory fresh
                ++ [episode_of (u "мне грустно")
                      (support_reply
                         (emotion_value
                            (fst (get_dominant_emotion
                                    (emotion (snd (_update_emotion (u "мне грустно")
                                                     fresh)))))))
                      fresh]).
Proof.
  apply (support_turn_names_the_emotion (u "мне грустно") fresh).
  - apply offline_safe. vm_compute. reflexivity.
  - vm_compute. reflexivity.
Defined.

Lemma llm_turn_sends_input_twice_witness :
  let self := @__init__ collaborators (Some (u "sk-test")) (Some tt) in
  let text := u "который час?" in
  let context := last_n 10 (last_n 20 (working_memory self ++ [mkMessage (u "user") text])) in
  let request := llm_request text context (emotion (snd (_update_emotion text self))) in
  fst (run_cycle text self) = Ret (llm_reply (fst (chat_completions_create request tt))) /\
  client (snd (run_cycle text self)) = Some (snd (chat_completions_create request tt)) /\
  exists system earlier,
    request = [(u "system", system)] ++ earlier ++ [(u "user", text); (u "user", text)].
Proof.
  apply (llm_turn_sends_input_twice (u "который час?")
           (@__init__ collaborators (Some (u "sk-test")) (Some tt)) tt).
  - apply offline_safe. vm_compute. reflexivity.
  - vm_compute. reflexivity.
  - vm_compute. reflexivity.
Defined.

End turn_facts.

(** * Properties of the online module *)

Module online_facts.

Import online_brain online_props.

Open Scope string_scope.
Open Scope list_scope.

Lemma startswith_spec (s p : str) :
  startswith s p = true <-> exists post, s = p ++ post.
Proof.
  revert s. induction p as [|c p IH]; intros s.
  - destruct s; cbn [startswith]; split; eauto.
  - destruct s as [|d s]; cbn [startswith].
    + split; [discriminate|]. intros [post Hp]. discriminate.
    + rewrite andb_true_iff, N.eqb_eq, IH. split.
      * intros [-> [post ->]]. exists post. reflexivity.
      * intros [post [= -> ->]]. split; [reflexivity|]. exists post. reflexivity.
Qed.

Lemma contains_spec (t w : str) :
  contains t w = true <-> exists pre post, t = pre ++ w ++ post.
Proof.
  split.
  - induction t as [|c t IH]; cbn [contains]; rewrite orb_true_iff.
    + intros [Hs|Hf]; [|discriminate].
      apply startswith_spec in Hs as [post Hp]. exists [], post. exact Hp.
    + intros [Hs|Hc].
      * apply startswith_spec in Hs as [post Hp]. exists [], post. exact Hp.
      * destruct (IH Hc) as (pre & post & ->). exists (c :: pre), post. reflexivity.
  - intros (pre & post & ->). induction pre as [|c pre IH].
    + assert (startswith ([] ++ w ++ post) w = true) as Hs.
      { apply startswith_spec. exists post. reflexivity. }
      destruct ([] ++ w ++ post); cbn [contains]; rewrite Hs; reflexivity.
    + cbn [app contains]. rewrite IH. apply orb_true_r.
Qed.

(** X28.  [_allowed_domain] is a substring test: it accepts a URL exactly
    when one of the allowed domains occurs somewhere in it.  So any text
    around an accepted URL is accepted as well, whatever the host; the empty
    URL is rejected. *)
Theorem allowed_domain_is_a_substring_test (url : str) :
  (_allowed_domain url = true <->
   exists domain pre post, domain ∈ allowed /\ url = pre ++ domain ++ post) /\
  (_allowed_domain url = true ->
   forall pre post, _allowed_domain (pre ++ url ++ post) = true) /\
  _allowed_domain [] = false.
Proof.
  assert (forall x, _allowed_domain x = true <->
            exists domain pre post, domain ∈ allowed /\ x = pre ++ domain ++ post) as Hspec.
  { intros x. unfold _allowed_domain, any_in. rewrite existsb_exists. split.
    - intros (domain & Hin & Hc). apply contains_spec in Hc as (pre & post & ->).
      exists domain, pre, post. split; [|reflexivity].
      apply list_elem_of_In. exact Hin.
    - intros (domain & pre & post & Hin & ->). exists domain.
      split; [apply list_elem_of_In; exact Hin|].
      apply contains_spec. eauto. }
  split; [apply Hspec|]. split.
  - intros Ha pre post. apply Hspec in Ha as (domain & pre' & post' & Hin & ->).
    apply Hspec. exists domain, (pre ++ pre'), (post' ++ post).
    split; [exact Hin|]. rewrite <- !app_assoc. reflexivity.
  - vm_compute. reflexivity.
Qed.

(** *** The loop of [search_google] *)

Lemma collect_spec (num : Z) (blocks : list Block) (results : list SearchResult) :
  (length results < Z.to_nat (Z.max num 1))%nat ->
  collect num blocks results =
  results ++ take (Z.to_nat (Z.max num 1) - length results) (omap block_result blocks).
Proof.
  revert results. induction blocks as [|g blocks IH]; intros results Hlen.
  - cbn [collect omap list_omap]. rewrite take_nil, app_nil_r. reflexivity.
  - cbn [collect omap list_omap]. unfold block_result at 1.
    destruct (anchor g) as [[title url]|]; [|apply IH; exact Hlen].
    destruct (_allowed_domain url); cbn [negb]; [|apply IH; exact Hlen].
    cbv zeta. rewrite length_app. cbn [length].
    destruct (num <=? Z.of_nat (length results + 1))%Z eqn:Hn.
    + apply Z.leb_le in Hn.
      replace (Z.to_nat (Z.max num 1) - length results)%nat with 1%nat by lia.
      cbn [take]. rewrite take_0. reflexivity.
    + apply Z.leb_gt in Hn. rewrite IH by (rewrite length_app; cbn [length]; lia).
      rewrite length_app. cbn [length].
      replace (Z.to_nat (Z.max num 1) - length results)%nat
        with (S (Z.to_nat (Z.max num 1) - (length results + 1)))%nat by lia.
      cbn [take]. rewrite <- app_assoc. reflexivity.
Qed.

Lemma block_result_allowed (g : Block) (r : SearchResult) :
  block_result g = Some r -> _allowed_domain (url r) = true.
Proof.
  unfold block_result. destruct (anchor g) as [[title url]|]; [|discriminate].
  destruct (_allowed_domain url) eqn:Ha; [|discriminate].
  intros [= <-]. exact Ha.
Qed.

(** X29.  The loop of [search_google] returns the first [max(num, 1)]
    results, in page order, of the blocks that have a link passing the domain
    filter; it returns at most that many results, and the URL of each passes
    the filter. *)
Theorem search_results_are_the_first_allowed (num : Z) (blocks : list Block) :
  search_results num blocks = take (Z.to_nat (Z.max num 1)) (omap block_result blocks) /\
  (length (search_results num blocks) <= Z.to_nat (Z.max num 1))%nat /\
  Forall (fun r => _allowed_domain (url r) = true) (search_results num blocks).
Proof.
  assert (search_results num blocks =
          take (Z.to_nat (Z.max num 1)) (omap block_result blocks)) as Heq.
  { unfold search_results. rewrite collect_spec by (cbn [length]; lia).
    cbn [app length]. rewrite Nat.sub_0_r. reflexivity. }
  split; [exact Heq|]. rewrite Heq. split.
  - rewrite length_take. lia.
  - apply Forall_take. apply Forall_forall. intros r Hr.
    apply list_elem_of_omap in Hr as (g & _ & Hg).
    apply (block_result_allowed g r Hg).
Qed.

(** *** [answer] *)

Section WithSession.

Context {Session : Type}.
Variable search_google : str -> Session -> outcome (list SearchResult) * Session.
Variable fetch_and_summarize : str -> Session -> outcome (option str) * Session.

(** X30.  [answer] never returns an empty string, whatever the two requests
    do.  When the search raises, the reply is the fixed error message and the
    session is as the search left it; when the search finds nothing no page
    is fetched. *)
Theorem answer_is_never_empty (query : str) (session : Session) :
  fst (answer search_google fetch_and_summarize query session) <> [] /\
  (forall e session',
      search_google query session = (Raise e, session') ->
      answer search_google fetch_and_summarize query session = (search_error, session')) /\
  (forall session',
      search_google query session = (Ret [], session') ->
      snd (answer search_google fetch_and_summarize query session) = session').
Proof.
  assert (search_error <> []) as Herr by (vm_compute; discriminate).
  split; [|split].
  - unfold answer.
    destruct (search_google query session) as [[[|best rest]|e] session'];
      [vm_compute; discriminate| |exact Herr].
    destruct (fetch_and_summarize (url best) session') as [[[[|c text]|]|e] session''];
      cbn [fst]; try exact Herr; try discriminate.
    all: assert (exists c r, u "Нашёл что-то по запросу: " = c :: r) as (c & r & ->)
           by (vm_compute; eauto); discriminate.
  - intros e session' Hs. unfold answer. rewrite Hs. reflexivity.
  - intros session' Hs. unfold answer. rewrite Hs. reflexivity.
Qed.

End WithSession.

End online_facts.
